(** * captain: the connection manager (captain/connection.py)

    A shallow embedding of [Connection] and of the log-stream helper it
    installs on every docker client, together with the properties of the
    specification that concern them.

    Python values are modelled as follows: [str] is [string] (a sequence of
    8-bit characters), integers are [Z], [dict]s with string keys are
    [gmap string _], lists are [list].  A call that may raise returns a
    [result]; calls on the docker daemons are recorded in a call log.

    Three simplifications are made.  The workers of the thread pool are
    run one after the other, in the order in which they complete: each
    worker only talks to the client of its own node, and the cache is
    the one structure they share.  Times are exact integers, in
    microseconds, where [total_seconds()] is a float.  A generator is
    represented by the list of what it yields. *)

From Stdlib Require Import ZArith Ascii String List Lia Bool Permutation.
From stdpp Require Import base option list strings gmap.

Local Open Scope string_scope.
Local Open Scope Z_scope.
Local Open Scope list_scope.

(** ** Python string primitives *)

Module Py.

(** [s.split(sep)] for a one-character separator: never empty. *)
Fixpoint split (sep : ascii) (s : string) : list string :=
  match s with
  | EmptyString => [EmptyString]
  | String c s' =>
      if Ascii.eqb c sep then EmptyString :: split sep s'
      else match split sep s' with
           | [] => [String c EmptyString]
           | p :: ps => String c p :: ps
           end
  end.

(** [s.split(sep, 1)]: [None] when [sep] does not occur (one piece),
    otherwise the text before and after the first occurrence. *)
Fixpoint split1 (sep : ascii) (s : string) : option (string * string) :=
  match s with
  | EmptyString => None
  | String c s' =>
      if Ascii.eqb c sep then Some (EmptyString, s')
      else match split1 sep s' with
           | Some (k, v) => Some (String c k, v)
           | None => None
           end
  end.

(** [s.rstrip(ch)]: drops every trailing occurrence of [ch]. *)
Fixpoint rstrip (ch : ascii) (s : string) : string :=
  match s with
  | EmptyString => EmptyString
  | String c s' =>
      match rstrip ch s' with
      | EmptyString => if Ascii.eqb c ch then EmptyString else String c EmptyString
      | r => String c r
      end
  end.

(** [s.startswith(p)] *)
Definition startswith (p s : string) : bool := String.prefix p s.

(** [s[1:]] *)
Definition tail (s : string) : string :=
  match s with
  | EmptyString => EmptyString
  | String _ s' => s'
  end.

(** The characters [str.split()] and [str.strip()] treat as blanks. *)
Definition isspace (c : ascii) : bool :=
  let n := nat_of_ascii c in
  (Nat.eqb n 32 || (Nat.leb 9 n && Nat.leb n 13))%bool.

(** [s.split()]: the maximal runs of non-blank characters. *)
Fixpoint split_ws (s : string) : list string :=
  match s with
  | EmptyString => []
  | String c s' =>
      if isspace c then split_ws s'
      else match s' with
           | EmptyString => [String c EmptyString]
           | String c' _ =>
               if isspace c' then String c EmptyString :: split_ws s'
               else match split_ws s' with
                    | [] => [String c EmptyString]
                    | t :: ts => String c t :: ts
                    end
           end
  end.

Fixpoint lstrip_ws (s : string) : string :=
  match s with
  | EmptyString => EmptyString
  | String c s' => if isspace c then lstrip_ws s' else s
  end.

Fixpoint rstrip_ws (s : string) : string :=
  match s with
  | EmptyString => EmptyString
  | String c s' =>
      match rstrip_ws s' with
      | EmptyString => if isspace c then EmptyString else String c EmptyString
      | r => String c r
      end
  end.

Definition digit (c : ascii) : option Z :=
  let n := nat_of_ascii c in
  if (Nat.leb 48 n && Nat.leb n 57)%bool then Some (Z.of_nat n - 48) else None.

(** Value of a string of decimal digits read after the prefix [acc];
    [None] on any other character. *)
Fixpoint digits (acc : Z) (s : string) : option Z :=
  match s with
  | EmptyString => Some acc
  | String c s' =>
      match digit c with
      | Some d => digits (10 * acc + d) s'
      | None => None
      end
  end.

(** [int(s)] in base 10: surrounding blanks, an optional sign, then at
    least one digit; [None] stands for [ValueError]. *)
Definition int (s : string) : option Z :=
  match rstrip_ws (lstrip_ws s) with
  | EmptyString => None
  | String c s' =>
      if Ascii.eqb c "-" then
        match s' with EmptyString => None | _ => Z.opp <$> digits 0 s' end
      else if Ascii.eqb c "+" then
        match s' with EmptyString => None | _ => digits 0 s' end
      else digits 0 (String c s')
  end.

(** [s[:n]] and [s[n:]] for [n >= 0] *)
Fixpoint slice_to (n : nat) (s : string) : string :=
  match n, s with
  | S n', String c s' => String c (slice_to n' s')
  | _, _ => EmptyString
  end.

Fixpoint slice_from (n : nat) (s : string) : string :=
  match n, s with
  | S n', String _ s' => slice_from n' s'
  | _, _ => s
  end.

(** [len(s)] *)
Definition len (s : string) : Z := Z.of_nat (String.length s).

End Py.

Definition LF : ascii := ascii_of_nat 10.
Definition nl : string := String LF EmptyString.

(** ** datetime: the part of the standard library the inventory uses

    A naive [datetime] is represented by the number of microseconds since
    0001-01-01T00:00:00, the smallest value the type holds. *)

Module Datetime.

(** One field of [strptime]: every way of reading it off the front of
    the input, in the order the alternatives of its pattern are tried,
    each with the text left over. *)
Definition field := string -> list (Z * string).

Definition next_digit (lo hi : Z) (s : string) : list (Z * string) :=
  match s with
  | String c s' =>
      match Py.digit c with
      | Some d => if (lo <=? d) && (d <=? hi) then [(d, s')] else []
      | None => []
      end
  | EmptyString => []
  end.

(** Two digits, the first in [lo1..hi1] and the second in [lo2..hi2]. *)
Definition two_digits (lo1 hi1 lo2 hi2 : Z) : field := fun s =>
  '(a, s1) ← next_digit lo1 hi1 s;
  '(b, s2) ← next_digit lo2 hi2 s1;
  [(10 * a + b, s2)].

Definition blank_digit (lo hi : Z) : field := fun s =>
  match s with
  | String c s' => if Ascii.eqb c " " then next_digit lo hi s' else []
  | EmptyString => []
  end.

(** [%Y] is [\d\d\d\d]. *)
Definition dir_Y : field := fun s =>
  '(a, s1) ← next_digit 0 9 s;
  '(b, s2) ← next_digit 0 9 s1;
  '(c, s3) ← next_digit 0 9 s2;
  '(d, s4) ← next_digit 0 9 s3;
  [(1000 * a + 100 * b + 10 * c + d, s4)].

(** [%m] is [1[0-2]|0[1-9]|[1-9]]. *)
Definition dir_m : field := fun s =>
  two_digits 1 1 0 2 s ++ two_digits 0 0 1 9 s ++ next_digit 1 9 s.

(** [%d] is [3[0-1]|[1-2]\d|0[1-9]|[1-9]| [1-9]]. *)
Definition dir_d : field := fun s =>
  two_digits 3 3 0 1 s ++ two_digits 1 2 0 9 s ++ two_digits 0 0 1 9 s
     ++ next_digit 1 9 s ++ blank_digit 1 9 s.

(** [%H] is [2[0-3]|[0-1]\d|\d]. *)
Definition dir_H : field := fun s =>
  two_digits 2 2 0 3 s ++ two_digits 0 1 0 9 s ++ next_digit 0 9 s.

(** [%M] is [[0-5]\d|\d]. *)
Definition dir_M : field := fun s =>
  two_digits 0 5 0 9 s ++ next_digit 0 9 s.

(** [%S] is [6[0-1]|[0-5]\d|\d]. *)
Definition dir_S : field := fun s =>
  two_digits 6 6 0 1 s ++ two_digits 0 5 0 9 s ++ next_digit 0 9 s.

(** A literal character of the format; letters match in either case. *)
Definition lit (lower upper : ascii) (s : string) : list string :=
  match s with
  | String c s' => if Ascii.eqb c lower || Ascii.eqb c upper then [s'] else []
  | EmptyString => []
  end.

(** The matches of the pattern of ['%Y-%m-%dT%H:%M:%S'] against a prefix
    of the input, best first. *)
Definition match_format (s : string) : list (Z * Z * Z * Z * Z * Z * string) :=
  '(Y, s1) ← dir_Y s;
  s2 ← lit "-" "-" s1;
  '(m, s3) ← dir_m s2;
  s4 ← lit "-" "-" s3;
  '(d, s5) ← dir_d s4;
  s6 ← lit "t" "T" s5;
  '(H, s7) ← dir_H s6;
  s8 ← lit ":" ":" s7;
  '(Mi, s9) ← dir_M s8;
  s10 ← lit ":" ":" s9;
  '(Se, s11) ← dir_S s10;
  [(Y, m, d, H, Mi, Se, s11)].

Definition is_leap (y : Z) : bool :=
  (y mod 4 =? 0) && (negb (y mod 100 =? 0) || (y mod 400 =? 0)).

Definition days_in_month (y m : Z) : Z :=
  if m =? 2 then (if is_leap y then 29 else 28)
  else if (m =? 4) || (m =? 6) || (m =? 9) || (m =? 11) then 30
  else 31.

Fixpoint days_before_month_aux (y : Z) (n : nat) : Z :=
  match n with
  | O => 0
  | S k => days_before_month_aux y k + days_in_month y (Z.of_nat (S k))
  end.

(** Days of year [y] that precede the first day of month [m]. *)
Definition days_before_month (y m : Z) : Z :=
  days_before_month_aux y (Z.to_nat (m - 1)).

(** Days that precede January 1st of year [y], counted from year 1. *)
Definition days_before_year (y : Z) : Z :=
  let p := y - 1 in p * 365 + p / 4 - p / 100 + p / 400.

(** [datetime(Y, m, d, H, M, S)]: [None] stands for [ValueError]. *)
Definition make (Y m d H Mi Se : Z) : option Z :=
  if (1 <=? Y) && (Y <=? 9999) && (1 <=? m) && (m <=? 12)
     && (1 <=? d) && (d <=? days_in_month Y m)
     && (0 <=? H) && (H <=? 23) && (0 <=? Mi) && (Mi <=? 59)
     && (0 <=? Se) && (Se <=? 59)
  then
    let days := days_before_year Y + days_before_month Y m + (d - 1) in
    Some ((((days * 24 + H) * 60 + Mi) * 60 + Se) * 1000000)
  else None.

(** [datetime.strptime(s, '%Y-%m-%dT%H:%M:%S')]: the best match of the
    pattern has to use up the whole input and name a valid date. *)
Definition strptime (s : string) : option Z :=
  match match_format s with
  | (Y, m, d, H, Mi, Se, EmptyString) :: _ => make Y m d H Mi Se
  | _ => None
  end.

End Datetime.

(** ** Exceptions *)

Inductive exn :=
  | KeyError | IndexError | TypeError | ValueError
  | NoSuchNodeException | NoSuchInstanceException | NodeOutOfCapacityException
  | ConnectionError | Timeout | APIError.

Inductive result (A : Type) :=
  | Ok (a : A)
  | Raise (e : exn).
Arguments Ok {A} a.
Arguments Raise {A} e.

(** ** Records exchanged with a docker daemon *)

(** An entry of [containers(all=True)]; [c_Ports] keeps the [PrivatePort]
    of every port of the entry. *)
Record Container := {
  c_Id : string;
  c_Status : string;
  c_Ports : list Z }.

(** The fields of [inspect_container] the connection reads.
    [i_Ports] is [NetworkSettings.Ports]: JSON null, or a dictionary from
    port names to null or a list of bindings. *)
Record Inspection := {
  i_Id : string;
  i_Name : string;
  i_Env : list string;
  i_CpuShares : Z;
  i_Ports : option (gmap string (option (list (gmap string string))));
  i_FinishedAt : string }.

(** Keyword arguments of [create_container]. *)
Record CreateArgs := {
  ca_image : string;
  ca_command : string;
  ca_ports : list Z;
  ca_environment : gmap string string;
  ca_detach : bool;
  ca_hostname : option string;
  ca_name : string;
  ca_cpu_shares : Z;
  ca_mem_limit : Z }.

(** A call on a docker client. *)
Inductive call :=
  | Containers
  | InspectContainer (id : string)
  | CreateContainer (args : CreateArgs)
  | Start (id : string) (port_bindings : option (list (Z * option Z)))
  | Kill (id : string)
  | Stop (id : string)
  | RemoveContainer (id : string) (force : bool)
  | Logs (id : string) (stream : bool)
  | Ping.

(** A call together with the hostname of the node whose client took it. *)
Definition event : Type := string * call.

(** What [Connection] hands out for an application container. *)
Record Instance := {
  inst_id : string;
  inst_app : string;
  inst_slug_uri : option string;
  inst_node : string;
  inst_port : Z;
  inst_environment : gmap string string;
  inst_slots : Z }.

(** The dictionary [get_node] returns. *)
Record NodeDetails := {
  nd_id : string;
  nd_total : Z;
  nd_used : Z;
  nd_free : Z;
  nd_state : string + exn }.

Record LogRecord := { msg : string }.

(** Messages of level warning and above. *)
Inductive logged :=
  | WarnZeroExitTime (id node : string)
  | WarnExitTimeReset (id : string)
  | WarnWillRecycle (id node exit_time : string)
  | WarnRemoved (id node : string)
  | WarnFailedToRemove (id node : string)
  | ErrorGettingInstances (node : string) (e : exn)
  | ErrorGettingDetails (node : string) (e : exn)
  | ErrorNotConfigured (node : string)
  | ErrorCommunication (node : string) (e : exn).

(** ** The environment of a connection

    Everything outside the process: how each daemon answers a call given
    the calls made so far, the clock and time zone of the host, the
    random uuids, and the order in which the worker pool finishes. *)
Record World := {
  containers_resp : list event -> string -> result (list Container);
  inspect_resp : list event -> string -> string -> result Inspection;
  create_resp : list event -> string -> CreateArgs -> result string;
  (** outcome of [start], [kill], [stop], [remove_container] and [ping] *)
  command_resp : list event -> string -> call -> option exn;
  (** [logs(id)]: the whole log *)
  logs_resp : list event -> string -> string -> result string;
  (** [logs(id, stream=True)]: what [iter_content(10)] delivers *)
  logs_stream_resp : list event -> string -> string -> result (list string);
  (** microseconds since 0001-01-01T00:00:00 UTC *)
  utcnow : list event -> Z;
  (** offset of the local time zone of the host from UTC, in microseconds *)
  utcoffset : Z;
  uuid4 : nat -> string;
  (** the order in which the workers given to the pool finish *)
  as_completed : list string -> list string;
  as_completed_all : forall nodes, Permutation (as_completed nodes) nodes }.

Record Config := {
  docker_gc_grace_period : Z;
  slots_per_node : Z;
  default_slots_per_instance : Z;
  slot_memory_mb : Z;
  slug_runner_image : string;
  slug_runner_command : string }.

(** [self]: the configuration and the keys of [node_connections]. *)
Record Connection := {
  config : Config;
  node_connections : list string }.

Definition lru_cache_size : nat := 1024.

(** ** Process state

    [calls]: every call made on a docker client, oldest first.
    [lru]: the cache of [_get_lru_instance_details], most recent first.
    [environments]: the dictionary objects that callers pass or share as
    [environment], by address.
    [uuids]: how many uuids were drawn.  [log]: messages, oldest first. *)
Record State := {
  calls : list event;
  lru : list (string * string * string * Inspection);
  environments : nat -> gmap string string;
  uuids : nat;
  log : list logged }.

Definition set_calls (f : list event -> list event) (s : State) : State :=
  {| calls := f (calls s); lru := lru s; environments := environments s;
     uuids := uuids s; log := log s |}.
Definition set_lru (c : list (string * string * string * Inspection)) (s : State) : State :=
  {| calls := calls s; lru := c; environments := environments s;
     uuids := uuids s; log := log s |}.
Definition set_environment (a : nat) (d : gmap string string) (s : State) : State :=
  {| calls := calls s; lru := lru s;
     environments := fun b => if Nat.eqb a b then d else environments s b;
     uuids := uuids s; log := log s |}.
Definition set_uuids (n : nat) (s : State) : State :=
  {| calls := calls s; lru := lru s; environments := environments s;
     uuids := n; log := log s |}.
Definition add_log (m : logged) (s : State) : State :=
  {| calls := calls s; lru := lru s; environments := environments s;
     uuids := uuids s; log := log s ++ [m] |}.

(** Address of the dictionary that is the default value of the
    [environment] parameter of [start_instance]; it is created once, when
    the method is defined. *)
Definition default_environment : nat := 0%nat.

Definition initial_state : State :=
  {| calls := []; lru := []; environments := fun _ => ∅; uuids := 0%nat; log := [] |}.

(** ** Computations that change the state and may raise *)

Definition M (A : Type) : Type := State -> result A * State.

Definition ret {A} (a : A) : M A := fun s => (Ok a, s).
Definition raise {A} (e : exn) : M A := fun s => (Raise e, s).
Definition bind {A B} (m : M A) (k : A -> M B) : M B := fun s =>
  match m s with
  | (Ok a, s') => k a s'
  | (Raise e, s') => (Raise e, s')
  end.
(** [try: m except: h] with a bare [except] *)
Definition try_except {A} (m : M A) (h : exn -> M A) : M A := fun s =>
  match m s with
  | (Ok a, s') => (Ok a, s')
  | (Raise e, s') => h e s'
  end.
Definition lift {A} (r : result A) : M A := fun s => (r, s).
Definition logging (m : logged) : M unit := fun s => (Ok tt, add_log m s).

Declare Scope py_scope.
Delimit Scope py_scope with py.
Notation "x <- m ;; k" := (bind m (fun x => k))
  (at level 100, m at next level, right associativity) : py_scope.
Notation "m ;; k" := (bind m (fun _ => k))
  (at level 100, right associativity) : py_scope.
Local Open Scope py_scope.

(** ** The log-stream helper installed by [__get_connection] *)

(** [struct.unpack('>BxxxL', header)[1]]: bytes 4 to 7, big-endian. *)
Definition unpack_length (header : string) : Z :=
  match Py.slice_from 4 header with
  | String b4 (String b5 (String b6 (String b7 _))) =>
      Z.of_nat (nat_of_ascii b4) * 16777216 + Z.of_nat (nat_of_ascii b5) * 65536
      + Z.of_nat (nat_of_ascii b6) * 256 + Z.of_nat (nat_of_ascii b7)
  | _ => 0
  end.

(** [not length] *)
Definition not_length (length : option Z) : bool :=
  match length with
  | None => true
  | Some n => n =? 0
  end.

(** The [while True] loop of [__hacked_multiplexed_socket_stream_helper]:
    [chunks] is what the successive [i.next()] return before
    [StopIteration], the result is what the generator yields. *)
Fixpoint stream_helper_loop (chunks : list string) (data_buffer : string)
    (length : option Z) : list string :=
  match chunks with
  | [] => []
  | chunk :: rest =>
      let data_buffer := data_buffer +:+ chunk in
      let length :=
        if not_length length && (Py.len data_buffer >? 8)
        then Some (unpack_length (Py.slice_to 8 data_buffer))
        else length in
      match length with
      | Some n =>
          if negb (n =? 0) && (Py.len (Py.slice_from 8 data_buffer) >=? n)
          then Py.slice_to (Z.to_nat n) (Py.slice_from 8 data_buffer)
                 :: stream_helper_loop rest
                      (Py.slice_from (8 + Z.to_nat n) data_buffer) None
          else stream_helper_loop rest data_buffer length
      | None => stream_helper_loop rest data_buffer length
      end
  end.

Definition __hacked_multiplexed_socket_stream_helper (chunks : list string) : list string :=
  stream_helper_loop chunks "" None.

(** [response.iter_content(n)] over a body that is read to its end:
    pieces of [n] bytes, the last one possibly shorter; [k] is the room
    left in the piece being filled. *)
Fixpoint iter_content_from (n k : nat) (body : string) : list string :=
  match body with
  | EmptyString => []
  | String c body' =>
      match k with
      | O | S O => String c EmptyString :: iter_content_from n n body'
      | S k' =>
          match iter_content_from n k' body' with
          | [] => [String c EmptyString]
          | p :: ps => String c p :: ps
          end
      end
  end.

Definition iter_content (n : nat) (body : string) : list string :=
  iter_content_from n n body.

(** ** Instance projection: [__get_instance] *)

Definition reserved_keys : list string := ["HOME"; "PATH"; "SLUG_URL"; "PORT"].

(** The loop over [container["Config"]["Env"]]. *)
Fixpoint read_env (items : list string) (environment : gmap string string)
    (slug_uri : option string) : result (gmap string string * option string) :=
  match items with
  | [] => Ok (environment, slug_uri)
  | env_item :: rest =>
      match Py.split1 "=" env_item with
      | None => Raise ValueError
      | Some (env_item_key, env_item_value) =>
          let environment :=
            if existsb (String.eqb env_item_key) reserved_keys then environment
            else <[env_item_key := env_item_value]> environment in
          let slug_uri :=
            if String.eqb env_item_key "SLUG_URL" then Some env_item_value
            else slug_uri in
          read_env rest environment slug_uri
      end
  end.

(** [int(container["NetworkSettings"]["Ports"]["8080/tcp"][0]["HostPort"])] *)
Definition host_port (container : Inspection) : result Z :=
  match i_Ports container with
  | None => Raise TypeError
  | Some ports =>
      match ports !! "8080/tcp" with
      | None => Raise KeyError
      | Some None => Raise TypeError
      | Some (Some []) => Raise IndexError
      | Some (Some (binding :: _)) =>
          match binding !! "HostPort" with
          | None => Raise KeyError
          | Some p =>
              match Py.int p with
              | None => Raise ValueError
              | Some n => Ok n
              end
          end
      end
  end.

(** [container["Name"][1:].split("_")[0]] *)
Definition app_of_name (name : string) : string :=
  hd "" (Py.split "_" (Py.tail name)).

Definition __get_instance (node : string) (container : Inspection) : result Instance :=
  let app := app_of_name (i_Name container) in
  match read_env (i_Env container) ∅ None with
  | Raise e => Raise e
  | Ok (environment, slug_uri) =>
      match host_port container with
      | Raise e => Raise e
      | Ok port =>
          Ok {| inst_id := i_Id container;
                inst_app := app;
                inst_slug_uri := slug_uri;
                inst_node := node;
                inst_port := port;
                inst_environment := environment;
                inst_slots := i_CpuShares container |}
      end
  end.

(** ** The connection *)

Definition zero_exit_time : string := "0001-01-01T00:00:00Z".

Definition same_key (node id status : string)
    (entry : string * string * string * Inspection) : bool :=
  let '(n, i, st, _) := entry in
  String.eqb n node && String.eqb i id && String.eqb st status.

Fixpoint lru_find (node id status : string)
    (cache : list (string * string * string * Inspection)) : option Inspection :=
  match cache with
  | [] => None
  | entry :: rest =>
      if same_key node id status entry then Some (snd entry)
      else lru_find node id status rest
  end.

Definition lru_drop (node id status : string)
    (cache : list (string * string * string * Inspection)) :=
  List.filter (fun entry => negb (same_key node id status entry)) cache.

(** [full.split()[0] if full else full] *)
Definition coarse_status (full_container_status : string) : result string :=
  match full_container_status with
  | EmptyString => Ok EmptyString
  | _ =>
      match Py.split_ws full_container_status with
      | [] => Raise IndexError
      | t :: _ => Ok t
      end
  end.

Definition sum_slots (instances : list Instance) : Z :=
  fold_left (fun x y => x + inst_slots y) instances 0.

(** [slots] after [if not slots: slots = self.config.default_slots_per_instance] *)
Definition requested_slots (self : Connection) (slots : option Z) : Z :=
  match slots with
  | None => default_slots_per_instance (config self)
  | Some n => if n =? 0 then default_slots_per_instance (config self) else n
  end.

Section Connection.

Variable w : World.
Variable self : Connection.

(** A call on the client of [node]: the daemon answers from the calls
    seen so far, and the call joins the log. *)
Definition docker {A} (node : string) (c : call)
    (resp : list event -> result A) : M A := fun s =>
  (resp (calls s), set_calls (fun l => l ++ [(node, c)]) s).

Definition command (node : string) (c : call) : M unit :=
  docker node c (fun h =>
    match command_resp w h node c with
    | None => Ok tt
    | Some e => Raise e
    end).

(** [self.node_connections[node]] *)
Definition node_connection (node : string) : M unit :=
  if existsb (String.eqb node) (node_connections self) then ret tt
  else raise KeyError.

(** [datetime.datetime.now()]: the local time of the host. *)
Definition datetime_now : M Z := fun s =>
  (Ok (utcnow w (calls s) + utcoffset w), s).

(** [str(uuid.uuid4())] *)
Definition fresh_uuid : M string := fun s =>
  (Ok (uuid4 w (uuids s)), set_uuids (S (uuids s)) s).

(** The method under [lru_cache(maxsize=lru_cache_size)]: a hit makes
    no call and moves the entry to the front; a miss inspects the
    container and stores the answer, discarding the least recently
    used entry of a full cache; an exception stores nothing. *)
Definition _get_lru_instance_details (node container_id container_status : string)
    : M Inspection := fun s =>
  match lru_find node container_id container_status (lru s) with
  | Some node_container =>
      (Ok node_container,
       set_lru ((node, container_id, container_status, node_container)
                  :: lru_drop node container_id container_status (lru s)) s)
  | None =>
      (node_connection node;;
       node_container <- docker node (InspectContainer container_id)
                           (fun h => inspect_resp w h node container_id);;
       fun s' =>
         (Ok node_container,
          set_lru (take lru_cache_size
                     ((node, container_id, container_status, node_container)
                        :: lru s')) s')) s
  end.

(** The body of the [for container in node_containers] loop. *)
Definition inventory_step (node : string) (node_instances : list Instance)
    (container : Container) : M (list Instance) :=
  container_status <- lift (coarse_status (c_Status container));;
  if negb (Py.startswith "Up " (c_Status container)) then
    node_container <- _get_lru_instance_details node (c_Id container) container_status;;
    let formatted_exit_time := i_FinishedAt node_container in
    exit_time <- lift
      match Datetime.strptime
              (hd "" (Py.split "." (Py.rstrip "Z" formatted_exit_time))) with
      | Some t => Ok t
      | None => Raise ValueError
      end;;
    if String.eqb formatted_exit_time zero_exit_time then
      logging (WarnZeroExitTime (c_Id container) node);;
      command node (Start (c_Id container) None);;
      command node (Kill (c_Id container));;
      logging (WarnExitTimeReset (c_Id container));;
      ret node_instances
    else
      now <- datetime_now;;
      if now - exit_time >? docker_gc_grace_period (config self) * 1000000 then
        logging (WarnWillRecycle (c_Id container) node formatted_exit_time);;
        command node (RemoveContainer (c_Id container) false);;
        logging (WarnRemoved (c_Id container) node);;
        ret node_instances
      else ret node_instances
  else
    match c_Ports container with
    | [private_port] =>
        if private_port =? 8080 then
          node_container <- _get_lru_instance_details node (c_Id container) container_status;;
          instance <- lift (__get_instance node node_container);;
          ret (node_instances ++ [instance])
        else ret node_instances
    | _ => ret node_instances
    end.

Fixpoint inventory_loop (node : string) (node_containers : list Container)
    (node_instances : list Instance) : M (list Instance) :=
  match node_containers with
  | [] => ret node_instances
  | container :: rest =>
      node_instances <- inventory_step node node_instances container;;
      inventory_loop node rest node_instances
  end.

Definition get_node_instances (node : string) : M (list Instance) :=
  node_connection node;;
  node_containers <- docker node Containers (fun h => containers_resp w h node);;
  inventory_loop node node_containers [].

(** [if node_filter and node != node_filter: continue] *)
Definition filtered_out (node_filter : option string) (node : string) : bool :=
  match node_filter with
  | None => false
  | Some f => negb (String.eqb f "") && negb (String.eqb node f)
  end.

(** The loop over [futures.as_completed]: the workers of the pool are
    taken one after the other, in the order in which they finish; a
    worker that raised is reported and adds nothing. *)
Fixpoint collect (nodes : list string) (instances : list Instance)
    : M (list Instance) :=
  match nodes with
  | [] => ret instances
  | node :: rest =>
      instances <- try_except
        (result <- get_node_instances node;; ret (instances ++ result))
        (fun e => logging (ErrorGettingInstances node e);; ret instances);;
      collect rest instances
  end.

Definition get_instances (node_filter : option string) : M (list Instance) :=
  let filtered_nodes :=
    List.filter (fun node => negb (filtered_out node_filter node))
      (node_connections self) in
  collect (as_completed w filtered_nodes) [].

Definition get_node (name : string) : M NodeDetails :=
  if negb (existsb (String.eqb name) (node_connections self)) then
    logging (ErrorNotConfigured name);;
    raise NoSuchNodeException
  else
    try_except
      (command name Ping;;
       instances <- get_instances (Some name);;
       let countainer_count := sum_slots instances in
       ret {| nd_id := name;
              nd_total := slots_per_node (config self);
              nd_used := countainer_count;
              nd_free := slots_per_node (config self) - countainer_count;
              nd_state := inl "healthy" |})
      (fun e =>
         match e with
         | ConnectionError | Timeout =>
             logging (ErrorCommunication name e);;
             ret {| nd_id := name; nd_total := 0; nd_used := 0; nd_free := 0;
                    nd_state := inr e |}
         | _ => raise e
         end).

(** [environment[key] = value] on the dictionary at [address] *)
Definition setitem (address : nat) (key value : string) : M unit := fun s =>
  (Ok tt, set_environment address (<[key := value]> (environments s address)) s).

Definition start_instance (app slug_uri node : string) (allocated_port : option Z)
    (environment : option nat) (slots : option Z) (hostname : option string)
    : M Instance :=
  let environment := default default_environment environment in
  setitem environment "PORT" "8080";;
  setitem environment "SLUG_URL" slug_uri;;
  let slots := requested_slots self slots in
  instances <- get_instances (Some node);;
  if Z.of_nat (length instances) + slots >? slots_per_node (config self) then
    raise NodeOutOfCapacityException
  else
    node_connection node;;
    name <- fresh_uuid;;
    container_id <- (fun s =>
      let args :=
        {| ca_image := slug_runner_image (config self);
           ca_command := slug_runner_command (config self);
           ca_ports := [8080];
           ca_environment := environments s environment;
           ca_detach := true;
           ca_hostname := hostname;
           ca_name := app +:+ "_" +:+ name;
           ca_cpu_shares := slots;
           ca_mem_limit := slot_memory_mb (config self) * slots * 1024 * 1024 |} in
      docker node (CreateContainer args) (fun h => create_resp w h node args) s);;
    command node (Start container_id (Some [(8080, None)]));;
    container_inspected <- docker node (InspectContainer container_id)
                             (fun h => inspect_resp w h node container_id);;
    lift (__get_instance node container_inspected).

Fixpoint stop_loop (instance_id : string) (instances : list Instance) : M bool :=
  match instances with
  | [] => ret false
  | instance :: rest =>
      if String.eqb (inst_id instance) instance_id then
        let docker_hostname := inst_node instance in
        let docker_container_id := instance_id in
        node_connection docker_hostname;;
        command docker_hostname (Stop docker_container_id);;
        try_except
          (node_connection docker_hostname;;
           command docker_hostname (RemoveContainer docker_container_id true))
          (fun _ => logging (WarnFailedToRemove docker_container_id docker_hostname));;
        ret true
      else stop_loop instance_id rest
  end.

Definition stop_instance (instance_id : string) : M bool :=
  instances <- get_instances None;;
  stop_loop instance_id instances.

(** The records the generator returned by [get_logs] yields. *)
Definition get_logs (instance_id : string) (follow : bool) : M (list LogRecord) :=
  instances <- get_instances None;;
  match List.filter (fun i => String.eqb (inst_id i) instance_id) instances with
  | [] => raise NoSuchInstanceException
  | instance_details :: _ =>
      let node := inst_node instance_details in
      node_connection node;;
      if follow then
        chunks <- docker node (Logs instance_id true)
                    (fun h => logs_stream_resp w h node instance_id);;
        ret (map (fun l => {| msg := l |})
               (__hacked_multiplexed_socket_stream_helper chunks))
      else
        blob <- docker node (Logs instance_id false)
                  (fun h => logs_resp w h node instance_id);;
        ret (map (fun l => {| msg := l +:+ nl |}) (Py.split LF blob))
  end.

End Connection.

(** ** The status of the fleet: [get_nodes] *)

Section Fleet.

Variable w : World.
Variable self : Connection.

(** The loop over [futures.as_completed] in [get_nodes]: one [get_node]
    per worker; a worker that raised is reported and adds nothing. *)
Fixpoint collect_nodes (names : list string) (nodes : list NodeDetails)
    : M (list NodeDetails) :=
  match names with
  | [] => ret nodes
  | node :: rest =>
      nodes <- try_except
        (details <- get_node w self node;; ret (nodes ++ [details]))
        (fun e => logging (ErrorGettingDetails node e);; ret nodes);;
      collect_nodes rest nodes
  end.

Definition get_nodes : M (list NodeDetails) :=
  collect_nodes (as_completed w (node_connections self)) [].

End Fleet.

(** ** captain/hmrc_model.py: the earlier [Instance] *)

Module Hmrc.

(** The fields of an inspection that [Instance.__init__] reads;
    [d_PortBindings] is [HostConfig.PortBindings]. *)
Record Details := {
  d_Name : string;
  d_Running : bool;
  d_PortBindings : option (gmap string (option (list (gmap string string)))) }.

(** What the constructor can raise: the errors of the lookups and of
    [int], or the [socket.gaierror] of the name resolution. *)
Inductive failure :=
  | Lookup (e : exn)
  | gaierror.

Record Instance := {
  id : string;
  app : string;
  version : option string;
  node : string;
  running : bool;
  ip : string;
  port : Z }.

(** [app, version = name[1:].split("_", 1)], and the whole of [name[1:]]
    with no version when the unpacking raises [ValueError]. *)
Definition name_parts (name : string) : string * option string :=
  match Py.split1 "_" (Py.tail name) with
  | Some (a, v) => (a, Some v)
  | None => (Py.tail name, None)
  end.

(** [int(details["HostConfig"]["PortBindings"]["8080/tcp"][0]["HostPort"])] *)
Definition bound_port (details : Details) : result Z :=
  match d_PortBindings details with
  | None => Raise TypeError
  | Some bindings =>
      match bindings !! "8080/tcp" with
      | None => Raise KeyError
      | Some None => Raise TypeError
      | Some (Some []) => Raise IndexError
      | Some (Some (binding :: _)) =>
          match binding !! "HostPort" with
          | None => Raise KeyError
          | Some p =>
              match Py.int p with
              | None => Raise ValueError
              | Some n => Ok n
              end
          end
      end
  end.

(** [Instance(container_id, inspection_details, node)];
    [gethostbyname] is [socket.gethostbyname], [None] for a name that
    does not resolve. *)
Definition init (gethostbyname : string -> option string)
    (container_id : string) (inspection_details : Details) (node : string)
    : Instance + failure :=
  let '(a, v) := name_parts (d_Name inspection_details) in
  match gethostbyname node with
  | None => inr gaierror
  | Some address =>
      match bound_port inspection_details with
      | Raise e => inr (Lookup e)
      | Ok p =>
          inl {| id := container_id;
                 app := a;
                 version := v;
                 node := node;
                 running := d_Running inspection_details;
                 ip := address;
                 port := p |}
      end
  end.

End Hmrc.

(** ** Scenarios

    Small fleets in the style of the mocks of the test suite. *)

Module Scenario.

Definition binding (host_port : string) : gmap string string :=
  {[ "HostIp" := "0.0.0.0"; "HostPort" := host_port ]}.

Definition inspection (id name slug host_port finished_at : string) (cpu_shares : Z)
    : Inspection :=
  {| i_Id := id;
     i_Name := name;
     i_Env := ["JAVA_OPTS=-Xmx256m -Xms256m"; "SLUG_URL=" +:+ slug; "PORT=8080";
               "HOME=/"; "PATH=/usr/local/sbin:/usr/local/bin"];
     i_CpuShares := cpu_shares;
     i_Ports := Some {[ "8080/tcp" := Some [binding host_port] ]};
     i_FinishedAt := finished_at |}.

Definition test_config : Config :=
  {| docker_gc_grace_period := 86400;
     slots_per_node := 10;
     default_slots_per_instance := 2;
     slot_memory_mb := 128;
     slug_runner_image := "runner/image";
     slug_runner_command := "runner command" |}.

Definition two_nodes : Connection :=
  {| config := test_config; node_connections := ["node-1"; "node-2"] |}.

(** 2014-08-22T08:49:57, the time at which the scenarios run *)
Definition clock : Z := 63544294197000000.

(** A fleet whose daemons always give the same answers: [listing] and
    [inspect] per node, [fails] for the commands that raise, [blob] for
    the logs.  Created containers get the id [created]. *)
Definition fleet (listing : string -> result (list Container))
    (inspect : string -> string -> result Inspection)
    (fails : string -> call -> option exn)
    (created : string) (blob : string) (frames : list string)
    (now offset : Z) : World :=
  {| containers_resp := fun _ node => listing node;
     inspect_resp := fun _ node id => inspect node id;
     create_resp := fun _ _ _ => Ok created;
     command_resp := fun _ node c => fails node c;
     logs_resp := fun _ _ _ => Ok blob;
     logs_stream_resp := fun _ _ _ => Ok frames;
     utcnow := fun _ => now;
     utcoffset := offset;
     uuid4 := fun _ => "SOME-UUID";
     as_completed := fun nodes => nodes;
     as_completed_all := fun nodes => Permutation_refl nodes |}.

Definition up (id status : string) : Container :=
  {| c_Id := id; c_Status := status; c_Ports := [8080] |}.
Definition exited (id status : string) : Container :=
  {| c_Id := id; c_Status := status; c_Ports := [] |}.

(** node-1 runs one instance holding [shares] slots. *)
Definition one_instance (shares : Z) : World :=
  fleet
    (fun node =>
       if String.eqb node "node-1" then Ok [up "eba8bea2600029" "Up 56 minutes"]
       else Ok [])
    (fun node id =>
       if String.eqb id "eba8bea2600029"
       then Ok (inspection id "/paye_216" "https://host/paye_216.tgz" "9317"
                  zero_exit_time shares)
       else if String.eqb id "0a1b2c3d4e5f60"
       then Ok (inspection id "/paye_SOME-UUID" "https://host/paye_217.tgz" "9400"
                  zero_exit_time 6)
       else Raise APIError)
    (fun _ _ => None) "0a1b2c3d4e5f60" "" [] clock 0.

(** The fleet of the test suite: two instances and a container that
    exited two days ago on node-1, one instance on node-2. *)
Definition two_node_listing (node : string) : result (list Container) :=
  if String.eqb node "node-1" then
    Ok [up "656ca7c307d178" "Up 40 minutes"; up "eba8bea2600029" "Up 56 minutes";
        exited "381587e2978216" "Exited (0) 2 days ago"]
  else if String.eqb node "node-2" then Ok [up "80be2a9e62ba00" "Up 19 minutes"]
  else Raise ConnectionError.

Definition two_node_inspect (node id : string) : result Inspection :=
  if String.eqb id "656ca7c307d178" then
    Ok (inspection id "/ers-checking-frontend-27"
          "https://host/ers-checking-frontend_27.tgz" "9225" zero_exit_time 2)
  else if String.eqb id "eba8bea2600029" then
    Ok (inspection id "/paye_216" "https://host/paye_216.tgz" "9317" zero_exit_time 2)
  else if String.eqb id "80be2a9e62ba00" then
    Ok (inspection id "/paye_216" "https://host/paye_216.tgz" "9317" zero_exit_time 2)
  else if String.eqb id "381587e2978216" then
    Ok (inspection id "/paye_215" "https://host/paye_215.tgz" "9100"
          "2014-08-20T08:49:57.80805632Z" 2)
  else Raise APIError.

Definition two_lines : string :=
  "this is line 1" +:+ nl +:+ "this is line 2" +:+ nl.

Definition two_node_fleet (fails : string -> call -> option exn) : World :=
  fleet two_node_listing two_node_inspect fails "eba8bea2600029" two_lines [] clock 0.

Definition nothing_fails (node : string) (c : call) : option exn := None.

(** The instance of node-2, as the inventory shows it. *)
Definition one_of_node_2 : Instance :=
  {| inst_id := "80be2a9e62ba00";
     inst_app := "paye";
     inst_slug_uri := Some "https://host/paye_216.tgz";
     inst_node := "node-2";
     inst_port := 9317;
     inst_environment := {[ "JAVA_OPTS" := "-Xmx256m -Xms256m" ]};
     inst_slots := 2 |}.

(** node-1 lists a container that exited with the zero exit time,
    followed by a running instance. *)
Definition zero_time_fleet (fails : string -> call -> option exn) : World :=
  fleet
    (fun node =>
       if String.eqb node "node-1" then
         Ok [exited "381587e2978216" "Exited (0) 2 days ago";
             up "eba8bea2600029" "Up 56 minutes"]
       else Ok [])
    (fun node id =>
       if String.eqb id "381587e2978216" then
         Ok (inspection id "/paye_215" "https://host/paye_215.tgz" "9100"
               zero_exit_time 2)
       else two_node_inspect node id)
    fails "eba8bea2600029" "" [] clock 0.

Definition start_fails (node : string) (c : call) : option exn :=
  match c with
  | Start _ _ => Some APIError
  | _ => None
  end.

(** node-1 lists a container that exited one day and one second before
    [clock]; the host clock is [offset] away from UTC. *)
Definition day_old_fleet (offset : Z) : World :=
  fleet
    (fun node =>
       if String.eqb node "node-1" then
         Ok [exited "381587e2978216" "Exited (0) 24 hours ago"]
       else Ok [])
    (fun node id =>
       Ok (inspection id "/paye_215" "https://host/paye_215.tgz" "9100"
             "2014-08-21T08:49:56.80805632Z" 2))
    nothing_fails "eba8bea2600029" "" [] clock offset.

(** Five hours west of Greenwich, in microseconds. *)
Definition new_york : Z := -18000000000.

(** The first instance of node-1 has lost its port binding. *)
Definition unbound : Inspection :=
  {| i_Id := "656ca7c307d178";
     i_Name := "/ers-checking-frontend_27";
     i_Env := ["SLUG_URL=https://host/ers-checking-frontend_27.tgz"];
     i_CpuShares := 2;
     i_Ports := Some {[ "8080/tcp" := None ]};
     i_FinishedAt := zero_exit_time |}.

Definition unbound_fleet : World :=
  fleet
    (fun node =>
       if String.eqb node "node-1" then
         Ok [up "656ca7c307d178" "Up 40 minutes"; up "eba8bea2600029" "Up 56 minutes"]
       else Ok [])
    (fun node id =>
       if String.eqb id "656ca7c307d178" then Ok unbound else two_node_inspect node id)
    nothing_fails "eba8bea2600029" "" [] clock 0.

(** The arguments of the most recent [create_container] in a call log. *)
Fixpoint last_created (h : list event) (found : option CreateArgs) : option CreateArgs :=
  match h with
  | [] => found
  | (_, CreateContainer args) :: rest => last_created rest (Some args)
  | _ :: rest => last_created rest found
  end.

(** An empty fleet whose daemons report a created container under the
    name, environment and shares it was created with. *)
Definition echo : World :=
  {| containers_resp := fun _ _ => Ok [];
     inspect_resp := fun h _ id =>
       match last_created h None with
       | Some args =>
           Ok (inspection id ("/" +:+ ca_name args)
                 (default "" (ca_environment args !! "SLUG_URL")) "9317"
                 zero_exit_time (ca_cpu_shares args))
       | None => Raise APIError
       end;
     create_resp := fun _ _ _ => Ok "0a1b2c3d4e5f60";
     command_resp := fun _ _ _ => None;
     logs_resp := fun _ _ _ => Ok "";
     logs_stream_resp := fun _ _ _ => Ok [];
     utcnow := fun _ => clock;
     utcoffset := 0;
     uuid4 := fun _ => "6f1c2a34-9d0e-4b7a-8c55-0123456789ab";
     as_completed := fun nodes => nodes;
     as_completed_all := fun nodes => Permutation_refl nodes |}.

(** The four bytes of [n], most significant first. *)
Definition be32 (n : Z) : string :=
  String (ascii_of_nat (Z.to_nat (n / 16777216 mod 256)))
    (String (ascii_of_nat (Z.to_nat (n / 65536 mod 256)))
       (String (ascii_of_nat (Z.to_nat (n / 256 mod 256)))
          (String (ascii_of_nat (Z.to_nat (n mod 256))) EmptyString))).

Definition zero_byte : string := String (ascii_of_nat 0) EmptyString.

(** A frame of the multiplexed stream on stdout: the stream kind, three
    bytes of padding, the length of the payload, the payload. *)
Definition frame (payload : string) : string :=
  String (ascii_of_nat 1) (zero_byte +:+ zero_byte +:+ zero_byte)
    +:+ be32 (Py.len payload) +:+ payload.

Fixpoint frames (payloads : list string) : string :=
  match payloads with
  | [] => EmptyString
  | p :: ps => frame p +:+ frames ps
  end.

Definition ten_letters : list string :=
  ["a"; "b"; "c"; "d"; "e"; "f"; "g"; "h"; "i"; "j"].

End Scenario.

(** ** Vocabulary of the statements *)

(** The calls an inventory pass can make: listing, inspection, the
    start and kill of the exit-time repair, and the unforced removal of
    the collector. *)
Definition inventory_call (e : event) : bool :=
  match snd e with
  | Containers | InspectContainer _ | Start _ None | Kill _
  | RemoveContainer _ false => true
  | _ => false
  end.

(** [m] leaves the [environment] dictionaries alone and adds to the call
    log only calls that satisfy [P]. *)
Definition within {A} (P : event -> bool) (m : M A) : Prop :=
  forall s,
    environments (snd (m s)) = environments s /\
    exists l, calls (snd (m s)) = calls s ++ l /\ forallb P l = true.

Definition any_call (e : event) : bool := true.

(** The method of the docker client behind a call. *)
Definition method (c : call) : string :=
  match c with
  | Containers => "containers"
  | InspectContainer _ => "inspect_container"
  | CreateContainer _ => "create_container"
  | Start _ _ => "start"
  | Kill _ => "kill"
  | Stop _ => "stop"
  | RemoveContainer _ _ => "remove_container"
  | Logs _ _ => "logs"
  | Ping => "ping"
  end.

Definition methods (h : list event) : list (string * string) :=
  map (fun e => (fst e, method (snd e))) h.

(** The state once [start_instance] has written the two reserved entries
    into the dictionary at [address]. *)
Definition reserved_written (address : nat) (slug_uri : string) (s : State) : State :=
  set_environment address
    (<["SLUG_URL" := slug_uri]> (<["PORT" := "8080"]> (environments s address)))
    (set_environment address (<["PORT" := "8080"]> (environments s address)) s).

(** The instance is on a node the connection has a client for. *)
Definition configured (self : Connection) (i : Instance) : Prop :=
  existsb (String.eqb (inst_node i)) (node_connections self) = true.

(** The host port string of an inspection record, when every step of
    [NetworkSettings.Ports["8080/tcp"][0]["HostPort"]] is there. *)
Definition port_binding (container : Inspection) : option string :=
  ports ← i_Ports container;
  bindings ← ports !! "8080/tcp";
  l ← bindings;
  b ← head l;
  b !! "HostPort".

Definition port_error (e : exn) : Prop :=
  e = KeyError \/ e = TypeError \/ e = IndexError \/ e = ValueError.

Fixpoint contains (c : ascii) (s : string) : bool :=
  match s with
  | EmptyString => false
  | String c' s' => Ascii.eqb c' c || contains c s'
  end.

(** The daemon keeps a created container under the name it was given,
    with a leading slash: that is the name the inspection that follows
    creation and start reports. *)
Definition names_as_created (w : World) : Prop :=
  forall h node args id container,
    create_resp w h node args = Ok id ->
    inspect_resp w
      (h ++ [(node, CreateContainer args); (node, Start id (Some [(8080, None)]))])
      node id = Ok container ->
    i_Name container = "/" +:+ ca_name args.

(** The bytes of a sequence of chunks, end to end. *)
Definition join (chunks : list string) : string :=
  fold_right String.append "" chunks.

(** Number of occurrences of a character. *)
Fixpoint count_char (c : ascii) (s : string) : nat :=
  match s with
  | EmptyString => O
  | String c' s' => (if Ascii.eqb c' c then 1 else 0) + count_char c s'
  end.

(** *** Vocabulary of the further properties *)

(** The keys of the entries of the cache. *)
Definition cache_keys (cache : list (string * string * string * Inspection))
    : list (string * string * string) :=
  map fst cache.

(** The cache holds no more than its size and no key twice. *)
Definition lru_ok (s : State) : Prop :=
  (length (lru s) <= lru_cache_size)%nat /\ NoDup (cache_keys (lru s)).

(** The container is one the inventory returns: running, with the port
    8080 and no other. *)
Definition selected (c : Container) : bool :=
  Py.startswith "Up " (c_Status c)
  && match c_Ports c with
     | [private_port] => private_port =? 8080
     | _ => false
     end.

(** The container is one the inventory asks the details of. *)
Definition inspected (c : Container) : bool :=
  negb (Py.startswith "Up " (c_Status c)) || selected c.

(** The key under which the details of a container are cached. *)
Definition key_of (node : string) (c : Container) : string * string * string :=
  (node, c_Id c,
   match coarse_status (c_Status c) with
   | Ok status => status
   | Raise _ => EmptyString
   end).

Definition is_inspect (e : event) : bool :=
  match snd e with
  | InspectContainer _ => true
  | _ => false
  end.

Definition no_inspect (e : event) : bool := negb (is_inspect e).

(** A call of an inventory on the client of [node]. *)
Definition inventory_call_on (node : string) (e : event) : bool :=
  String.eqb (fst e) node && inventory_call e.

(** [k=v], an entry of [Config.Env]. *)
Definition env_item (kv : string * string) : string :=
  fst kv +:+ "=" +:+ snd kv.

Definition reserved (k : string) : bool :=
  existsb (String.eqb k) reserved_keys.

(** The calls that launch a container, as [start_instance] makes them. *)
Definition launch (node : string) (args : CreateArgs) (id : string) : list event :=
  [(node, CreateContainer args);
   (node, Start id (Some [(8080, None)]));
   (node, InspectContainer id)].

(** The bytes the yielded payloads account for, headers included. *)
Fixpoint framed_size (payloads : list string) : Z :=
  match payloads with
  | [] => 0
  | p :: ps => 8 + Py.len p + framed_size ps
  end.


(** Every run of [m] takes a state to one that [R] relates to it. *)
Definition respects (R : State -> State -> Prop) {A} (m : M A) : Prop :=
  forall s, R s (snd (m s)).

(** The cache is left as it is and the calls added all satisfy [P]. *)
Definition frame (P : event -> bool) (s s' : State) : Prop :=
  lru s' = lru s /\ exists l, calls s' = calls s ++ l /\ forallb P l = true.

(** The calls of a pass on [node] once the details are there: the
    repair and the removal, on that node. *)
Definition after_details (node : string) (e : event) : bool :=
  inventory_call_on node e && no_inspect e.

(** The calls added all satisfy [P]. *)
Definition adds (P : event -> bool) (s s' : State) : Prop :=
  exists l, calls s' = calls s ++ l /\ forallb P l = true.

(** A cache that was in order still is. *)
Definition keeps_cache (s s' : State) : Prop := lru_ok s -> lru_ok s'.

(** No key has left the cache. *)
Definition keeps_keys (s s' : State) : Prop :=
  forall k, In k (cache_keys (lru s)) -> In k (cache_keys (lru s')).

(** A call of an inventory on the client of a configured node that the
    filter lets through. *)
Definition inventory_call_under (self : Connection) (node_filter : option string)
    (e : event) : bool :=
  inventory_call e
  && existsb (String.eqb (fst e)) (node_connections self)
  && negb (filtered_out node_filter (fst e)).
(** What [get_node] answers for a node that cannot be reached. *)
Definition unreachable (name : string) (e : exn) : NodeDetails :=
  {| nd_id := name; nd_total := 0; nd_used := 0; nd_free := 0; nd_state := inr e |}.

(** What [get_node] answers for a node that holds [used] slots. *)
Definition healthy (self : Connection) (name : string) (used : Z) : NodeDetails :=
  {| nd_id := name;
     nd_total := slots_per_node (config self);
     nd_used := used;
     nd_free := slots_per_node (config self) - used;
     nd_state := inl "healthy" |}.

(** The errors of the transport, which [get_node] turns into a state. *)
Definition transport_error (e : exn) : bool :=
  match e with
  | ConnectionError | Timeout => true
  | _ => false
  end.

Definition pinged (name : string) (s : State) : State :=
  set_calls (fun l => l ++ [(name, Ping)]) s.
(** The keyword arguments [start_instance] gives to [create_container]:
    [name] is the uuid drawn for the container, [environment] the
    dictionary of the caller as it is at that moment. *)
Definition create_args (self : Connection) (app name : string)
    (environment : gmap string string) (slots : Z) (hostname : option string)
    : CreateArgs :=
  {| ca_image := slug_runner_image (config self);
     ca_command := slug_runner_command (config self);
     ca_ports := [8080];
     ca_environment := environment;
     ca_detach := true;
     ca_hostname := hostname;
     ca_name := app +:+ "_" +:+ name;
     ca_cpu_shares := slots;
     ca_mem_limit := slot_memory_mb (config self) * slots * 1024 * 1024 |}.

(** The dictionaries and the count of uuids drawn are as they were. *)
Definition quiet (s s' : State) : Prop :=
  environments s' = environments s /\ uuids s' = uuids s.
(** The values that a list of pairs gives to the key [k], in order. *)
Definition values_of (k : string) (kvs : list (string * string)) : list string :=
  map snd (List.filter (fun kv => String.eqb (fst kv) k) kvs).
(** *** Further scenarios *)

Module Cases.

(** The ping of node-2 times out; nothing else fails. *)
Definition ping_times_out (node : string) (c : call) : option exn :=
  match c with
  | Ping => if String.eqb node "node-2" then Some Timeout else None
  | _ => None
  end.

(** A connection with a third node, whose daemon the fleet of the
    tests does not let answer a listing. *)
Definition three_nodes : Connection :=
  {| config := Scenario.test_config;
     node_connections := ["node-1"; "node-2"; "node-3"] |}.

Definition paye_216 : Inspection :=
  Scenario.inspection "eba8bea2600029" "/paye_216" "https://host/paye_216.tgz" "9317"
    zero_exit_time 2.

(** The environment of the containers of the scenarios, as pairs. *)
Definition paye_216_env : list (string * string) :=
  [("JAVA_OPTS", "-Xmx256m -Xms256m"); ("SLUG_URL", "https://host/paye_216.tgz");
   ("PORT", "8080"); ("HOME", "/"); ("PATH", "/usr/local/sbin:/usr/local/bin")].

(** The fleet of the tests, the log stream of whose instances is one
    frame, delivered in pieces of ten bytes. *)
Definition one_frame_fleet (payload : string) : World :=
  Scenario.fleet Scenario.two_node_listing Scenario.two_node_inspect
    Scenario.nothing_fails "eba8bea2600029" ""
    (iter_content 10 (Scenario.frame payload)) Scenario.clock 0.

(** An inspection as [hmrc_model.Instance] reads it. *)
Definition paye_details : Hmrc.Details :=
  {| Hmrc.d_Name := "/paye_216_b";
     Hmrc.d_Running := true;
     Hmrc.d_PortBindings := Some {[ "8080/tcp" := Some [Scenario.binding "9317"] ]} |}.

End Cases.

(** * Properties *)

(** ** The monad *)

Lemma bind_ok {A B} (m : M A) (k : A -> M B) s a s' :
  m s = (Ok a, s') -> bind m k s = k a s'.
Proof. unfold bind. intros ->. reflexivity. Qed.

Lemma bind_raise {A B} (m : M A) (k : A -> M B) s e s' :
  m s = (Raise e, s') -> bind m k s = (Raise e, s').
Proof. unfold bind. intros ->. reflexivity. Qed.

Lemma bind_assoc {A B C} (m : M A) (k : A -> M B) (k' : B -> M C) s :
  bind (bind m k) k' s = bind m (fun a => bind (k a) k') s.
Proof. unfold bind. destruct (m s) as [[a|e] s1]; reflexivity. Qed.

Lemma forallb_mono (P Q : event -> bool) l :
  (forall e, P e = true -> Q e = true) -> forallb P l = true -> forallb Q l = true.
Proof.
  intros HPQ. induction l as [|e l IH]; simpl; [easy|].
  intros [He Hl]%andb_prop. rewrite (HPQ _ He), (IH Hl). reflexivity.
Qed.

Lemma within_mono {A} (P Q : event -> bool) (m : M A) :
  (forall e, P e = true -> Q e = true) -> within P m -> within Q m.
Proof.
  intros HPQ Hm s. destruct (Hm s) as (He & l & Hc & Hl).
  split; [exact He|]. exists l. split; [exact Hc|]. eapply forallb_mono; eauto.
Qed.

Lemma within_ret {A} P (a : A) : within P (ret a).
Proof. intros s. simpl. split; [reflexivity|]. exists []. rewrite app_nil_r. auto. Qed.

Lemma within_raise {A} P e : within P (@raise A e).
Proof. intros s. simpl. split; [reflexivity|]. exists []. rewrite app_nil_r. auto. Qed.

Lemma within_lift {A} P (r : result A) : within P (lift r).
Proof. intros s. simpl. split; [reflexivity|]. exists []. rewrite app_nil_r. auto. Qed.

Lemma within_logging P m : within P (logging m).
Proof. intros s. simpl. split; [reflexivity|]. exists []. rewrite app_nil_r. auto. Qed.

Lemma within_bind {A B} P (m : M A) (k : A -> M B) :
  within P m -> (forall a, within P (k a)) -> within P (bind m k).
Proof.
  intros Hm Hk s. unfold bind. destruct (Hm s) as (He & l & Hc & Hl).
  destruct (m s) as [[a|e] s1]; simpl in *.
  - destruct (Hk a s1) as (He' & l' & Hc' & Hl').
    split; [congruence|]. exists (l ++ l'). rewrite Hc', Hc, app_assoc.
    split; [reflexivity|]. rewrite forallb_app, Hl, Hl'. reflexivity.
  - split; [exact He|]. exists l. auto.
Qed.

Lemma within_try {A} P (m : M A) (h : exn -> M A) :
  within P m -> (forall e, within P (h e)) -> within P (try_except m h).
Proof.
  intros Hm Hh s. unfold try_except. destruct (Hm s) as (He & l & Hc & Hl).
  destruct (m s) as [[a|e] s1]; simpl in *.
  - split; [exact He|]. exists l. auto.
  - destruct (Hh e s1) as (He' & l' & Hc' & Hl').
    split; [congruence|]. exists (l ++ l'). rewrite Hc', Hc, app_assoc.
    split; [reflexivity|]. rewrite forallb_app, Hl, Hl'. reflexivity.
Qed.

Lemma within_docker {A} (P : event -> bool) node c (resp : list event -> result A) :
  P (node, c) = true -> within P (docker node c resp).
Proof.
  intros HP s. simpl. split; [reflexivity|]. exists [(node, c)].
  split; [reflexivity|]. simpl. rewrite HP. reflexivity.
Qed.

Lemma within_command w (P : event -> bool) node c :
  P (node, c) = true -> within P (command w node c).
Proof. apply within_docker. Qed.

Lemma within_node_connection self P node : within P (node_connection self node).
Proof.
  unfold node_connection. destruct (existsb _ _); [apply within_ret | apply within_raise].
Qed.

(** Takes a computation apart along its [bind]s and closes the leaves
    that are primitive. *)
Ltac within_steps :=
  repeat first
    [ apply within_ret | apply within_raise | apply within_lift
    | apply within_logging | apply within_node_connection
    | apply within_command; reflexivity
    | apply within_docker; reflexivity
    | apply within_bind; [|intros ?] ].

(** ** What an inventory pass may do *)

Section Inventory.

Variable w : World.
Variable self : Connection.

Lemma within_details node id status :
  within inventory_call (_get_lru_instance_details w self node id status).
Proof.
  intros s. unfold _get_lru_instance_details.
  destruct (lru_find node id status (lru s)) as [c|].
  - simpl. split; [reflexivity|]. exists []. rewrite app_nil_r. auto.
  - revert s. apply within_bind; [apply within_node_connection|]. intros _.
    apply within_bind; [apply within_docker; reflexivity|]. intros c s.
    simpl. split; [reflexivity|]. exists []. rewrite app_nil_r. auto.
Qed.

Lemma within_datetime_now P : within P (datetime_now w).
Proof. intros s. simpl. split; [reflexivity|]. exists []. rewrite app_nil_r. auto. Qed.

Lemma within_step node acc c :
  within inventory_call (inventory_step w self node acc c).
Proof.
  unfold inventory_step. within_steps.
  destruct (negb _).
  - within_steps; [apply within_details|]. within_steps.
    destruct (String.eqb _ _); within_steps; [apply within_datetime_now|].
    destruct (_ >? _); within_steps.
  - destruct (c_Ports c) as [|p [|q ps]]; within_steps.
    destruct (p =? 8080); within_steps. apply within_details.
Qed.

Lemma within_loop node cs : forall acc,
  within inventory_call (inventory_loop w self node cs acc).
Proof.
  induction cs as [|c cs IH]; intros acc; simpl; [apply within_ret|].
  apply within_bind; [apply within_step | intros a; apply IH].
Qed.

Lemma within_get_node_instances node :
  within inventory_call (get_node_instances w self node).
Proof.
  unfold get_node_instances.
  apply within_bind; [apply within_node_connection|]. intros _.
  apply within_bind; [apply within_docker; reflexivity|]. intros cs.
  apply within_loop.
Qed.

Lemma within_collect nodes : forall acc,
  within inventory_call (collect w self nodes acc).
Proof.
  induction nodes as [|n nodes IH]; intros acc; simpl; [apply within_ret|].
  apply within_bind; [|intros a; apply IH].
  apply within_try.
  - apply within_bind; [apply within_get_node_instances|]. intros r. apply within_ret.
  - intros e. apply within_bind; [apply within_logging|]. intros _. apply within_ret.
Qed.

Lemma within_get_instances node_filter :
  within inventory_call (get_instances w self node_filter).
Proof. apply within_collect. Qed.

(** [get_instances] does not raise. *)
Lemma collect_returns nodes : forall acc s,
  exists instances, fst (collect w self nodes acc s) = Ok instances.
Proof.
  induction nodes as [|n nodes IH]; intros acc s; simpl; [eexists; reflexivity|].
  unfold bind at 1, try_except, bind at 1.
  destruct (get_node_instances w self n s) as [[r|e] s1]; simpl; apply IH.
Qed.

Lemma get_instances_returns node_filter s :
  exists instances s', get_instances w self node_filter s = (Ok instances, s').
Proof.
  destruct (collect_returns
              (as_completed w
                 (List.filter (fun node => negb (filtered_out node_filter node))
                    (node_connections self))) [] s) as [l Hl].
  unfold get_instances.
  destruct (collect _ _ _ _ s) as [r s'] eqn:E. simpl in Hl. subst r. eauto.
Qed.

Lemma get_instance_node node c i : __get_instance node c = Ok i -> inst_node i = node.
Proof.
  unfold __get_instance. destruct (read_env _ _ _) as [[env slug]|]; [|discriminate].
  destruct (host_port c); [|discriminate]. intros [= <-]. reflexivity.
Qed.

Lemma step_configured node acc c s r s' :
  existsb (String.eqb node) (node_connections self) = true ->
  Forall (configured self) acc ->
  inventory_step w self node acc c s = (Ok r, s') -> Forall (configured self) r.
Proof.
  intros Hn Hacc. unfold inventory_step, bind, lift, ret.
  destruct (coarse_status _); [|discriminate].
  destruct (negb _).
  - destruct (_get_lru_instance_details _ _ _ _ _ _) as [[rec|] s1]; [|discriminate].
    destruct (Datetime.strptime _); [|discriminate].
    destruct (String.eqb _ _).
    + unfold logging, command, docker.
      destruct (command_resp _ _ _ _); [discriminate|].
      destruct (command_resp _ _ _ _); [discriminate|].
      intros [= <- _]. exact Hacc.
    + unfold datetime_now. destruct (_ >? _).
      * unfold logging, command, docker.
        destruct (command_resp _ _ _ _); [discriminate|].
        intros [= <- _]. exact Hacc.
      * intros [= <- _]. exact Hacc.
  - destruct (c_Ports c) as [|p [|q ps]]; try (intros [= <- _]; exact Hacc).
    destruct (p =? 8080); [|intros [= <- _]; exact Hacc].
    destruct (_get_lru_instance_details _ _ _ _ _ _) as [[rec|] s1]; [|discriminate].
    destruct (__get_instance node rec) as [i|] eqn:Hi; [|discriminate].
    intros [= <- _]. apply Forall_app. split; [exact Hacc|].
    constructor; [|constructor]. unfold configured.
    rewrite (get_instance_node _ _ _ Hi). exact Hn.
Qed.

Lemma loop_configured node cs : forall acc s r s',
  existsb (String.eqb node) (node_connections self) = true ->
  Forall (configured self) acc ->
  inventory_loop w self node cs acc s = (Ok r, s') -> Forall (configured self) r.
Proof.
  induction cs as [|c cs IH]; intros acc s r s' Hn Hacc; simpl.
  - intros [= <- _]. exact Hacc.
  - unfold bind at 1.
    destruct (inventory_step w self node acc c s) as [[a|] s1] eqn:E; [|discriminate].
    apply IH; [exact Hn|]. eapply step_configured; eauto.
Qed.

Lemma get_node_instances_configured node s r s' :
  get_node_instances w self node s = (Ok r, s') -> Forall (configured self) r.
Proof.
  unfold get_node_instances, node_connection.
  destruct (existsb (String.eqb node) (node_connections self)) eqn:Hn;
    [|discriminate].
  unfold bind at 1, ret. unfold bind at 1, docker.
  destruct (containers_resp w (calls s) node); [|discriminate].
  apply loop_configured; [exact Hn|constructor].
Qed.

Lemma collect_configured nodes : forall acc s r s',
  Forall (configured self) acc ->
  collect w self nodes acc s = (Ok r, s') -> Forall (configured self) r.
Proof.
  induction nodes as [|n nodes IH]; intros acc s r s' Hacc; simpl.
  - intros [= <- _]. exact Hacc.
  - unfold bind at 1, try_except, bind at 1.
    destruct (get_node_instances w self n s) as [[l|e] s1] eqn:E; simpl.
    + apply IH. apply Forall_app. split; [exact Hacc|].
      eapply get_node_instances_configured; eauto.
    + apply IH. exact Hacc.
Qed.

Lemma get_instances_configured node_filter s r s' :
  get_instances w self node_filter s = (Ok r, s') -> Forall (configured self) r.
Proof. apply collect_configured. constructor. Qed.

(** The loop over a listing, split at one of its containers. *)
Lemma inventory_loop_app node pre c post : forall acc s,
  inventory_loop w self node (pre ++ c :: post) acc s =
  bind (inventory_loop w self node pre acc)
    (fun acc1 => bind (inventory_step w self node acc1 c)
       (fun acc2 => inventory_loop w self node post acc2)) s.
Proof.
  induction pre as [|p pre IH]; intros acc s; simpl; [reflexivity|].
  rewrite bind_assoc. unfold bind at 1. symmetry. unfold bind at 1. symmetry.
  destruct (inventory_step w self node acc p s) as [[a|e] s1]; [apply IH|reflexivity].
Qed.

End Inventory.

(** ** Strings *)

Lemma split_nonempty sep s : Py.split sep s <> [].
Proof.
  destruct s as [|c s]; simpl; [discriminate|].
  destruct (Ascii.eqb c sep); [discriminate|].
  destruct (Py.split sep s); discriminate.
Qed.

Lemma length_split sep s : length (Py.split sep s) = S (count_char sep s).
Proof.
  induction s as [|c s IH]; simpl; [reflexivity|].
  destruct (Ascii.eqb c sep); simpl; [rewrite IH; reflexivity|].
  destruct (Py.split sep s) as [|p ps] eqn:E; [destruct (split_nonempty _ _ E)|].
  simpl in *. exact IH.
Qed.

(** The first piece of a split only depends on what precedes the first
    separator. *)
Lemma hd_split_app sep a b :
  hd "" (Py.split sep (a +:+ String sep b)) = hd "" (Py.split sep a).
Proof.
  induction a as [|c a IH]; simpl.
  - rewrite Ascii.eqb_refl. reflexivity.
  - destruct (Ascii.eqb c sep); [reflexivity|].
    destruct (Py.split sep (a +:+ String sep b)) as [|p ps] eqn:E;
      [destruct (split_nonempty _ _ E)|].
    destruct (Py.split sep a) as [|q qs] eqn:E'; [destruct (split_nonempty _ _ E')|].
    simpl in *. congruence.
Qed.

Lemma split_without sep s : contains sep s = false -> Py.split sep s = [s].
Proof.
  induction s as [|c s IH]; simpl; [reflexivity|].
  intros [Hc Hs]%orb_false_elim. rewrite Hc, (IH Hs). reflexivity.
Qed.

(** ** Projection *)

Lemma read_env_raises items : forall env slug e,
  read_env items env slug = Raise e -> e = ValueError.
Proof.
  induction items as [|i items IH]; simpl; intros env slug e; [discriminate|].
  destruct (Py.split1 "=" i) as [[k v]|]; [apply IH|]. congruence.
Qed.

Lemma host_port_raises container e :
  host_port container = Raise e -> port_error e.
Proof.
  unfold host_port, port_error.
  destruct (i_Ports container) as [ports|]; [|intros [= <-]; auto].
  destruct (ports !! "8080/tcp") as [[[|b l]|]|]; try (intros [= <-]; auto).
  destruct (b !! "HostPort") as [p|]; [|intros [= <-]; auto].
  destruct (Py.int p); [discriminate|intros [= <-]; auto].
Qed.

Lemma get_instance_raises node container e :
  __get_instance node container = Raise e -> port_error e.
Proof.
  unfold __get_instance. destruct (read_env _ _ _) as [[env slug]|e'] eqn:E.
  - destruct (host_port container) eqn:Hp; [discriminate|].
    intros [= <-]. eapply host_port_raises; eauto.
  - intros [= <-]. rewrite (read_env_raises _ _ _ _ E). unfold port_error. auto.
Qed.

(** ** Admission (C1) *)

(** C1.  The property: [start_instance] refuses, with
    [NodeOutOfCapacityException] and without creating or starting
    anything, a request whose slots, added to the sum of the slots of
    the instances found by a fresh inventory of the node, exceed
    [slots_per_node].  The code does not have it.  On a node whose only
    instance holds 5 of the 10 slots, a request for 6 slots exceeds the
    capacity (5 + 6 > 10), yet [start_instance] admits it: it adds the
    request to the number of instances, 1 + 6, and goes on to create and
    start the container.  [get_node] reports 5 used slots on the same
    fleet.  (The calls of the inventory itself, which may start and kill
    a container in repair, are not what the property is about.) *)
Theorem start_instance_counts_instances :
  let w := Scenario.one_instance 5 in
  let self := Scenario.two_nodes in
  let run :=
    start_instance w self "paye" "https://host/paye_217.tgz" "node-1" None
      (Some 1%nat) (Some 6) None initial_state in
  (exists instances s,
      get_instances w self (Some "node-1") initial_state = (Ok instances, s) /\
      length instances = 1%nat /\ sum_slots instances = 5) /\
  5 + 6 > slots_per_node (config self) /\
  (exists i, fst run = Ok i /\ inst_id i = "0a1b2c3d4e5f60" /\ inst_slots i = 6) /\
  methods (calls (snd run)) =
    [("node-1", "containers"); ("node-1", "inspect_container");
     ("node-1", "create_container"); ("node-1", "start");
     ("node-1", "inspect_container")] /\
  (exists d, fst (get_node w self "node-1" initial_state) = Ok d /\
             nd_used d = 5 /\ nd_free d = 5).
Proof.
  cbv zeta. split; [|split; [|split; [|split]]].
  - eexists _, _. split; [vm_compute; reflexivity|]. split; reflexivity.
  - reflexivity.
  - eexists. split; [vm_compute; reflexivity|]. split; reflexivity.
  - vm_compute. reflexivity.
  - eexists. split; [vm_compute; reflexivity|]. split; reflexivity.
Qed.

(** The rule the code applies, on every input: the request is refused
    as soon as the number of inventoried instances plus the requested
    slots exceeds the capacity, whatever the slots of the instances. *)
Lemma start_instance_refusal w self app slug_uri node port env slots hostname s
    instances s1 :
  get_instances w self (Some node)
    (reserved_written (default default_environment env) slug_uri s)
    = (Ok instances, s1) ->
  Z.of_nat (length instances) + requested_slots self slots
    > slots_per_node (config self) ->
  start_instance w self app slug_uri node port env slots hostname s
    = (Raise NodeOutOfCapacityException, s1).
Proof.
  intros Hinv Hover. unfold start_instance.
  unfold bind at 1, setitem at 1. unfold bind at 1, setitem at 1.
  cbn [environments set_environment]. rewrite Nat.eqb_refl.
  unfold reserved_written in Hinv.
  erewrite bind_ok by exact Hinv.
  fold (requested_slots self slots).
  destruct (_ >? _) eqn:E; [reflexivity|].
  rewrite Z.gtb_ltb in E. apply Z.ltb_ge in E. lia.
Qed.

(** Otherwise the request passes admission: on a configured node the
    container is created with the requested slots as its cpu shares. *)
Lemma start_instance_admission w self app slug_uri node port env slots hostname s
    instances s1 :
  get_instances w self (Some node)
    (reserved_written (default default_environment env) slug_uri s)
    = (Ok instances, s1) ->
  Z.of_nat (length instances) + requested_slots self slots
    <= slots_per_node (config self) ->
  existsb (String.eqb node) (node_connections self) = true ->
  exists args,
    ca_cpu_shares args = requested_slots self slots /\
    In (node, CreateContainer args)
      (calls (snd (start_instance w self app slug_uri node port env slots hostname s))).
Proof.
  intros Hinv Hfits Hnode. unfold start_instance.
  unfold bind at 1, setitem at 1. unfold bind at 1, setitem at 1.
  cbn [environments set_environment]. rewrite Nat.eqb_refl.
  unfold reserved_written in Hinv.
  erewrite bind_ok by exact Hinv.
  fold (requested_slots self slots).
  destruct (_ >? _) eqn:E.
  { rewrite Z.gtb_ltb in E. apply Z.ltb_lt in E. lia. }
  unfold bind at 1, node_connection. rewrite Hnode.
  unfold ret at 1. unfold bind at 1, fresh_uuid at 1. unfold bind at 1, docker at 1.
  eexists. split; [|].
  2: { match goal with |- context [create_resp w ?h node ?a] =>
         destruct (create_resp w h node a) as [id|]
       end.
       - match goal with |- In ?e (calls (snd (bind ?m ?k ?st))) =>
           assert (Hw : within any_call (bind m k));
             [|destruct (Hw st) as (_ & l & -> & _)]
         end.
         { apply within_bind; [apply within_command; reflexivity|]. intros _.
           apply within_bind; [apply within_docker; reflexivity|]. intros c.
           apply within_lift. }
         cbn [calls set_calls set_uuids]. apply in_or_app. left.
         apply in_or_app. right. left. reflexivity.
       - cbn [snd calls set_calls set_uuids]. apply in_or_app. right. left. reflexivity. }
  reflexivity.
Qed.

(** ** One-shot logs (C2) *)

(** C2, as stated, fails: for the blob of two lines, each ended by a
    newline, the records are not just the two lines. *)
Lemma get_logs_two_lines_not_two_records :
  fst (get_logs (Scenario.two_node_fleet Scenario.nothing_fails) Scenario.two_nodes
         "80be2a9e62ba00" false initial_state)
  <> Ok [ {| msg := "this is line 1" +:+ nl |}; {| msg := "this is line 2" +:+ nl |} ].
Proof. vm_compute. discriminate. Qed.

(** C2, amended.  Without [follow], [get_logs] fetches the whole log
    from the node of the instance, splits it at every newline and yields
    one record per piece, the piece followed by a newline: a log with k
    newlines gives k + 1 records.  The blob of two newline-ended lines
    gives three records, the last one for the empty piece after the
    final newline. *)
Theorem get_logs_one_record_per_piece w self instance_id s instances s1
    instance_details rest blob :
  get_instances w self None s = (Ok instances, s1) ->
  List.filter (fun i => String.eqb (inst_id i) instance_id) instances
    = instance_details :: rest ->
  logs_resp w (calls s1) (inst_node instance_details) instance_id = Ok blob ->
  let records := map (fun l => {| msg := l +:+ nl |}) (Py.split LF blob) in
  get_logs w self instance_id false s =
    (Ok records,
     set_calls (fun l => l ++ [(inst_node instance_details, Logs instance_id false)]) s1) /\
  length records = S (count_char LF blob) /\
  (blob = Scenario.two_lines ->
   records = [ {| msg := "this is line 1" +:+ nl |};
               {| msg := "this is line 2" +:+ nl |};
               {| msg := nl |} ]).
Proof.
  intros Hinv Hfound Hblob records. split; [|split].
  - unfold get_logs. erewrite bind_ok by exact Hinv. rewrite Hfound.
    assert (Hc : configured self instance_details).
    { pose proof (get_instances_configured _ _ _ _ _ _ Hinv) as Hall.
      rewrite List.Forall_forall in Hall. apply Hall.
      eapply (proj1 (filter_In _ instance_details instances)).
      rewrite Hfound. left. reflexivity. }
    unfold node_connection. unfold configured in Hc. rewrite Hc.
    unfold bind, ret, docker. rewrite Hblob. reflexivity.
  - unfold records. rewrite length_map. apply length_split.
  - intros ->. reflexivity.
Qed.

(** The theorem at work on the fleet and the blob of the tests. *)
Lemma get_logs_one_record_per_piece_witness :
  let w := Scenario.two_node_fleet Scenario.nothing_fails in
  exists records s',
    get_logs w Scenario.two_nodes "80be2a9e62ba00" false initial_state = (Ok records, s') /\
    length records = 3%nat.
Proof.
  intros w.
  pose (run := get_instances w Scenario.two_nodes None initial_state).
  destruct (get_logs_one_record_per_piece w Scenario.two_nodes "80be2a9e62ba00"
              initial_state (match fst run with Ok l => l | Raise _ => [] end) (snd run)
              (Scenario.one_of_node_2) [] Scenario.two_lines)
    as (Hrun & Hlen & _).
  - vm_compute. reflexivity.
  - vm_compute. reflexivity.
  - vm_compute. reflexivity.
  - eexists _, _. split; [exact Hrun|exact Hlen].
Defined.

(** ** Unknown node (C3) *)

(** C3.  The property: [start_instance] on a node that is not configured
    raises [NoSuchNodeException].  The code does not have it.
    [start_instance] never looks the node up before the admission check,
    and then indexes [node_connections] directly: for a node that is not
    configured the call raises [KeyError], or
    [NodeOutOfCapacityException] when the request alone is too large,
    and in no case [NoSuchNodeException]. *)
Theorem start_instance_unknown_node w self app slug_uri node port env slots hostname s :
  existsb (String.eqb node) (node_connections self) = false ->
  exists e s',
    start_instance w self app slug_uri node port env slots hostname s = (Raise e, s') /\
    (e = KeyError \/ e = NodeOutOfCapacityException) /\
    e <> NoSuchNodeException.
Proof.
  intros Hnode. unfold start_instance.
  unfold bind at 1, setitem at 1. unfold bind at 1, setitem at 1.
  unfold bind at 1.
  match goal with |- context [get_instances w self (Some node) ?s0] =>
    destruct (get_instances_returns w self (Some node) s0) as (l & s1 & Hinv)
  end.
  rewrite Hinv.
  destruct (_ >? _).
  - eexists _, _. split; [reflexivity|]. split; [right; reflexivity|discriminate].
  - unfold node_connection. rewrite Hnode.
    eexists _, _. split; [reflexivity|]. split; [left; reflexivity|discriminate].
Qed.

(** The theorem at work: node-3 on a connection to node-1 and node-2. *)
Lemma start_instance_unknown_node_witness :
  existsb (String.eqb "node-3") (node_connections Scenario.two_nodes) = false /\
  exists e s',
    start_instance (Scenario.one_instance 5) Scenario.two_nodes "paye"
      "https://host/paye_217.tgz" "node-3" None None (Some 2) None initial_state
      = (Raise e, s') /\
    (e = KeyError \/ e = NodeOutOfCapacityException) /\
    e <> NoSuchNodeException.
Proof.
  split; [reflexivity|].
  apply (start_instance_unknown_node (Scenario.one_instance 5) Scenario.two_nodes).
  reflexivity.
Defined.

(** On the fleet of the tests, starting on the unknown node-3 raises
    [KeyError] without a single call, where [get_node] raises
    [NoSuchNodeException]. *)
Example start_instance_on_node_3 :
  let run :=
    start_instance (Scenario.one_instance 5) Scenario.two_nodes "paye"
      "https://host/paye_217.tgz" "node-3" None None (Some 2) None initial_state in
  fst run = Raise KeyError /\ calls (snd run) = [] /\
  fst (get_node (Scenario.one_instance 5) Scenario.two_nodes "node-3" initial_state)
    = Raise NoSuchNodeException.
Proof. cbv zeta. repeat split; vm_compute; reflexivity. Qed.

(** ** The collector and the clock (C5) *)


(** C5.  The property: an exited container whose exit time, read from
    [FinishedAt] without its trailing Z and its fraction of a second,
    lies further back from the current UTC time than the grace period
    is removed, once, and is not returned as an instance.  The code
    does not have it on every host.  A container exited at 08:49:56 UTC
    on 2014-08-21 and the inventory runs one day and one second later,
    with a grace period of one day: the UTC time elapsed exceeds the
    grace period.  On a host whose clock is on UTC the container is
    removed, once.  On a host five hours west the inventory compares the
    exit time with the local time, finds 19 hours, and does not remove
    it. *)
Theorem collector_uses_local_time :
  let self := Scenario.two_nodes in
  let exit_time := 63544207796000000 in
  Datetime.strptime
    (hd "" (Py.split "." (Py.rstrip "Z" "2014-08-21T08:49:56.80805632Z")))
    = Some exit_time /\
  Scenario.clock - exit_time > docker_gc_grace_period (config self) * 1000000 /\
  (let run := get_node_instances (Scenario.day_old_fleet 0) self "node-1" initial_state in
   fst run = Ok [] /\
   calls (snd run) =
     [("node-1", Containers); ("node-1", InspectContainer "381587e2978216");
      ("node-1", RemoveContainer "381587e2978216" false)]) /\
  (let run := get_node_instances (Scenario.day_old_fleet Scenario.new_york) self
                "node-1" initial_state in
   fst run = Ok [] /\
   calls (snd run) =
     [("node-1", Containers); ("node-1", InspectContainer "381587e2978216")]).
Proof. cbv zeta. repeat split; vm_compute; reflexivity. Qed.

(** ** The log-stream helper (C8) *)

(** C8.  The property: the helper waits for the 8 bytes of a header,
    reads the length L of the payload from bytes 4 to 7, yields the L
    bytes of the payload as one chunk and goes on with the next header;
    an input that ends inside a frame yields no partial chunk.  The
    code does not have it for every stream.  The helper yields at most
    one payload per chunk it reads and stops at the end of the input
    without looking at its buffer again: of ten frames of one byte, received ten
    bytes at a time, the tenth is complete in the buffer and yet never
    yielded.  A frame with an empty payload is never consumed: its
    header is read again and again and nothing that follows is
    yielded.  (A single frame with a payload is decoded as claimed,
    however it is cut into chunks: see [stream_helper_one_frame] and
    [stream_helper_cut_frame] below.) *)
Theorem stream_helper_drops_frames :
  __hacked_multiplexed_socket_stream_helper
    (iter_content 10 (Scenario.frames Scenario.ten_letters))
    = ["a"; "b"; "c"; "d"; "e"; "f"; "g"; "h"; "i"] /\
  length (iter_content 10 (Scenario.frames Scenario.ten_letters)) = 9%nat /\
  __hacked_multiplexed_socket_stream_helper
    (iter_content 10 (Scenario.frames [""; "a"])) = [].
Proof. repeat split; vm_compute; reflexivity. Qed.

(** Three frames that each fill more than a chunk come out whole. *)
Example stream_helper_three_lines :
  __hacked_multiplexed_socket_stream_helper
    (iter_content 10
       (Scenario.frames ["this is line 1"; "this is line 2"; "this is line 3"]))
    = ["this is line 1"; "this is line 2"; "this is line 3"].
Proof. vm_compute. reflexivity. Qed.

(** ** The log-stream helper on one frame *)

Lemma append_cons c a b : String c a +:+ b = String c (a +:+ b).
Proof. reflexivity. Qed.

Lemma length_append a b :
  String.length (a +:+ b) = (String.length a + String.length b)%nat.
Proof.
  induction a as [|c a IH]; [reflexivity|].
  rewrite append_cons. simpl. rewrite IH. reflexivity.
Qed.

Lemma len_append a b : Py.len (a +:+ b) = Py.len a + Py.len b.
Proof. unfold Py.len. rewrite length_append. lia. Qed.

Lemma len_nonneg s : 0 <= Py.len s.
Proof. unfold Py.len. lia. Qed.

Lemma len_zero s : Py.len s = 0 -> s = "".
Proof. destruct s; [reflexivity|]. unfold Py.len. simpl. lia. Qed.

Lemma append_empty_r s : s +:+ "" = s.
Proof. induction s as [|c s IH]; [reflexivity|]. rewrite append_cons, IH. reflexivity. Qed.

Lemma append_assoc a b c : (a +:+ b) +:+ c = a +:+ b +:+ c.
Proof. induction a as [|x a IH]; [reflexivity|]. rewrite !append_cons, IH. reflexivity. Qed.

Lemma slice_to_append k a b :
  (k <= String.length a)%nat -> Py.slice_to k (a +:+ b) = Py.slice_to k a.
Proof.
  revert a. induction k as [|k IH]; intros a Hk; [destruct a; reflexivity|].
  destruct a as [|c a]; simpl in Hk; [lia|].
  rewrite append_cons. simpl. rewrite IH by lia. reflexivity.
Qed.

Lemma slice_from_append k a b :
  (k <= String.length a)%nat -> Py.slice_from k (a +:+ b) = Py.slice_from k a +:+ b.
Proof.
  revert a. induction k as [|k IH]; intros a Hk; [destruct a; reflexivity|].
  destruct a as [|c a]; simpl in Hk; [lia|].
  rewrite append_cons. simpl. apply IH. lia.
Qed.

Lemma slice_to_all a : Py.slice_to (String.length a) a = a.
Proof. induction a as [|c a IH]; simpl; [reflexivity|]. rewrite IH. reflexivity. Qed.

Lemma slice_from_all a : Py.slice_from (String.length a) a = "".
Proof. induction a as [|c a IH]; simpl; [reflexivity|]. exact IH. Qed.

Lemma length_slice_from k a :
  String.length (Py.slice_from k a) = (String.length a - k)%nat.
Proof.
  revert a. induction k as [|k IH]; intros a; [destruct a; simpl; lia|].
  destruct a as [|c a]; simpl; [reflexivity|]. apply IH.
Qed.

(** Two ways of cutting the same string agree on their common part. *)
Lemma append_same_length a b c d :
  a +:+ b = c +:+ d -> String.length a = String.length c -> a = c /\ b = d.
Proof.
  revert c. induction a as [|x a IH]; intros [|y c]; simpl; try discriminate; [auto|].
  rewrite !append_cons. intros [= -> H] [= Hl]. destruct (IH _ H Hl) as [-> ->]. auto.
Qed.

Lemma unpack_be32 n rest :
  0 <= n < 4294967296 ->
  unpack_length
    (String (ascii_of_nat 1) (Scenario.zero_byte +:+ Scenario.zero_byte +:+ Scenario.zero_byte)
       +:+ Scenario.be32 n +:+ rest) = n.
Proof.
  intros Hn.
  cbv [unpack_length Scenario.be32 Scenario.zero_byte String.append Py.slice_from].
  rewrite !nat_ascii_embedding
    by (apply Nat2Z.inj_lt; rewrite Z2Nat.id by (apply Z.mod_pos_bound; lia);
        apply Z.mod_pos_bound; lia).
  rewrite !Z2Nat.id by (apply Z.mod_pos_bound; lia).
  Z.div_mod_to_equations. lia.
Qed.

Lemma frame_parts payload :
  Py.slice_to 8 (Scenario.frame payload)
    = String (ascii_of_nat 1)
        (Scenario.zero_byte +:+ Scenario.zero_byte +:+ Scenario.zero_byte)
        +:+ Scenario.be32 (Py.len payload) +:+ "" /\
  Py.slice_from 8 (Scenario.frame payload) = payload /\
  String.length (Scenario.frame payload) = (8 + String.length payload)%nat.
Proof. repeat split. Qed.

Lemma join_blank chunks :
  join chunks = "" -> stream_helper_loop chunks "" None = [].
Proof.
  induction chunks as [|ch rest IH]; [reflexivity|].
  cbn [join fold_right]. intros H.
  assert (Hch : ch = "") by (destruct ch; [reflexivity|discriminate]).
  subst ch. cbn [stream_helper_loop]. apply IH. exact H.
Qed.

(** One frame with a payload, cut into chunks in any way and possibly
    cut short by the end of the input: the helper yields the payload,
    whole, when the frame is complete, and nothing when it is not. *)
Lemma stream_helper_loop_frame payload :
  1 <= Py.len payload < 4294967296 ->
  forall chunks data_buffer length tail,
    length = None \/ length = Some (Py.len payload) ->
    data_buffer +:+ join chunks +:+ tail = Scenario.frame payload ->
    Py.len data_buffer < 8 + Py.len payload ->
    stream_helper_loop chunks data_buffer length
      = if String.eqb tail "" then [payload] else [].
Proof.
  intros HL. destruct (frame_parts payload) as (Hhead & Hbody & Hlen).
  induction chunks as [|ch rest IH]; intros buffer length tail Hlength Hframe Hshort.
  - cbn [stream_helper_loop]. destruct tail; [|reflexivity].
    cbn [join fold_right] in Hframe. rewrite append_empty_r in Hframe. subst buffer.
    unfold Py.len in Hshort. rewrite Hlen in Hshort. lia.
  - cbn [stream_helper_loop]. cbn [join fold_right] in Hframe.
    rewrite <- !append_assoc in Hframe. rewrite append_assoc in Hframe.
    fold (join rest) in Hframe.
    set (buffer' := buffer +:+ ch) in *.
    assert (Hle : Py.len buffer' <= 8 + Py.len payload).
    { apply (f_equal String.length) in Hframe. rewrite length_append, Hlen in Hframe.
      unfold Py.len. lia. }
    destruct (Py.len buffer' >? 8) eqn:Hgt.
    + rewrite Z.gtb_ltb in Hgt. apply Z.ltb_lt in Hgt.
      assert (Hparse : unpack_length (Py.slice_to 8 buffer') = Py.len payload).
      { rewrite <- (slice_to_append 8 buffer' (join rest +:+ tail))
          by (unfold Py.len in Hgt; lia).
        rewrite Hframe, Hhead. apply unpack_be32. lia. }
      assert (Hlength' :
        (if not_length length && true then Some (unpack_length (Py.slice_to 8 buffer'))
         else length) = Some (Py.len payload)).
      { destruct Hlength as [-> | ->]; cbn [not_length andb].
        - rewrite Hparse. reflexivity.
        - destruct (Py.len payload =? 0); [rewrite Hparse|]; reflexivity. }
      rewrite Hlength'.
      assert (Hnz : (Py.len payload =? 0) = false) by (apply Z.eqb_neq; lia).
      rewrite Hnz. cbn [negb andb].
      assert (Hrest : Py.len (Py.slice_from 8 buffer') = Py.len buffer' - 8).
      { unfold Py.len. rewrite length_slice_from. unfold Py.len in Hgt. lia. }
      rewrite Hrest.
      destruct (Py.len buffer' - 8 >=? Py.len payload) eqn:Hfull.
      * rewrite Z.geb_leb in Hfull. apply Z.leb_le in Hfull.
        assert (Hsame : String.length buffer' = String.length (Scenario.frame payload)).
        { rewrite Hlen. unfold Py.len in *. lia. }
        rewrite <- (append_empty_r (Scenario.frame payload)) in Hframe.
        destruct (append_same_length _ _ _ _ Hframe Hsame) as [Hb Ht].
        assert (Htail : tail = "").
        { destruct (join rest); [exact Ht|discriminate]. }
        assert (Hjoin : join rest = "").
        { destruct (join rest); [reflexivity|discriminate]. }
        subst tail. rewrite Hb, Hbody.
        unfold Py.len at 1. rewrite Nat2Z.id, slice_to_all.
        replace (8 + Z.to_nat (Py.len payload))%nat
          with (String.length (Scenario.frame payload))
          by (rewrite Hlen; unfold Py.len; lia).
        rewrite slice_from_all, (join_blank _ Hjoin). reflexivity.
      * rewrite Z.geb_leb in Hfull. apply Z.leb_gt in Hfull.
        apply IH; [right; reflexivity|exact Hframe|lia].
    + rewrite Z.gtb_ltb in Hgt. apply Z.ltb_ge in Hgt.
      rewrite andb_false_r.
      assert (Hnone : Py.len (Py.slice_from 8 buffer') = 0).
      { unfold Py.len. rewrite length_slice_from. unfold Py.len in Hgt. lia. }
      destruct Hlength as [-> | ->].
      * apply IH; [left; reflexivity|exact Hframe|lia].
      * rewrite Hnone.
        assert (Hno : (0 >=? Py.len payload) = false)
          by (rewrite Z.geb_leb; apply Z.leb_gt; lia).
        rewrite Hno, andb_false_r.
        apply IH; [right; reflexivity|exact Hframe|lia].
Qed.

Lemma stream_helper_one_frame payload chunks :
  1 <= Py.len payload < 4294967296 ->
  join chunks = Scenario.frame payload ->
  __hacked_multiplexed_socket_stream_helper chunks = [payload].
Proof.
  intros HL Hjoin. unfold __hacked_multiplexed_socket_stream_helper.
  rewrite (stream_helper_loop_frame payload HL chunks "" None "");
    [reflexivity|left; reflexivity| |unfold Py.len at 1; simpl; lia].
  rewrite append_empty_r. exact Hjoin.
Qed.

Lemma stream_helper_cut_frame payload chunks tail :
  1 <= Py.len payload < 4294967296 ->
  tail <> "" ->
  join chunks +:+ tail = Scenario.frame payload ->
  __hacked_multiplexed_socket_stream_helper chunks = [].
Proof.
  intros HL Htail Hjoin. unfold __hacked_multiplexed_socket_stream_helper.
  rewrite (stream_helper_loop_frame payload HL chunks "" None tail);
    [|left; reflexivity|exact Hjoin|unfold Py.len at 1; simpl; lia].
  destruct tail; [congruence|reflexivity].
Qed.

(** ** Failures inside an inventory pass (C4, C9) *)

(** In the loop of [get_instances], a node whose pass raised adds no
    instance; the failure goes to the log and the loop moves on. *)
Lemma collect_failure w self node rest instances s e s' :
  get_node_instances w self node s = (Raise e, s') ->
  collect w self (node :: rest) instances s
    = collect w self rest instances (add_log (ErrorGettingInstances node e) s').
Proof.
  intros H. simpl. unfold bind at 1, try_except, bind at 1. rewrite H. reflexivity.
Qed.

(** The pass over a listing, up to the container that follows [pre]. *)
Lemma get_node_instances_upto w self node s0 pre container post acc s :
  existsb (String.eqb node) (node_connections self) = true ->
  containers_resp w (calls s0) node = Ok (pre ++ container :: post) ->
  inventory_loop w self node pre []
    (set_calls (fun l => l ++ [(node, Containers)]) s0) = (Ok acc, s) ->
  get_node_instances w self node s0 =
    bind (inventory_step w self node acc container)
      (fun acc2 => inventory_loop w self node post acc2) s.
Proof.
  intros Hnode Hlist Hpre. unfold get_node_instances, node_connection.
  rewrite Hnode. unfold bind at 1, ret. unfold bind at 1, docker.
  rewrite Hlist. rewrite inventory_loop_app.
  erewrite bind_ok by exact Hpre. reflexivity.
Qed.

Lemma zero_exit_time_parses :
  Datetime.strptime (hd "" (Py.split "." (Py.rstrip "Z" zero_exit_time))) = Some 0.
Proof. vm_compute. reflexivity. Qed.

Lemma coarse_status_up status :
  Py.startswith "Up " status = true -> coarse_status status = Ok "Up".
Proof.
  unfold Py.startswith. intros H.
  destruct status as [|a status]; [discriminate|]. cbn [String.prefix] in H.
  destruct (Ascii.ascii_dec "U" a) as [<-|]; [|discriminate].
  destruct status as [|b status]; [discriminate|]. cbn [String.prefix] in H.
  destruct (Ascii.ascii_dec "p" b) as [<-|]; [|discriminate].
  destruct status as [|c status]; [discriminate|]. cbn [String.prefix] in H.
  destruct (Ascii.ascii_dec " " c) as [<-|]; [|discriminate].
  reflexivity.
Qed.

(** C4, as stated, fails: when the daemon refuses the start of the
    repair, the pass raises; the failure is not swallowed, and the
    running instance that follows in the listing is not returned. *)
Lemma repair_failure_is_raised :
  let w := Scenario.zero_time_fleet Scenario.start_fails in
  let run := get_node_instances w Scenario.two_nodes "node-1" initial_state in
  fst run = Raise APIError /\
  calls (snd run) =
    [("node-1", Containers); ("node-1", InspectContainer "381587e2978216");
     ("node-1", Start "381587e2978216" None)].
Proof. cbv zeta. split; vm_compute; reflexivity. Qed.

(** C4, amended.  When the pass over a node reaches a container whose
    status does not start with "Up " and whose inspection reports the
    zero exit time, it calls [start(id)] and then [kill(id)] on the node
    and goes on with the rest of the listing without adding the
    container to the instances.  If the start or the kill raises, the
    exception leaves [get_node_instances] and the pass ends there;
    [get_instances] then logs the failure and takes no instance from
    that node. *)
Theorem zero_exit_time_repair w self node s0 pre container post acc s status
    node_container s1 :
  existsb (String.eqb node) (node_connections self) = true ->
  containers_resp w (calls s0) node = Ok (pre ++ container :: post) ->
  inventory_loop w self node pre []
    (set_calls (fun l => l ++ [(node, Containers)]) s0) = (Ok acc, s) ->
  Py.startswith "Up " (c_Status container) = false ->
  coarse_status (c_Status container) = Ok status ->
  _get_lru_instance_details w self node (c_Id container) status s
    = (Ok node_container, s1) ->
  i_FinishedAt node_container = zero_exit_time ->
  let id := c_Id container in
  let s2 := set_calls (fun l => l ++ [(node, Start id None)])
              (add_log (WarnZeroExitTime id node) s1) in
  let s3 := set_calls (fun l => l ++ [(node, Kill id)]) s2 in
  get_node_instances w self node s0 =
    match command_resp w (calls s1) node (Start id None) with
    | Some e => (Raise e, s2)
    | None =>
        match command_resp w (calls s2) node (Kill id) with
        | Some e => (Raise e, s3)
        | None => inventory_loop w self node post acc (add_log (WarnExitTimeReset id) s3)
        end
    end /\
  forall e s' rest instances,
    get_node_instances w self node s0 = (Raise e, s') ->
    collect w self (node :: rest) instances s0
      = collect w self rest instances (add_log (ErrorGettingInstances node e) s').
Proof.
  intros Hnode Hlist Hpre Hup Hstatus Hdetails Hzero id s2 s3.
  split; [|intros e s' rest instances; apply collect_failure].
  rewrite (get_node_instances_upto _ _ _ _ _ _ _ _ _ Hnode Hlist Hpre).
  unfold bind at 1. unfold inventory_step.
  rewrite Hstatus. unfold bind at 1, lift at 1. rewrite Hup.
  change (negb false) with true. cbv iota.
  erewrite bind_ok by exact Hdetails.
  rewrite Hzero, zero_exit_time_parses. unfold bind at 1, lift at 1.
  change (String.eqb zero_exit_time zero_exit_time) with true. cbv iota.
  unfold bind at 1, logging at 1. unfold bind at 1, command at 1, docker at 1.
  change (calls (add_log (WarnZeroExitTime (c_Id container) node) s1)) with (calls s1).
  fold id. destruct (command_resp w (calls s1) node (Start id None)); [reflexivity|].
  unfold bind at 1, command at 1, docker at 1. fold s2.
  destruct (command_resp w (calls s2) node (Kill id)); [reflexivity|].
  reflexivity.
Qed.

(** The theorem at work when nothing fails: the container is started
    and killed, and only the running instance is returned. *)
Lemma zero_exit_time_repair_witness :
  let w := Scenario.zero_time_fleet Scenario.nothing_fails in
  let run := get_node_instances w Scenario.two_nodes "node-1" initial_state in
  map inst_id (match fst run with Ok l => l | Raise _ => [] end) = ["eba8bea2600029"] /\
  calls (snd run) =
    [("node-1", Containers); ("node-1", InspectContainer "381587e2978216");
     ("node-1", Start "381587e2978216" None); ("node-1", Kill "381587e2978216");
     ("node-1", InspectContainer "eba8bea2600029")].
Proof.
  intros w run.
  pose (s := set_calls (fun l => l ++ [("node-1", Containers)]) initial_state).
  pose (details :=
          _get_lru_instance_details w Scenario.two_nodes "node-1" "381587e2978216"
            "Exited" s).
  destruct (zero_exit_time_repair w Scenario.two_nodes "node-1" initial_state []
              (Scenario.exited "381587e2978216" "Exited (0) 2 days ago")
              [Scenario.up "eba8bea2600029" "Up 56 minutes"] [] s "Exited"
              (Scenario.inspection "381587e2978216" "/paye_215"
                 "https://host/paye_215.tgz" "9100" zero_exit_time 2)
              (snd details)) as [H _]; try (vm_compute; reflexivity).
  unfold run. rewrite H. split; vm_compute; reflexivity.
Defined.

(** ** An instance without a port binding (C9) *)

Lemma host_port_error container :
  port_binding container = None \/
  (exists p, port_binding container = Some p /\ Py.int p = None) ->
  exists e, host_port container = Raise e /\ port_error e.
Proof.
  unfold port_binding, host_port, port_error.
  destruct (i_Ports container) as [ports|]; simpl; [|eauto 6].
  destruct (ports !! "8080/tcp") as [[[|b l]|]|]; simpl; eauto 6.
  destruct (b !! "HostPort") as [p|]; [|eauto 6].
  intros [[=]|(q & [= <-] & ->)]. eauto 6.
Qed.

Lemma get_instance_port_error node container :
  port_binding container = None \/
  (exists p, port_binding container = Some p /\ Py.int p = None) ->
  exists e, __get_instance node container = Raise e /\ port_error e.
Proof.
  intros H. destruct (host_port_error _ H) as (e & He & Hp).
  unfold __get_instance. destruct (read_env _ _ _) as [[env slug]|e'] eqn:E.
  - rewrite He. eauto.
  - exists e'. split; [reflexivity|].
    rewrite (read_env_raises _ _ _ _ E). unfold port_error. auto.
Qed.

(** C9, as stated, fails: the first of two running instances of node-1
    has no port binding; the pass raises [TypeError] and the second
    instance is not returned, neither by [get_node_instances] nor by
    [get_instances]. *)
Lemma unbound_port_loses_the_node :
  fst (get_node_instances Scenario.unbound_fleet Scenario.two_nodes "node-1" initial_state)
    = Raise TypeError /\
  fst (get_instances Scenario.unbound_fleet Scenario.two_nodes None initial_state) = Ok [] /\
  log (snd (get_instances Scenario.unbound_fleet Scenario.two_nodes None initial_state))
    = [ErrorGettingInstances "node-1" TypeError].
Proof. repeat split; vm_compute; reflexivity. Qed.

(** C9, amended.  When the pass over a node reaches a running container
    with exactly the port 8080 whose inspection has no host port at
    [NetworkSettings.Ports["8080/tcp"][0]["HostPort"]], or one that is not
    a number, the projection raises [KeyError], [TypeError], [IndexError]
    or [ValueError]; the exception leaves [get_node_instances], the pass
    ends there and returns no instance at all; [get_instances] logs the
    failure and takes no instance from that node. *)
Theorem unbound_port_aborts_inventory w self node s0 pre container post acc s
    node_container s1 :
  existsb (String.eqb node) (node_connections self) = true ->
  containers_resp w (calls s0) node = Ok (pre ++ container :: post) ->
  inventory_loop w self node pre []
    (set_calls (fun l => l ++ [(node, Containers)]) s0) = (Ok acc, s) ->
  Py.startswith "Up " (c_Status container) = true ->
  c_Ports container = [8080] ->
  _get_lru_instance_details w self node (c_Id container) "Up" s
    = (Ok node_container, s1) ->
  port_binding node_container = None \/
  (exists p, port_binding node_container = Some p /\ Py.int p = None) ->
  exists e,
    port_error e /\
    __get_instance node node_container = Raise e /\
    get_node_instances w self node s0 = (Raise e, s1) /\
    forall rest instances,
      collect w self (node :: rest) instances s0
        = collect w self rest instances (add_log (ErrorGettingInstances node e) s1).
Proof.
  intros Hnode Hlist Hpre Hup Hports Hdetails Hbinding.
  destruct (get_instance_port_error node _ Hbinding) as (e & He & Hp).
  exists e. split; [exact Hp|]. split; [exact He|].
  assert (Hrun : get_node_instances w self node s0 = (Raise e, s1)).
  { rewrite (get_node_instances_upto _ _ _ _ _ _ _ _ _ Hnode Hlist Hpre).
    unfold bind at 1. unfold inventory_step.
    rewrite (coarse_status_up _ Hup). unfold bind at 1, lift at 1. rewrite Hup.
    change (negb true) with false. cbv iota. rewrite Hports.
    change (8080 =? 8080) with true. cbv iota.
    erewrite bind_ok by exact Hdetails.
    rewrite He. reflexivity. }
  split; [exact Hrun|]. intros rest instances. apply collect_failure. exact Hrun.
Qed.

(** The theorem at work on the fleet of the counterexample. *)
Lemma unbound_port_aborts_inventory_witness :
  exists e,
    port_error e /\
    get_node_instances Scenario.unbound_fleet Scenario.two_nodes "node-1" initial_state
      = (Raise e,
         snd (get_node_instances Scenario.unbound_fleet Scenario.two_nodes "node-1"
                initial_state)).
Proof.
  pose (w := Scenario.unbound_fleet).
  pose (s := set_calls (fun l => l ++ [("node-1", Containers)]) initial_state).
  pose (details :=
          _get_lru_instance_details w Scenario.two_nodes "node-1" "656ca7c307d178" "Up" s).
  destruct (unbound_port_aborts_inventory w Scenario.two_nodes "node-1" initial_state []
              (Scenario.up "656ca7c307d178" "Up 40 minutes")
              [Scenario.up "eba8bea2600029" "Up 56 minutes"] [] s
              Scenario.unbound (snd details)) as (e & Hp & _ & Hrun & _);
    try (vm_compute; reflexivity).
  - left. vm_compute. reflexivity.
  - exists e. split; [exact Hp|]. fold w. rewrite Hrun. reflexivity.
Defined.

(** ** The application name (C6) *)

Lemma app_of_created_name app uuid :
  app_of_name ("/" +:+ app +:+ "_" +:+ uuid) = hd "" (Py.split "_" app).
Proof. unfold app_of_name. simpl Py.tail. apply hd_split_app. Qed.

Lemma get_instance_app node container i :
  __get_instance node container = Ok i -> inst_app i = app_of_name (i_Name container).
Proof.
  unfold __get_instance. destruct (read_env _ _ _) as [[env slug]|]; [|discriminate].
  destruct (host_port container); [|discriminate]. intros [= <-]. reflexivity.
Qed.

(** C6, as stated, fails: an instance created for the application
    "my_app" comes back with the application "my". *)
Lemma app_name_with_underscore_is_cut :
  exists i,
    fst (start_instance Scenario.echo Scenario.two_nodes "my_app"
           "https://host/my_app.tgz" "node-1" None None None None initial_state) = Ok i /\
    inst_app i = "my" /\ inst_app i <> "my_app".
Proof. eexists. split; [vm_compute; reflexivity|]. split; [reflexivity|discriminate]. Qed.

(** C6, amended.  An instance created by [start_instance] for the
    application name A, on a daemon that reports the container under the
    name it was created with after a leading slash, has for [app] the
    part of A that precedes its first underscore; this is A itself
    whenever A contains no underscore. *)
Theorem app_name_round_trip w self app slug_uri node port env slots hostname s i s' :
  names_as_created w ->
  start_instance w self app slug_uri node port env slots hostname s = (Ok i, s') ->
  inst_app i = hd "" (Py.split "_" app) /\
  (contains "_" app = false -> inst_app i = app).
Proof.
  intros Hnames Hrun.
  assert (Happ : inst_app i = hd "" (Py.split "_" app)).
  { revert Hrun. unfold start_instance.
    unfold bind at 1, setitem at 1. unfold bind at 1, setitem at 1. unfold bind at 1.
    destruct (get_instances _ _ _ _) as [[instances|] s1]; [|discriminate].
    destruct (_ >? _); [discriminate|].
    unfold bind at 1. destruct (node_connection self node s1) as [[[]|] s2]; [|discriminate].
    unfold bind at 1, fresh_uuid at 1. unfold bind at 1, docker at 1.
    match goal with |- context [create_resp w ?h node ?a] =>
      destruct (create_resp w h node a) as [id|] eqn:Hcreate; [|discriminate];
      pose proof (Hnames h node a id) as Hname
    end.
    unfold bind at 1, command at 1, docker at 1. cbn [calls set_calls set_uuids].
    destruct (command_resp _ _ _ _); [discriminate|].
    unfold bind at 1, docker at 1. cbn [calls set_calls set_uuids].
    rewrite <- app_assoc. cbn [List.app].
    match goal with |- context [inspect_resp w ?h node id] =>
      destruct (inspect_resp w h node id) as [container|] eqn:Hinspect; [|discriminate]
    end.
    unfold lift. intros [= Hi _].
    rewrite (get_instance_app _ _ _ Hi), (Hname _ Hcreate Hinspect).
    cbn [ca_name]. apply app_of_created_name. }
  split; [exact Happ|].
  intros Hno. rewrite Happ, (split_without _ _ Hno). reflexivity.
Qed.

Lemma echo_names_as_created : names_as_created Scenario.echo.
Proof.
  intros h node args id container _. cbn [inspect_resp Scenario.echo].
  assert (Hlast : forall l found,
             Scenario.last_created
               (l ++ [(node, CreateContainer args);
                      (node, Start id (Some [(8080, None)]))]) found = Some args).
  { induction l as [|[n c] l IH]; intros found; [reflexivity|].
    simpl. destruct c; apply IH. }
  rewrite Hlast. intros [= <-]. reflexivity.
Qed.

(** The theorem at work: "paye" comes back as "paye". *)
Lemma app_name_round_trip_witness :
  exists i,
    fst (start_instance Scenario.echo Scenario.two_nodes "paye"
           "https://host/paye_216.tgz" "node-1" None None None None initial_state) = Ok i /\
    inst_app i = "paye".
Proof.
  remember (start_instance Scenario.echo Scenario.two_nodes "paye"
              "https://host/paye_216.tgz" "node-1" None None None None initial_state)
    as run eqn:Erun.
  destruct run as [[i|e] s1]; [|vm_compute in Erun; discriminate].
  exists i. split; [reflexivity|].
  destruct (app_name_round_trip Scenario.echo Scenario.two_nodes "paye"
              "https://host/paye_216.tgz" "node-1" None None None None initial_state
              i s1 echo_names_as_created (eq_sym Erun)) as [_ H].
  apply H. reflexivity.
Defined.

(** ** Stopping an instance (C7) *)

(** The loop of [stop_instance] acts on the first instance that carries
    the id. *)
Lemma stop_loop_first w self instance_id instances s :
  stop_loop w self instance_id instances s =
  match List.filter (fun i => String.eqb (inst_id i) instance_id) instances with
  | [] => (Ok false, s)
  | instance :: _ => stop_loop w self instance_id [instance] s
  end.
Proof.
  induction instances as [|i instances IH]; [reflexivity|].
  cbn [List.filter]. destruct (String.eqb (inst_id i) instance_id) eqn:E.
  - simpl. rewrite E. reflexivity.
  - simpl. rewrite E. exact IH.
Qed.

(** C7, as stated, fails: stopping an id that no instance carries
    returns false, but the inventory made on the way removes the
    container of node-1 that exited two days ago. *)
Lemma stop_unknown_id_still_removes :
  let run := stop_instance (Scenario.two_node_fleet Scenario.nothing_fails)
               Scenario.two_nodes "nonexisting" initial_state in
  fst run = Ok false /\
  In ("node-1", RemoveContainer "381587e2978216" false) (calls (snd run)).
Proof.
  cbv zeta. split; [vm_compute; reflexivity|].
  vm_compute. right. right. right. right. left. reflexivity.
Qed.

(** C7, amended.  [stop_instance(id)] looks for the instance in a
    [get_instances()] over all nodes, whose calls are those of an
    inventory (listing, inspection, the start and kill of the exit-time
    repair, the unforced remove of the collector).  If no instance has
    the id, it returns false and makes no further call: no stop and no
    forced remove reach any daemon.  Otherwise it calls [stop(id)] and
    then [remove_container(id, force=True)] on the node of the first
    such instance and, provided the stop did not raise, returns true,
    also when the remove raises. *)
Theorem stop_instance_spec w self instance_id s instances s1 :
  get_instances w self None s = (Ok instances, s1) ->
  (exists l, calls s1 = calls s ++ l /\ forallb inventory_call l = true /\
     forall node id, ~ In (node, Stop id) l /\ ~ In (node, RemoveContainer id true) l) /\
  match List.filter (fun i => String.eqb (inst_id i) instance_id) instances with
  | [] => stop_instance w self instance_id s = (Ok false, s1)
  | instance :: _ =>
      let node := inst_node instance in
      let s2 := set_calls (fun l => l ++ [(node, Stop instance_id)]) s1 in
      let s3 := set_calls (fun l => l ++ [(node, RemoveContainer instance_id true)]) s2 in
      match command_resp w (calls s1) node (Stop instance_id) with
      | Some e => stop_instance w self instance_id s = (Raise e, s2)
      | None =>
          stop_instance w self instance_id s =
            (Ok true,
             match command_resp w (calls s2) node (RemoveContainer instance_id true) with
             | None => s3
             | Some _ => add_log (WarnFailedToRemove instance_id node) s3
             end)
      end
  end.
Proof.
  intros Hinv. split.
  - destruct (within_get_instances w self None s) as (_ & l & Hl & Hcalls).
    rewrite Hinv in Hl. exists l. split; [exact Hl|]. split; [exact Hcalls|].
    rewrite forallb_forall in Hcalls.
    intros node id. split; intros Hin; apply Hcalls in Hin; discriminate.
  - unfold stop_instance. erewrite bind_ok by exact Hinv.
    rewrite stop_loop_first.
    destruct (List.filter _ instances) as [|instance rest] eqn:Hfound; [reflexivity|].
    assert (Hid : String.eqb (inst_id instance) instance_id = true).
    { assert (Hin : In instance (List.filter
                (fun i => String.eqb (inst_id i) instance_id) instances))
        by (rewrite Hfound; left; reflexivity).
      apply filter_In in Hin. exact (proj2 Hin). }
    assert (Hc : configured self instance).
    { pose proof (get_instances_configured _ _ _ _ _ _ Hinv) as Hall.
      rewrite List.Forall_forall in Hall. apply Hall.
      eapply (proj1 (filter_In _ instance instances)).
      rewrite Hfound. left. reflexivity. }
    unfold configured in Hc.
    cbn [stop_loop]. rewrite Hid. cbv zeta.
    unfold node_connection. rewrite Hc.
    destruct (command_resp w (calls s1) (inst_node instance) (Stop instance_id))
      as [e|] eqn:Hstop.
    + unfold bind at 1, ret at 1. unfold bind at 1, command at 1, docker at 1.
      rewrite Hstop. reflexivity.
    + unfold bind at 1, ret at 1. unfold bind at 1, command at 1, docker at 1.
      rewrite Hstop.
      unfold bind at 1, try_except, bind at 1, ret at 1, command, docker.
      destruct (command_resp w _ (inst_node instance) (RemoveContainer instance_id true));
        reflexivity.
Qed.

(** The theorem at work on the fleet of the tests, with a daemon that
    refuses every forced removal: the instance of node-2 is stopped, the
    removal is tried, and the answer is still true. *)
Lemma stop_instance_spec_witness :
  let w := Scenario.two_node_fleet
             (fun node c => match c with
                            | RemoveContainer _ true => Some APIError
                            | _ => None
                            end) in
  let run := stop_instance w Scenario.two_nodes "80be2a9e62ba00" initial_state in
  fst run = Ok true /\
  calls (snd run) =
    calls (snd (get_instances w Scenario.two_nodes None initial_state))
      ++ [("node-2", Stop "80be2a9e62ba00");
          ("node-2", RemoveContainer "80be2a9e62ba00" true)] /\
  log (snd run) =
    log (snd (get_instances w Scenario.two_nodes None initial_state))
      ++ [WarnFailedToRemove "80be2a9e62ba00" "node-2"].
Proof.
  intros w run.
  pose (inventory := get_instances w Scenario.two_nodes None initial_state).
  destruct (stop_instance_spec w Scenario.two_nodes "80be2a9e62ba00" initial_state
              (match fst inventory with Ok l => l | Raise _ => [] end)
              (snd inventory)) as [_ H]; [vm_compute; reflexivity|].
  remember run as stopped eqn:Estopped. unfold run in Estopped.
  rewrite <- Estopped in H. clear Estopped. vm_compute in H.
  rewrite H. split; [|split]; vm_compute; reflexivity.
Defined.

(** ** The environment argument (C10) *)

Lemma within_fresh_uuid w P : within P (fresh_uuid w).
Proof. intros s. simpl. split; [reflexivity|]. exists []. rewrite app_nil_r. auto. Qed.

(** What [start_instance] does to the dictionaries: the two reserved
    entries are written into the one it was given, nothing else moves. *)
Lemma start_instance_environments w self app slug_uri node port env slots hostname s :
  let address := default default_environment env in
  forall other,
    environments
      (snd (start_instance w self app slug_uri node port env slots hostname s)) other
    = if Nat.eqb address other
      then <["SLUG_URL" := slug_uri]> (<["PORT" := "8080"]> (environments s address))
      else environments s other.
Proof.
  intros address other. unfold start_instance. fold address.
  unfold bind at 1, setitem at 1. unfold bind at 1, setitem at 1.
  match goal with |- context [environments (snd (?m ?st))] =>
    assert (Hw : within any_call m); [|rewrite (proj1 (Hw st))]
  end.
  - apply within_bind.
    { eapply within_mono; [|apply within_get_instances]. reflexivity. }
    intros instances. destruct (_ >? _); [apply within_raise|].
    apply within_bind; [apply within_node_connection|]. intros _.
    apply within_bind; [apply within_fresh_uuid|]. intros name.
    apply within_bind.
    { intros st. cbv beta. apply within_docker. reflexivity. }
    intros id. apply within_bind; [apply within_command; reflexivity|]. intros _.
    apply within_bind; [apply within_docker; reflexivity|]. intros c.
    apply within_lift.
  - cbn [environments set_environment]. rewrite Nat.eqb_refl.
    destruct (Nat.eqb address other); reflexivity.
Qed.

(** C10.  [start_instance] writes PORT="8080" and SLUG_URL=slug_uri into
    the very dictionary it receives as [environment]: after the call,
    whatever its outcome, that dictionary holds the two entries on top of
    what it held, and no other dictionary has changed.  When the
    argument is omitted the dictionary is the one default object of the
    method: after such a call the default holds the entries of that
    call, and a later call that omits the argument starts from that
    same dictionary. *)
Theorem start_instance_writes_environment w self app slug_uri node port env slots hostname s
    app2 slug_uri2 node2 port2 slots2 hostname2 :
  let address := default default_environment env in
  (forall other,
     environments
       (snd (start_instance w self app slug_uri node port env slots hostname s)) other
     = if Nat.eqb address other
       then <["SLUG_URL" := slug_uri]> (<["PORT" := "8080"]> (environments s address))
       else environments s other) /\
  let s1 := snd (start_instance w self app slug_uri node port None slots hostname s) in
  environments s1 default_environment !! "PORT" = Some "8080" /\
  environments s1 default_environment !! "SLUG_URL" = Some slug_uri /\
  let s2 := snd (start_instance w self app2 slug_uri2 node2 port2 None slots2 hostname2 s1) in
  environments s2 default_environment
    = <["SLUG_URL" := slug_uri2]> (<["PORT" := "8080"]> (environments s1 default_environment)).
Proof.
  intros address. split; [apply start_instance_environments|].
  cbv zeta. rewrite !start_instance_environments. cbn [default Nat.eqb default_environment].
  split; [|split].
  - rewrite lookup_insert_ne by discriminate. apply lookup_insert_eq.
  - apply lookup_insert_eq.
  - reflexivity.
Qed.

(** Two calls that omit the argument, on the fleet of the tests: the
    second one finds the slug of the first in its environment. *)
Example default_environment_is_shared :
  let w := Scenario.one_instance 2 in
  let s1 := snd (start_instance w Scenario.two_nodes "paye" "https://host/paye_216.tgz"
                   "node-1" None None None None initial_state) in
  environments initial_state default_environment = ∅ /\
  environments s1 default_environment !! "SLUG_URL" = Some "https://host/paye_216.tgz" /\
  environments s1 default_environment !! "PORT" = Some "8080".
Proof. cbv zeta. split; [|split]; vm_compute; reflexivity. Qed.

(** * Further properties *)

(** ** Relations between the states before and after *)

Section Respects.

Variable R : State -> State -> Prop.
Hypothesis R_refl : forall s, R s s.
Hypothesis R_trans : forall s1 s2 s3, R s1 s2 -> R s2 s3 -> R s1 s3.

Lemma respects_ret {A} (a : A) : respects R (ret a).
Proof. intros s. apply R_refl. Qed.

Lemma respects_raise {A} e : respects R (@raise A e).
Proof. intros s. apply R_refl. Qed.

Lemma respects_lift {A} (r : result A) : respects R (lift r).
Proof. intros s. apply R_refl. Qed.

Lemma respects_bind {A B} (m : M A) (k : A -> M B) :
  respects R m -> (forall a, respects R (k a)) -> respects R (bind m k).
Proof.
  intros Hm Hk s. unfold bind. specialize (Hm s).
  destruct (m s) as [[a|e] s1]; simpl in *; [|exact Hm].
  eapply R_trans; [exact Hm | apply Hk].
Qed.

Lemma respects_try {A} (m : M A) (h : exn -> M A) :
  respects R m -> (forall e, respects R (h e)) -> respects R (try_except m h).
Proof.
  intros Hm Hh s. unfold try_except. specialize (Hm s).
  destruct (m s) as [[a|e] s1]; simpl in *; [exact Hm|].
  eapply R_trans; [exact Hm | apply Hh].
Qed.

Lemma respects_node_connection self node : respects R (node_connection self node).
Proof.
  unfold node_connection. destruct (existsb _ _); [apply respects_ret|apply respects_raise].
Qed.

End Respects.

(** ** The cache of inspections *)

Lemma same_key_refl node id status container :
  same_key node id status (node, id, status, container) = true.
Proof. unfold same_key. rewrite !String.eqb_refl. reflexivity. Qed.

Lemma same_key_eq node id status entry :
  same_key node id status entry = true <-> fst entry = (node, id, status).
Proof.
  destruct entry as [[[n i] st] c]. unfold same_key. simpl.
  rewrite !andb_true_iff, !String.eqb_eq. split.
  - intros [[-> ->] ->]. reflexivity.
  - intros [= -> -> ->]. auto.
Qed.

Lemma lru_find_none node id status cache :
  lru_find node id status cache = None <-> ~ In (node, id, status) (cache_keys cache).
Proof.
  induction cache as [|entry cache IH]; simpl; [tauto|].
  destruct (same_key node id status entry) eqn:E.
  - apply same_key_eq in E. split; [discriminate|]. intros H. destruct H. auto.
  - rewrite IH. split.
    + intros H [Hk|Hin]; [|auto]. apply same_key_eq in Hk. congruence.
    + intros H Hin. apply H. auto.
Qed.

Lemma lru_find_some node id status cache :
  In (node, id, status) (cache_keys cache) ->
  exists container, lru_find node id status cache = Some container.
Proof.
  intros Hin. destruct (lru_find node id status cache) as [c|] eqn:E; [eauto|].
  apply lru_find_none in E. contradiction.
Qed.

Lemma lru_drop_keys node id status cache k :
  In k (cache_keys (lru_drop node id status cache)) <->
  In k (cache_keys cache) /\ k <> (node, id, status).
Proof.
  unfold cache_keys, lru_drop. rewrite !in_map_iff. split.
  - intros (entry & <- & Hin). apply filter_In in Hin. destruct Hin as [Hin Hk].
    split; [eauto|]. intros Heq. apply same_key_eq in Heq. rewrite Heq in Hk. discriminate.
  - intros [(entry & <- & Hin) Hne]. exists entry. split; [reflexivity|].
    apply filter_In. split; [exact Hin|].
    destruct (same_key node id status entry) eqn:E; [|reflexivity].
    apply same_key_eq in E. contradiction.
Qed.

Lemma lru_drop_nodup node id status cache :
  NoDup (cache_keys cache) -> NoDup (cache_keys (lru_drop node id status cache)).
Proof.
  unfold cache_keys, lru_drop.
  induction cache as [|entry cache IH]; simpl; [auto|].
  intros H. inversion H as [|k ks Hnotin Hrest]; subst.
  destruct (negb _); [|auto].
  simpl. constructor; [|auto].
  intros Hin. apply Hnotin. apply list_elem_of_In. apply list_elem_of_In in Hin.
  apply in_map_iff in Hin. destruct Hin as (e & He & Hin).
  apply filter_In in Hin. apply in_map_iff. exists e. tauto.
Qed.

Lemma classic_key (k k' : string * string * string) : k = k' \/ k <> k'.
Proof. destruct (decide (k = k')); auto. Qed.

(** ** What a computation leaves alone *)

Lemma frame_refl P s : frame P s s.
Proof. split; [reflexivity|]. exists []. rewrite app_nil_r. auto. Qed.

Lemma frame_trans P s1 s2 s3 : frame P s1 s2 -> frame P s2 s3 -> frame P s1 s3.
Proof.
  intros (Hl & l & Hc & Hp) (Hl' & l' & Hc' & Hp').
  split; [congruence|]. exists (l ++ l'). rewrite Hc', Hc, app_assoc.
  split; [reflexivity|]. rewrite forallb_app, Hp, Hp'. reflexivity.
Qed.

Lemma frame_docker {A} (P : event -> bool) node c (resp : list event -> result A) :
  P (node, c) = true -> respects (frame P) (docker node c resp).
Proof.
  intros HP s. split; [reflexivity|]. exists [(node, c)].
  split; [reflexivity|]. simpl. rewrite HP. reflexivity.
Qed.

Lemma frame_command w (P : event -> bool) node c :
  P (node, c) = true -> respects (frame P) (command w node c).
Proof. apply frame_docker. Qed.

Lemma frame_silent {A} P (m : M A) :
  (forall s, lru (snd (m s)) = lru s /\ calls (snd (m s)) = calls s) ->
  respects (frame P) m.
Proof.
  intros H s. destruct (H s) as [Hl Hc]. split; [exact Hl|].
  exists []. rewrite app_nil_r. auto.
Qed.

Lemma frame_logging P m : respects (frame P) (logging m).
Proof. apply frame_silent. intros s. split; reflexivity. Qed.

Lemma frame_datetime_now w P : respects (frame P) (datetime_now w).
Proof. apply frame_silent. intros s. split; reflexivity. Qed.

Lemma frame_fresh_uuid w P : respects (frame P) (fresh_uuid w).
Proof. apply frame_silent. intros s. split; reflexivity. Qed.

Lemma frame_setitem P a k v : respects (frame P) (setitem a k v).
Proof. apply frame_silent. intros s. split; reflexivity. Qed.

Lemma filter_shorter {A} (f : A -> bool) l x :
  In x l -> f x = false -> (length (List.filter f l) < length l)%nat.
Proof.
  induction l as [|y l IH]; simpl; [tauto|].
  intros [->|Hin] Hx.
  - rewrite Hx. pose proof (List.filter_length_le f l). lia.
  - specialize (IH Hin Hx). destruct (f y); simpl; lia.
Qed.

Lemma lru_find_in node id status cache container :
  lru_find node id status cache = Some container ->
  In (node, id, status, container) cache.
Proof.
  induction cache as [|entry cache IH]; simpl; [discriminate|].
  destruct (same_key node id status entry) eqn:E; [|auto].
  apply same_key_eq in E. intros [= <-]. left.
  destruct entry as [k c]. simpl in E. subst k. reflexivity.
Qed.

(** Settles that a call satisfies one of the predicates on calls. *)
Ltac close_call :=
  cbv [after_details inventory_call_on inventory_call no_inspect is_inspect
       any_call fst snd negb];
  rewrite ?String.eqb_refl; reflexivity.

(** Takes a computation apart along its [bind]s, for [frame P]. *)
Ltac frame_steps P :=
  repeat first
    [ apply (respects_ret (frame P) (frame_refl P))
    | apply (respects_raise (frame P) (frame_refl P))
    | apply (respects_lift (frame P) (frame_refl P))
    | apply frame_logging | apply frame_datetime_now | apply frame_fresh_uuid
    | apply frame_setitem
    | apply (respects_node_connection (frame P) (frame_refl P))
    | apply frame_command; close_call
    | apply frame_docker; close_call
    | apply (respects_bind (frame P) (frame_trans P)); [|intros ?] ].

Section CacheAndInventory.

Variable w : World.
Variable self : Connection.

(** What a lookup of the details does, hit or miss. *)
Lemma details_shape node id status s :
  let run := _get_lru_instance_details w self node id status s in
  (exists container,
      lru_find node id status (lru s) = Some container /\
      run = (Ok container,
             set_lru ((node, id, status, container) :: lru_drop node id status (lru s)) s))
  \/ (lru_find node id status (lru s) = None /\
      existsb (String.eqb node) (node_connections self) = false /\
      run = (Raise KeyError, s))
  \/ (lru_find node id status (lru s) = None /\
      existsb (String.eqb node) (node_connections self) = true /\
      let s1 := set_calls (fun l => l ++ [(node, InspectContainer id)]) s in
      match inspect_resp w (calls s) node id with
      | Ok container =>
          run = (Ok container,
                 set_lru (take lru_cache_size ((node, id, status, container) :: lru s)) s1)
      | Raise e => run = (Raise e, s1)
      end).
Proof.
  cbv zeta. unfold _get_lru_instance_details.
  destruct (lru_find node id status (lru s)) as [c|] eqn:Hfind; [left; eauto|].
  right. unfold node_connection.
  destruct (existsb (String.eqb node) (node_connections self)); [right|left; auto].
  split; [reflexivity|]. split; [reflexivity|].
  unfold bind, ret, docker. destruct (inspect_resp w (calls s) node id); reflexivity.
Qed.

(** X1.  Details that were obtained once are served from the cache the
    next time: the same record comes back and no call is made. *)
Theorem details_are_reused node id status s container s1 :
  _get_lru_instance_details w self node id status s = (Ok container, s1) ->
  fst (_get_lru_instance_details w self node id status s1) = Ok container /\
  calls (snd (_get_lru_instance_details w self node id status s1)) = calls s1.
Proof.
  intros Hrun.
  assert (Hfront : exists tail, lru s1 = (node, id, status, container) :: tail).
  { destruct (details_shape node id status s)
      as [(c & _ & H)|[(_ & _ & H)|(_ & _ & H)]]; cbv zeta in H.
    - rewrite Hrun in H. injection H as -> ->. eexists. reflexivity.
    - rewrite Hrun in H. discriminate.
    - destruct (inspect_resp w (calls s) node id); rewrite Hrun in H; [|discriminate].
      injection H as -> ->. eexists. reflexivity. }
  destruct Hfront as [tail Hfront].
  unfold _get_lru_instance_details. rewrite Hfront. cbn [lru_find].
  rewrite same_key_refl. split; reflexivity.
Qed.

(** The cache after a lookup of details: within its size, without a key
    twice, if it was so before. *)
Lemma details_keep_cache node id status s :
  lru_ok s -> lru_ok (snd (_get_lru_instance_details w self node id status s)).
Proof.
  intros [Hlen Hnodup].
  destruct (details_shape node id status s)
    as [(c & Hfind & H)|[(_ & _ & H)|(Hfind & _ & H)]]; cbv zeta in H.
  - rewrite H. unfold lru_ok. cbn [snd lru set_lru cache_keys map length fst].
    apply lru_find_in in Hfind.
    split.
    + assert (Hlt : (length (lru_drop node id status (lru s)) < length (lru s))%nat).
      { unfold lru_drop. apply filter_shorter with (x := (node, id, status, c));
          [exact Hfind|].
        apply negb_false_iff, same_key_refl. }
      lia.
    + apply NoDup_cons. split; [|apply lru_drop_nodup; exact Hnodup].
      intros Hk. apply list_elem_of_In, lru_drop_keys in Hk. destruct Hk as [_ Hk]. congruence.
  - rewrite H. split; assumption.
  - destruct (inspect_resp w (calls s) node id) as [c|e]; rewrite H; [|split; assumption].
    unfold lru_ok. cbn [snd lru set_lru set_calls].
    split; [rewrite length_take; lia|].
    unfold cache_keys. rewrite <- firstn_map.
    eapply sublist_NoDup; [|apply sublist_take]. cbn [map fst]. apply NoDup_cons.
    split; [|exact Hnodup].
    intros Hk. apply list_elem_of_In in Hk. apply lru_find_none in Hfind. contradiction.
Qed.

End CacheAndInventory.

Section InventorySteps.

Variable w : World.
Variable self : Connection.

(** The three outcomes of one turn of the loop, as far as the state
    goes: nothing happened; the lookup of the details raised; or the
    details came and what follows leaves the cache alone and only
    repairs or removes on the node. *)
Lemma step_state node acc c s :
  let run := inventory_step w self node acc c s in
  match coarse_status (c_Status c) with
  | Raise e => run = (Raise e, s)
  | Ok status =>
      if inspected c then
        let details := _get_lru_instance_details w self node (c_Id c) status s in
        match fst details with
        | Raise e => run = (Raise e, snd details)
        | Ok _ => frame (after_details node) (snd details) (snd run)
        end
      else run = (Ok acc, s)
  end.
Proof.
  intros run.
  assert (Hrun : run = inventory_step w self node acc c s) by reflexivity.
  clearbody run. unfold inventory_step in Hrun. unfold inspected, selected.
  destruct (coarse_status (c_Status c)) as [status|e]; [|exact Hrun].
  unfold bind at 1, lift at 1 in Hrun.
  destruct (Py.startswith "Up " (c_Status c)); cbn [negb orb andb] in *.
  - destruct (c_Ports c) as [|p [|q ps]]; try exact Hrun.
    destruct (p =? 8080); [|exact Hrun].
    unfold bind at 1 in Hrun. cbv zeta.
    destruct (_get_lru_instance_details w self node (c_Id c) status s) as [[d|e] s1];
      [|exact Hrun].
    cbn [fst snd]. rewrite Hrun. clear Hrun.
    match goal with |- frame _ _ (snd (?m s1)) =>
      revert s1; change (respects (frame (after_details node)) m)
    end.
    frame_steps (after_details node).
  - unfold bind at 1 in Hrun. cbv zeta.
    destruct (_get_lru_instance_details w self node (c_Id c) status s) as [[d|e] s1];
      [|exact Hrun].
    cbn [fst snd]. rewrite Hrun. clear Hrun.
    match goal with |- frame _ _ (snd (?m s1)) =>
      revert s1; change (respects (frame (after_details node)) m)
    end.
    frame_steps (after_details node).
    destruct (String.eqb _ _); frame_steps (after_details node).
    destruct (_ >? _); frame_steps (after_details node).
Qed.

(** What one turn of the loop adds to the instances. *)
Lemma step_result node acc c s r s' :
  inventory_step w self node acc c s = (Ok r, s') ->
  if selected c
  then exists i, inst_node i = node /\ r = acc ++ [i]
  else r = acc.
Proof.
  unfold inventory_step, selected, bind, lift, ret.
  destruct (coarse_status _); [|discriminate].
  destruct (Py.startswith "Up " (c_Status c)); cbn [negb andb].
  - destruct (c_Ports c) as [|p [|q ps]]; try (intros [= <- _]; reflexivity).
    destruct (p =? 8080); [|intros [= <- _]; reflexivity].
    destruct (_get_lru_instance_details _ _ _ _ _ _) as [[rec|] s1]; [|discriminate].
    destruct (__get_instance node rec) as [i|] eqn:Hi; [|discriminate].
    intros [= <- _]. exists i. split; [|reflexivity].
    eapply get_instance_node; eauto.
  - destruct (_get_lru_instance_details _ _ _ _ _ _) as [[rec|] s1]; [|discriminate].
    destruct (Datetime.strptime _); [|discriminate].
    destruct (String.eqb _ _).
    + unfold logging, command, docker.
      destruct (command_resp _ _ _ _); [discriminate|].
      destruct (command_resp _ _ _ _); [discriminate|].
      intros [= <- _]. reflexivity.
    + unfold datetime_now. destruct (_ >? _).
      * unfold logging, command, docker.
        destruct (command_resp _ _ _ _); [discriminate|].
        intros [= <- _]. reflexivity.
      * intros [= <- _]. reflexivity.
Qed.

Lemma loop_result node cs : forall acc s r s',
  inventory_loop w self node cs acc s = (Ok r, s') ->
  exists new,
    r = acc ++ new /\
    length new = length (List.filter selected cs) /\
    Forall (fun i => inst_node i = node) new.
Proof.
  induction cs as [|c cs IH]; intros acc s r s'; simpl.
  - intros [= <- _]. exists []. rewrite app_nil_r. auto.
  - unfold bind at 1.
    destruct (inventory_step w self node acc c s) as [[a|] s1] eqn:E; [|discriminate].
    intros Hrest. apply step_result in E.
    destruct (IH _ _ _ _ Hrest) as (new & -> & Hlen & Hall).
    destruct (selected c).
    + destruct E as (i & Hi & ->). exists (i :: new).
      rewrite <- app_assoc. simpl. rewrite Hlen. auto.
    + subst a. exists new. auto.
Qed.


End InventorySteps.

(** ** The cache across an inventory *)

Lemma adds_refl P s : adds P s s.
Proof. exists []. rewrite app_nil_r. auto. Qed.

Lemma adds_same P s s' : calls s' = calls s -> adds P s s'.
Proof. intros H. exists []. rewrite app_nil_r. auto. Qed.

Lemma adds_trans P s1 s2 s3 : adds P s1 s2 -> adds P s2 s3 -> adds P s1 s3.
Proof.
  intros (l & Hc & Hp) (l' & Hc' & Hp').
  exists (l ++ l'). rewrite Hc', Hc, app_assoc.
  split; [reflexivity|]. rewrite forallb_app, Hp, Hp'. reflexivity.
Qed.

Lemma adds_mono (P Q : event -> bool) s s' :
  (forall e, P e = true -> Q e = true) -> adds P s s' -> adds Q s s'.
Proof. intros HPQ (l & Hc & Hp). exists l. split; [exact Hc|]. eapply forallb_mono; eauto. Qed.

Lemma frame_adds P s s' : frame P s s' -> adds P s s'.
Proof. intros [_ H]. exact H. Qed.

Lemma after_details_on node e : after_details node e = true -> inventory_call_on node e = true.
Proof. unfold after_details. intros [H _]%andb_prop. exact H. Qed.

Lemma after_details_no_inspect node e : after_details node e = true -> no_inspect e = true.
Proof. unfold after_details. intros [_ H]%andb_prop. exact H. Qed.

Lemma lru_ok_same s s' : lru s' = lru s -> lru_ok s -> lru_ok s'.
Proof. unfold lru_ok. intros ->. auto. Qed.

Lemma keeps_cache_refl s : keeps_cache s s.
Proof. intros H. exact H. Qed.

Lemma keeps_cache_trans s1 s2 s3 : keeps_cache s1 s2 -> keeps_cache s2 s3 -> keeps_cache s1 s3.
Proof. unfold keeps_cache. auto. Qed.

Lemma keeps_keys_refl s : keeps_keys s s.
Proof. intros k H. exact H. Qed.

Lemma keeps_keys_trans s1 s2 s3 : keeps_keys s1 s2 -> keeps_keys s2 s3 -> keeps_keys s1 s3.
Proof. unfold keeps_keys. auto. Qed.

Lemma keeps_keys_same s s' : lru s' = lru s -> keeps_keys s s'.
Proof. intros H k. rewrite H. auto. Qed.

Section CacheAcrossInventory.

Variable w : World.
Variable self : Connection.

Lemma details_adds node id status s :
  adds (inventory_call_on node) s (snd (_get_lru_instance_details w self node id status s)).
Proof.
  destruct (details_shape w self node id status s)
    as [(c & _ & H)|[(_ & _ & H)|(_ & _ & H)]]; cbv zeta in H.
  - rewrite H. apply adds_same. reflexivity.
  - rewrite H. apply adds_refl.
  - assert (Hone : adds (inventory_call_on node) s
                     (set_calls (fun l => l ++ [(node, InspectContainer id)]) s)).
    { exists [(node, InspectContainer id)]. split; [reflexivity|].
      cbn [forallb]. rewrite andb_true_r. close_call. }
    destruct (inspect_resp w (calls s) node id); rewrite H; exact Hone.
Qed.

(** A lookup whose key is in the cache makes no call and succeeds. *)
Lemma details_hit node id status s :
  In (node, id, status) (cache_keys (lru s)) ->
  let run := _get_lru_instance_details w self node id status s in
  (exists container, fst run = Ok container) /\
  calls (snd run) = calls s /\
  keeps_keys s (snd run).
Proof.
  intros Hin. cbv zeta.
  destruct (lru_find_some _ _ _ _ Hin) as [c Hfind].
  unfold _get_lru_instance_details. rewrite Hfind. cbn [fst snd calls set_lru lru].
  split; [eauto|]. split; [reflexivity|].
  intros k Hk. cbn [lru set_lru cache_keys map fst].
  destruct (classic_key k (node, id, status)) as [->|Hne]; [left; reflexivity|].
  right. apply lru_drop_keys. auto.
Qed.

(** A lookup in a cache that is not full loses no key and adds at most
    one; the key asked for is there when the lookup succeeds. *)
Lemma details_grow node id status s :
  let run := _get_lru_instance_details w self node id status s in
  ((length (lru s) < lru_cache_size)%nat ->
   keeps_keys s (snd run) /\ (length (lru (snd run)) <= S (length (lru s)))%nat) /\
  (forall container, fst run = Ok container ->
   In (node, id, status) (cache_keys (lru (snd run)))).
Proof.
  cbv zeta.
  destruct (details_shape w self node id status s)
    as [(c & Hfind & H)|[(_ & _ & H)|(Hfind & _ & H)]]; cbv zeta in H.
  - rewrite H. cbn [fst snd lru set_lru]. split.
    + intros _. split.
      * intros k Hk. cbn [cache_keys map fst].
        destruct (classic_key k (node, id, status)) as [->|Hne]; [left; reflexivity|].
        right. apply lru_drop_keys. auto.
      * cbn [length]. unfold lru_drop. pose proof (List.filter_length_le
          (fun entry => negb (same_key node id status entry)) (lru s)). lia.
    + intros _ _. left. reflexivity.
  - rewrite H. cbn [fst snd]. split; [|discriminate].
    intros _. split; [apply keeps_keys_refl|lia].
  - destruct (inspect_resp w (calls s) node id) as [c|e]; rewrite H; cbn [fst snd].
    + cbn [lru set_lru set_calls]. split.
      * intros Hlt. rewrite take_ge by (cbn [length]; lia).
        split; [intros k Hk; right; exact Hk|cbn [length]; lia].
      * intros _ _. change lru_cache_size with (S 1023). left. reflexivity.
    + split; [|discriminate]. intros _.
      split; [apply keeps_keys_same; reflexivity|cbn; lia].
Qed.

End CacheAcrossInventory.

Section PassFacts.

Variable w : World.
Variable self : Connection.

Lemma key_of_status node c status :
  coarse_status (c_Status c) = Ok status -> key_of node c = (node, c_Id c, status).
Proof. unfold key_of. intros ->. reflexivity. Qed.

Lemma step_keeps_cache node acc c : respects keeps_cache (inventory_step w self node acc c).
Proof.
  intros s Hok. pose proof (step_state w self node acc c s) as H. cbv zeta in H.
  destruct (coarse_status (c_Status c)) as [status|e]; [|rewrite H; exact Hok].
  destruct (inspected c); [|rewrite H; exact Hok].
  pose proof (details_keep_cache w self node (c_Id c) status s Hok) as Hd.
  destruct (fst (_get_lru_instance_details w self node (c_Id c) status s)).
  - destruct H as [Hl _]. eapply lru_ok_same; eauto.
  - rewrite H. exact Hd.
Qed.

Lemma step_adds node acc c :
  respects (adds (inventory_call_on node)) (inventory_step w self node acc c).
Proof.
  intros s. pose proof (step_state w self node acc c s) as H. cbv zeta in H.
  destruct (coarse_status (c_Status c)) as [status|e]; [|rewrite H; apply adds_refl].
  destruct (inspected c); [|rewrite H; apply adds_refl].
  pose proof (details_adds w self node (c_Id c) status s) as Hd.
  destruct (fst (_get_lru_instance_details w self node (c_Id c) status s)).
  - eapply adds_trans; [exact Hd|].
    eapply adds_mono; [apply after_details_on|]. apply frame_adds. exact H.
  - rewrite H. exact Hd.
Qed.

(** With the details of the container in the cache, a turn of the loop
    makes no inspection. *)
Lemma step_hit node acc c s :
  (inspected c = true -> In (key_of node c) (cache_keys (lru s))) ->
  adds no_inspect s (snd (inventory_step w self node acc c s)) /\
  keeps_keys s (snd (inventory_step w self node acc c s)).
Proof.
  intros Hin. pose proof (step_state w self node acc c s) as H. cbv zeta in H.
  destruct (coarse_status (c_Status c)) as [status|e] eqn:Hs;
    [|rewrite H; split; [apply adds_refl|apply keeps_keys_refl]].
  destruct (inspected c); [|rewrite H; split; [apply adds_refl|apply keeps_keys_refl]].
  specialize (Hin eq_refl). rewrite (key_of_status _ _ _ Hs) in Hin.
  destruct (details_hit w self node (c_Id c) status s Hin) as ([d Hd] & Hcalls & Hkeys).
  rewrite Hd in H. split.
  - eapply adds_trans; [apply adds_same; exact Hcalls|].
    eapply adds_mono; [apply after_details_no_inspect|]. apply frame_adds. exact H.
  - eapply keeps_keys_trans; [exact Hkeys|]. apply keeps_keys_same. apply H.
Qed.

Lemma step_grow node acc c s :
  (length (lru s) < lru_cache_size)%nat ->
  let s' := snd (inventory_step w self node acc c s) in
  keeps_keys s s' /\ (length (lru s') <= S (length (lru s)))%nat /\
  (forall r, fst (inventory_step w self node acc c s) = Ok r ->
   inspected c = true -> In (key_of node c) (cache_keys (lru s'))).
Proof.
  intros Hlt. cbv zeta.
  pose proof (step_state w self node acc c s) as H. cbv zeta in H.
  destruct (coarse_status (c_Status c)) as [status|e] eqn:Hs.
  2: { rewrite H. cbn [fst snd]. split; [apply keeps_keys_refl|]. split; [lia|discriminate]. }
  destruct (inspected c).
  2: { rewrite H. cbn [fst snd]. split; [apply keeps_keys_refl|]. split; [lia|discriminate]. }
  destruct (details_grow w self node (c_Id c) status s) as [Hg Hk]. cbv zeta in Hg, Hk.
  destruct (Hg Hlt) as [Hkeys Hlen].
  destruct (fst (_get_lru_instance_details w self node (c_Id c) status s)) as [d|e].
  - destruct H as [Hl _]. split; [|split].
    + eapply keeps_keys_trans; [exact Hkeys|]. apply keeps_keys_same. exact Hl.
    + rewrite Hl. exact Hlen.
    + intros r _ _. rewrite Hl, (key_of_status _ _ _ Hs). eapply Hk. reflexivity.
  - rewrite H. cbn [fst snd]. split; [exact Hkeys|]. split; [exact Hlen|discriminate].
Qed.

Lemma loop_keeps_cache node cs : forall acc,
  respects keeps_cache (inventory_loop w self node cs acc).
Proof.
  induction cs as [|c cs IH]; intros acc; simpl.
  - apply (respects_ret _ keeps_cache_refl).
  - apply (respects_bind _ keeps_cache_trans); [apply step_keeps_cache|intros a; apply IH].
Qed.

Lemma loop_adds node cs : forall acc,
  respects (adds (inventory_call_on node)) (inventory_loop w self node cs acc).
Proof.
  induction cs as [|c cs IH]; intros acc; simpl.
  - apply (respects_ret _ (adds_refl _)).
  - apply (respects_bind _ (adds_trans _)); [apply step_adds|intros a; apply IH].
Qed.

Lemma loop_hit node cs : forall acc s,
  (forall c, In c cs -> inspected c = true -> In (key_of node c) (cache_keys (lru s))) ->
  adds no_inspect s (snd (inventory_loop w self node cs acc s)).
Proof.
  induction cs as [|c cs IH]; intros acc s Hall; simpl; [apply adds_refl|].
  destruct (step_hit node acc c s (Hall c (or_introl eq_refl))) as [Hadds Hkeys].
  unfold bind.
  destruct (inventory_step w self node acc c s) as [[a|e] s1]; cbn [snd] in *; [|exact Hadds].
  eapply adds_trans; [exact Hadds|]. apply IH.
  intros c' Hc' Hi. apply Hkeys. apply Hall; [right; exact Hc'|exact Hi].
Qed.

Lemma loop_grow node cs : forall acc s r s',
  (length (lru s) + length cs <= lru_cache_size)%nat ->
  inventory_loop w self node cs acc s = (Ok r, s') ->
  keeps_keys s s' /\
  (forall c, In c cs -> inspected c = true -> In (key_of node c) (cache_keys (lru s'))).
Proof.
  induction cs as [|c cs IH]; intros acc s r s' Hroom; simpl.
  - intros [= _ <-]. split; [apply keeps_keys_refl|tauto].
  - unfold bind. simpl in Hroom.
    destruct (step_grow node acc c s ltac:(lia)) as (Hkeys & Hlen & Hkey).
    destruct (inventory_step w self node acc c s) as [[a|e] s1]; [|discriminate].
    cbn [fst snd] in *. intros Hrest.
    destruct (IH a s1 r s' ltac:(lia) Hrest) as [Hkeys' Hall].
    split; [eapply keeps_keys_trans; eauto|].
    intros c' [<-|Hc'] Hi; [|auto]. apply Hkeys'. eapply Hkey; eauto.
Qed.

(** X3.  Two passes over the same listing of a node, the first one a
    success in a cache with room for the listing: the second pass makes
    no inspection at all. *)
Theorem second_inventory_inspects_nothing node s0 cs r s1 :
  (length (lru s0) + length cs <= lru_cache_size)%nat ->
  containers_resp w (calls s0) node = Ok cs ->
  get_node_instances w self node s0 = (Ok r, s1) ->
  containers_resp w (calls s1) node = Ok cs ->
  adds no_inspect s1 (snd (get_node_instances w self node s1)).
Proof.
  intros Hroom Hlist Hfirst Hagain.
  assert (Hcached : forall c, In c cs -> inspected c = true ->
                     In (key_of node c) (cache_keys (lru s1))).
  { revert Hfirst. unfold get_node_instances, node_connection.
    destruct (existsb _ _); [|discriminate].
    unfold bind at 1, ret. unfold bind at 1, docker. rewrite Hlist.
    intros Hloop. eapply loop_grow; [|exact Hloop]. exact Hroom. }
  unfold get_node_instances, node_connection.
  destruct (existsb _ _); [|apply adds_refl].
  unfold bind at 1, ret. unfold bind at 1, docker. rewrite Hagain.
  eapply adds_trans; [|apply loop_hit; exact Hcached].
  exists [(node, Containers)]. split; reflexivity.
Qed.

End PassFacts.

(** ** The cache under every operation *)

Lemma frame_keeps_cache P s s' : frame P s s' -> keeps_cache s s'.
Proof. intros [Hl _] Hok. eapply lru_ok_same; eauto. Qed.

Lemma keeps_cache_frame {A} P (m : M A) : respects (frame P) m -> respects keeps_cache m.
Proof. intros H s. eapply frame_keeps_cache. apply H. Qed.

(** Takes a computation apart along its [bind]s, for [keeps_cache];
    the leaves that leave the cache alone are closed. *)
Ltac cache_steps :=
  repeat first
    [ apply (respects_ret keeps_cache keeps_cache_refl)
    | apply (respects_raise keeps_cache keeps_cache_refl)
    | apply (respects_lift keeps_cache keeps_cache_refl)
    | apply (respects_node_connection keeps_cache keeps_cache_refl)
    | solve [apply (keeps_cache_frame any_call); frame_steps any_call]
    | match goal with
      | |- respects _ (bind _ _) =>
          apply (respects_bind keeps_cache keeps_cache_trans); [|intros ?]
      | |- respects _ (try_except _ _) =>
          apply (respects_try keeps_cache keeps_cache_trans); [|intros ?]
      end ].

Section CacheEverywhere.

Variable w : World.
Variable self : Connection.

Lemma get_node_instances_keeps_cache node :
  respects keeps_cache (get_node_instances w self node).
Proof. unfold get_node_instances. cache_steps. apply loop_keeps_cache. Qed.

Lemma collect_keeps_cache nodes : forall acc,
  respects keeps_cache (collect w self nodes acc).
Proof.
  induction nodes as [|n nodes IH]; intros acc; simpl; cache_steps;
    [apply get_node_instances_keeps_cache | apply IH].
Qed.

Lemma get_instances_keeps_cache node_filter :
  respects keeps_cache (get_instances w self node_filter).
Proof. apply collect_keeps_cache. Qed.

Lemma get_node_keeps_cache name : respects keeps_cache (get_node w self name).
Proof.
  unfold get_node. destruct (negb _); cache_steps.
  - apply get_instances_keeps_cache.
  - match goal with e : exn |- _ => destruct e end; cache_steps.
Qed.

Lemma collect_nodes_keeps_cache names : forall acc,
  respects keeps_cache (collect_nodes w self names acc).
Proof.
  induction names as [|n names IH]; intros acc; simpl; cache_steps;
    [apply get_node_keeps_cache | apply IH].
Qed.

Lemma start_instance_keeps_cache app slug_uri node port env slots hostname :
  respects keeps_cache (start_instance w self app slug_uri node port env slots hostname).
Proof.
  unfold start_instance. cache_steps; [apply get_instances_keeps_cache|].
  destruct (_ >? _); cache_steps.
  intros s. apply (frame_keeps_cache any_call).
  match goal with |- frame _ _ (snd (docker ?n ?c ?r s)) =>
    apply (frame_docker any_call n c r eq_refl s)
  end.
Qed.

Lemma stop_loop_keeps_cache instance_id instances :
  respects keeps_cache (stop_loop w self instance_id instances).
Proof.
  induction instances as [|i instances IH]; simpl; cache_steps.
  destruct (String.eqb _ _); [cache_steps|exact IH].
Qed.

Lemma stop_instance_keeps_cache instance_id :
  respects keeps_cache (stop_instance w self instance_id).
Proof.
  unfold stop_instance. cache_steps;
    [apply get_instances_keeps_cache|apply stop_loop_keeps_cache].
Qed.

Lemma get_logs_keeps_cache instance_id follow :
  respects keeps_cache (get_logs w self instance_id follow).
Proof.
  unfold get_logs. cache_steps; [apply get_instances_keeps_cache|].
  destruct (List.filter _ _); cache_steps. destruct follow; cache_steps.
Qed.

(** X2.  The cache of inspections stays within its size and holds no
    key twice, whatever operation of the connection runs. *)
Theorem cache_stays_in_order s :
  lru_ok s ->
  (forall node_filter, lru_ok (snd (get_instances w self node_filter s))) /\
  (forall name, lru_ok (snd (get_node w self name s))) /\
  lru_ok (snd (get_nodes w self s)) /\
  (forall app slug_uri node port env slots hostname,
     lru_ok (snd (start_instance w self app slug_uri node port env slots hostname s))) /\
  (forall instance_id, lru_ok (snd (stop_instance w self instance_id s))) /\
  (forall instance_id follow, lru_ok (snd (get_logs w self instance_id follow s))).
Proof.
  intros Hok. split; [|split; [|split; [|split; [|split]]]]; intros.
  - apply get_instances_keeps_cache, Hok.
  - apply get_node_keeps_cache, Hok.
  - apply collect_nodes_keeps_cache, Hok.
  - apply start_instance_keeps_cache, Hok.
  - apply stop_instance_keeps_cache, Hok.
  - apply get_logs_keeps_cache, Hok.
Qed.

End CacheEverywhere.

(** ** Where an inventory makes its calls *)

Section InventoryCalls.

Variable w : World.
Variable self : Connection.

Lemma get_node_instances_adds node :
  respects (adds (inventory_call_on node)) (get_node_instances w self node).
Proof.
  unfold get_node_instances.
  apply (respects_bind _ (adds_trans _));
    [apply (respects_node_connection _ (adds_refl _))|intros _].
  apply (respects_bind _ (adds_trans _)); [|intros cs; apply loop_adds].
  intros s. apply (frame_adds (inventory_call_on node)).
  apply frame_docker. close_call.
Qed.

Lemma adds_logging P m : respects (adds P) (logging m).
Proof. intros s. apply adds_same. reflexivity. Qed.

Lemma collect_adds (Q : string -> bool) nodes : forall acc,
  Forall (fun n => Q n = true) nodes ->
  respects (adds (fun e => inventory_call e && Q (fst e))) (collect w self nodes acc).
Proof.
  induction nodes as [|n nodes IH]; intros acc Hall; simpl.
  - apply (respects_ret _ (adds_refl _)).
  - inversion Hall as [|? ? Hn Hrest]; subst.
    apply (respects_bind _ (adds_trans _)); [|intros a; apply IH; exact Hrest].
    apply (respects_try _ (adds_trans _)).
    + apply (respects_bind _ (adds_trans _));
        [|intros r; apply (respects_ret _ (adds_refl _))].
      intros s. eapply adds_mono; [|apply get_node_instances_adds].
      intros e. unfold inventory_call_on. intros [He Hi]%andb_prop.
      apply String.eqb_eq in He. rewrite Hi, He, Hn. reflexivity.
    + intros e. apply (respects_bind _ (adds_trans _));
        [apply adds_logging|intros _; apply (respects_ret _ (adds_refl _))].
Qed.

Lemma collect_nodes_of (Q : string -> Prop) nodes : forall acc s r s',
  Forall Q nodes ->
  Forall (fun i => Q (inst_node i)) acc ->
  collect w self nodes acc s = (Ok r, s') ->
  Forall (fun i => Q (inst_node i)) r.
Proof.
  induction nodes as [|n nodes IH]; intros acc s r s' Hall Hacc; simpl.
  - intros [= <- _]. exact Hacc.
  - inversion Hall as [|? ? Hn Hrest]; subst.
    unfold bind at 1, try_except, bind at 1.
    destruct (get_node_instances w self n s) as [[l|e] s1] eqn:E; cbn.
    + apply IH; [exact Hrest|]. apply Forall_app. split; [exact Hacc|].
      revert E. unfold get_node_instances, node_connection.
      destruct (existsb _ _); [|discriminate].
      unfold bind at 1, ret. unfold bind at 1, docker.
      destruct (containers_resp w (calls s) n) as [cs|]; [|discriminate].
      intros Hloop. destruct (loop_result _ _ _ _ _ _ _ _ Hloop) as (new & -> & _ & Hnew).
      cbn [List.app]. eapply Forall_impl; [exact Hnew|].
      intros i Hi. cbn in Hi. rewrite Hi. exact Hn.
    + apply IH; assumption.
Qed.

Lemma filtered_nodes_pass node_filter :
  Forall (fun n => existsb (String.eqb n) (node_connections self)
                   && negb (filtered_out node_filter n) = true)
    (as_completed w (List.filter (fun node => negb (filtered_out node_filter node))
                       (node_connections self))).
Proof.
  apply List.Forall_forall. intros n Hin.
  apply (Permutation_in _ (as_completed_all w _)) in Hin.
  apply filter_In in Hin. destruct Hin as [Hin Hf]. rewrite Hf, andb_true_r.
  apply existsb_exists. exists n. split; [exact Hin|apply String.eqb_refl].
Qed.

Lemma get_instances_adds node_filter :
  respects (adds (inventory_call_under self node_filter))
    (get_instances w self node_filter).
Proof.
  intros s. eapply adds_mono;
    [|apply (collect_adds
               (fun n => existsb (String.eqb n) (node_connections self)
                         && negb (filtered_out node_filter n)));
      apply filtered_nodes_pass].
  intros e. unfold inventory_call_under. rewrite andb_assoc. auto.
Qed.

(** X5.  [get_instances] does not raise, whatever the daemons answer,
    and what it asks of them are the calls of an inventory, each on the
    client of a configured node that the filter lets through. *)
Theorem get_instances_never_raises node_filter s :
  (exists instances, fst (get_instances w self node_filter s) = Ok instances) /\
  adds (inventory_call_under self node_filter) s
    (snd (get_instances w self node_filter s)).
Proof.
  split.
  - destruct (get_instances_returns w self node_filter s) as (l & s' & ->). eauto.
  - apply get_instances_adds.
Qed.

(** X6.  With the name of a node as filter, every instance returned is
    on that node and every call goes to the client of that node. *)
Theorem node_filter_confines name s instances s' :
  name <> "" ->
  get_instances w self (Some name) s = (Ok instances, s') ->
  Forall (fun i => inst_node i = name) instances /\
  adds (inventory_call_on name) s s'.
Proof.
  intros Hname Hrun.
  assert (Hpass : forall n, negb (filtered_out (Some name) n) = true -> n = name).
  { intros n. cbn [filtered_out].
    destruct (String.eqb name "") eqn:E; [apply String.eqb_eq in E; contradiction|].
    cbn [negb andb]. rewrite negb_involutive. apply String.eqb_eq. }
  split.
  - eapply (collect_nodes_of (fun n => n = name)); [| |exact Hrun]; [|constructor].
    eapply Forall_impl; [apply (filtered_nodes_pass (Some name))|].
    intros n [_ Hn]%andb_prop. auto.
  - pose proof (get_instances_adds (Some name) s) as Hadds.
    rewrite Hrun in Hadds. cbn [snd] in Hadds.
    eapply adds_mono; [|exact Hadds].
    intros e. unfold inventory_call_under, inventory_call_on.
    intros [[Hi _]%andb_prop Hf]%andb_prop.
    rewrite Hi, andb_true_r. apply String.eqb_eq. auto.
Qed.

End InventoryCalls.

(** ** The state of a node and of the fleet *)

Section Nodes.

Variable w : World.
Variable self : Connection.

(** What [get_node] does, case by case. *)
Lemma get_node_cases name s :
  let run := get_node w self name s in
  if existsb (String.eqb name) (node_connections self) then
    match command_resp w (calls s) name Ping with
    | None =>
        exists instances s',
          get_instances w self (Some name) (pinged name s) = (Ok instances, s') /\
          run = (Ok (healthy self name (sum_slots instances)), s')
    | Some e =>
        if transport_error e
        then run = (Ok (unreachable name e),
                    add_log (ErrorCommunication name e) (pinged name s))
        else run = (Raise e, pinged name s)
    end
  else run = (Raise NoSuchNodeException, add_log (ErrorNotConfigured name) s).
Proof.
  intros run.
  assert (Hrun : run = get_node w self name s) by reflexivity.
  clearbody run. unfold get_node in Hrun.
  destruct (existsb (String.eqb name) (node_connections self)); [|exact Hrun].
  cbn [negb] in Hrun. unfold try_except in Hrun. unfold bind at 1 in Hrun.
  unfold command at 1, docker at 1 in Hrun. cbn [fst snd] in Hrun.
  fold (pinged name s) in Hrun.
  destruct (command_resp w (calls s) name Ping) as [e|].
  - destruct e; exact Hrun.
  - destruct (get_instances_returns w self (Some name) (pinged name s))
      as (instances & s' & Hinv).
    exists instances, s'. split; [exact Hinv|].
    unfold bind in Hrun. rewrite Hinv in Hrun. exact Hrun.
Qed.

(** X7.  A configured node whose ping fails with a connection error or
    a timeout is reported with no slots at all and the error as its
    state; nothing but the ping was asked of it. *)
Theorem get_node_unreachable name s e :
  existsb (String.eqb name) (node_connections self) = true ->
  command_resp w (calls s) name Ping = Some e ->
  transport_error e = true ->
  get_node w self name s =
    (Ok (unreachable name e), add_log (ErrorCommunication name e) (pinged name s)).
Proof.
  intros Hnode Hping He. pose proof (get_node_cases name s) as H. cbv zeta in H.
  rewrite Hnode, Hping, He in H. exact H.
Qed.

(** X8.  A configured node that answers the ping is reported healthy,
    with the slots of the instances that an inventory filtered on its
    name returns as the used ones, and used and free slots adding up
    to the slots of a node. *)
Theorem get_node_accounts name s :
  existsb (String.eqb name) (node_connections self) = true ->
  command_resp w (calls s) name Ping = None ->
  exists instances s',
    get_instances w self (Some name) (pinged name s) = (Ok instances, s') /\
    get_node w self name s = (Ok (healthy self name (sum_slots instances)), s') /\
    nd_used (healthy self name (sum_slots instances))
      + nd_free (healthy self name (sum_slots instances))
      = slots_per_node (config self).
Proof.
  intros Hnode Hping. pose proof (get_node_cases name s) as H. cbv zeta in H.
  rewrite Hnode, Hping in H. destruct H as (instances & s' & Hinv & Hrun).
  exists instances, s'. split; [exact Hinv|]. split; [exact Hrun|].
  cbn [healthy nd_used nd_free]. lia.
Qed.

(** X9.  [get_node] raises in two cases only: for a name that is not
    configured, and when the ping fails with something that is neither
    a connection error nor a timeout. *)
Theorem get_node_raises name s e :
  fst (get_node w self name s) = Raise e <->
  (existsb (String.eqb name) (node_connections self) = false
   /\ e = NoSuchNodeException)
  \/ (existsb (String.eqb name) (node_connections self) = true
      /\ command_resp w (calls s) name Ping = Some e
      /\ transport_error e = false).
Proof.
  pose proof (get_node_cases name s) as H. cbv zeta in H.
  destruct (existsb (String.eqb name) (node_connections self)).
  - destruct (command_resp w (calls s) name Ping) as [e'|].
    + destruct (transport_error e') eqn:He; rewrite H; cbn [fst]; split.
      * discriminate.
      * intros [[? _]|(_ & [= ->] & He')]; congruence.
      * intros [= ->]. right. auto.
      * intros [[? _]|(_ & [= ->] & _)]; [discriminate|reflexivity].
    + destruct H as (instances & s' & _ & ->). cbn [fst]. split; [discriminate|].
      intros [[? _]|(_ & ? & _)]; discriminate.
  - rewrite H. cbn [fst]. split.
    + intros [= <-]. left. auto.
    + intros [[_ ->]|[? _]]; [reflexivity|discriminate].
Qed.

Lemma collect_all_fail nodes : forall acc s,
  Forall (fun n => forall h, exists e, containers_resp w h n = Raise e) nodes ->
  fst (collect w self nodes acc s) = Ok acc.
Proof.
  induction nodes as [|n nodes IH]; intros acc s Hall; simpl; [reflexivity|].
  inversion Hall as [|? ? Hn Hrest]; subst.
  unfold bind at 1, try_except, bind at 1.
  assert (Hfail : exists e s1, get_node_instances w self n s = (Raise e, s1)).
  { unfold get_node_instances, node_connection.
    destruct (existsb _ _); [|eexists; eexists; reflexivity].
    unfold bind at 1, ret. unfold bind at 1, docker.
    destruct (Hn (calls s)) as [e ->]. eexists. eexists. reflexivity. }
  destruct Hfail as (e & s1 & ->). cbn. apply IH. exact Hrest.
Qed.

(** X10.  A node that answers the ping but not the listing of its
    containers is still reported healthy, with no slot in use. *)
Theorem get_node_healthy_without_listing name s :
  name <> "" ->
  existsb (String.eqb name) (node_connections self) = true ->
  command_resp w (calls s) name Ping = None ->
  (forall h, exists e, containers_resp w h name = Raise e) ->
  fst (get_node w self name s) = Ok (healthy self name 0).
Proof.
  intros Hname Hnode Hping Hfail. pose proof (get_node_cases name s) as H. cbv zeta in H.
  rewrite Hnode, Hping in H. destruct H as (instances & s' & Hinv & ->). cbn [fst].
  assert (Hnone : fst (get_instances w self (Some name) (pinged name s)) = Ok []).
  { apply collect_all_fail. eapply Forall_impl; [apply (filtered_nodes_pass w self (Some name))|].
    intros n [_ Hn]%andb_prop. cbn [filtered_out] in Hn.
    destruct (String.eqb name "") eqn:E; [apply String.eqb_eq in E; contradiction|].
    cbn [negb andb] in Hn. rewrite negb_involutive in Hn.
    apply String.eqb_eq in Hn. subst n. exact Hfail. }
  rewrite Hinv in Hnone. cbn [fst] in Hnone. injection Hnone as ->. reflexivity.
Qed.

Lemma get_node_id name s details s' :
  get_node w self name s = (Ok details, s') -> nd_id details = name.
Proof.
  pose proof (get_node_cases name s) as H. cbv zeta in H.
  destruct (existsb _ _); [|rewrite H; discriminate].
  destruct (command_resp w (calls s) name Ping) as [e|].
  - destruct (transport_error e); rewrite H; [|discriminate].
    intros [= <- _]. reflexivity.
  - destruct H as (instances & s1 & _ & ->). intros [= <- _]. reflexivity.
Qed.

Lemma collect_nodes_ids names : forall acc s,
  exists r new,
    fst (collect_nodes w self names acc s) = Ok r /\
    r = acc ++ new /\
    sublist (map nd_id new) names.
Proof.
  induction names as [|n names IH]; intros acc s; simpl.
  - exists acc, []. rewrite app_nil_r. auto using sublist_nil.
  - unfold bind at 1, try_except, bind at 1.
    destruct (get_node w self n s) as [[d|e] s1] eqn:E; cbn.
    + destruct (IH (acc ++ [d]) s1) as (r & new & Hr & -> & Hsub).
      exists ((acc ++ [d]) ++ new), (d :: new). split; [exact Hr|].
      split; [rewrite <- app_assoc; reflexivity|].
      cbn [map]. rewrite (get_node_id _ _ _ _ E). apply sublist_skip. exact Hsub.
    + destruct (IH acc (add_log (ErrorGettingDetails n e) s1)) as (r & new & Hr & -> & Hsub).
      exists (acc ++ new), new. split; [exact Hr|]. split; [reflexivity|].
      apply sublist_cons. exact Hsub.
Qed.

(** X11.  [get_nodes] does not raise; it reports nodes in the order in
    which their workers finish, each at most once and under its own
    name. *)
Theorem get_nodes_never_raises s :
  exists nodes,
    fst (get_nodes w self s) = Ok nodes /\
    sublist (map nd_id nodes) (as_completed w (node_connections self)).
Proof.
  destruct (collect_nodes_ids (as_completed w (node_connections self)) [] s)
    as (r & new & Hr & -> & Hsub).
  exists new. split; [exact Hr|exact Hsub].
Qed.

Lemma collect_nodes_all names : forall acc s,
  (forall h n e, command_resp w h n Ping = Some e -> transport_error e = true) ->
  Forall (fun n => existsb (String.eqb n) (node_connections self) = true) names ->
  exists new,
    fst (collect_nodes w self names acc s) = Ok (acc ++ new) /\
    map nd_id new = names.
Proof.
  induction names as [|n names IH]; intros acc s Hping Hall; simpl.
  - exists []. rewrite app_nil_r. auto.
  - inversion Hall as [|? ? Hn Hrest]; subst.
    unfold bind at 1, try_except, bind at 1.
    destruct (get_node w self n s) as [[d|e] s1] eqn:E; cbn.
    + destruct (IH (acc ++ [d]) s1 Hping Hrest) as (new & Hr & Hids).
      exists (d :: new). rewrite <- app_assoc in Hr. split; [exact Hr|].
      cbn [map]. rewrite (get_node_id _ _ _ _ E), Hids. reflexivity.
    + exfalso. assert (Hr : fst (get_node w self n s) = Raise e) by (rewrite E; reflexivity).
      pose proof (get_node_cases n s) as H. cbv zeta in H. rewrite Hn in H.
      destruct (command_resp w (calls s) n Ping) as [e'|] eqn:Hp.
      * rewrite (Hping _ _ _ Hp) in H. rewrite H in Hr. discriminate.
      * destruct H as (? & ? & _ & H). rewrite H in Hr. discriminate.
Qed.

(** X12.  When no ping fails with anything but a connection error or a
    timeout, [get_nodes] reports every configured node, once, in the
    order in which the workers finish. *)
Theorem get_nodes_reports_every_node s :
  (forall h n e, command_resp w h n Ping = Some e -> transport_error e = true) ->
  exists nodes,
    fst (get_nodes w self s) = Ok nodes /\
    map nd_id nodes = as_completed w (node_connections self).
Proof.
  intros Hping.
  destruct (collect_nodes_all (as_completed w (node_connections self)) [] s Hping)
    as (new & Hr & Hids).
  - apply List.Forall_forall. intros n Hin.
    apply (Permutation_in _ (as_completed_all w _)) in Hin.
    apply existsb_exists. exists n. split; [exact Hin|apply String.eqb_refl].
  - exists new. split; [exact Hr|exact Hids].
Qed.

End Nodes.

(** ** Launching a container *)

Lemma quiet_refl s : quiet s s.
Proof. split; reflexivity. Qed.

Lemma quiet_trans s1 s2 s3 : quiet s1 s2 -> quiet s2 s3 -> quiet s1 s3.
Proof. intros [H1 H2] [H3 H4]. split; congruence. Qed.

Lemma quiet_set_calls f s : quiet s (set_calls f s).
Proof. split; reflexivity. Qed.

Section Launch.

Variable w : World.
Variable self : Connection.

Lemma quiet_docker {A} node c (resp : list event -> result A) :
  respects quiet (docker node c resp).
Proof. intros s. split; reflexivity. Qed.

Lemma quiet_details node id status :
  respects quiet (_get_lru_instance_details w self node id status).
Proof.
  intros s.
  destruct (details_shape w self node id status s)
    as [(c & _ & H)|[(_ & _ & H)|(_ & _ & H)]]; cbv zeta in H.
  - rewrite H. split; reflexivity.
  - rewrite H. apply quiet_refl.
  - destruct (inspect_resp w (calls s) node id); rewrite H; split; reflexivity.
Qed.

(** Takes a computation apart along its [bind]s, for [quiet]. *)
Ltac quiet_steps :=
  repeat first
    [ apply (respects_ret quiet quiet_refl)
    | apply (respects_raise quiet quiet_refl)
    | apply (respects_lift quiet quiet_refl)
    | apply (respects_node_connection quiet quiet_refl)
    | apply quiet_details
    | match goal with
      | |- respects _ (docker _ _ _) => apply quiet_docker
      | |- respects _ (command _ _ _) => apply quiet_docker
      | |- respects _ (logging _) => intros ?; split; reflexivity
      | |- respects _ (datetime_now _) => intros ?; split; reflexivity
      | |- respects _ (bind _ _) =>
          apply (respects_bind quiet quiet_trans); [|intros ?]
      | |- respects _ (try_except _ _) =>
          apply (respects_try quiet quiet_trans); [|intros ?]
      end ].

Lemma quiet_step node acc c : respects quiet (inventory_step w self node acc c).
Proof.
  unfold inventory_step. quiet_steps.
  destruct (negb _).
  - quiet_steps. destruct (String.eqb _ _); quiet_steps.
    destruct (_ >? _); quiet_steps.
  - destruct (c_Ports c) as [|p [|q ps]]; quiet_steps.
    destruct (p =? 8080); quiet_steps.
Qed.

Lemma quiet_loop node cs : forall acc, respects quiet (inventory_loop w self node cs acc).
Proof.
  induction cs as [|c cs IH]; intros acc; simpl; quiet_steps; [apply quiet_step|apply IH].
Qed.

Lemma quiet_collect nodes : forall acc, respects quiet (collect w self nodes acc).
Proof.
  induction nodes as [|n nodes IH]; intros acc; simpl; quiet_steps; [|apply IH].
  unfold get_node_instances. quiet_steps. apply quiet_loop.
Qed.

Lemma quiet_get_instances node_filter : respects quiet (get_instances w self node_filter).
Proof. apply quiet_collect. Qed.

(** [start_instance], step by step: the inventory on the node, then
    the admission, then the launch for as long as the daemon agrees. *)
Lemma start_instance_shape app slug_uri node port env slots hostname s :
  let address := default default_environment env in
  let run := start_instance w self app slug_uri node port env slots hostname s in
  exists instances s1 inv,
    get_instances w self (Some node) (reserved_written address slug_uri s)
      = (Ok instances, s1) /\
    calls s1 = calls s ++ inv /\ forallb (inventory_call_under self (Some node)) inv = true /\
    let args :=
      create_args self app (uuid4 w (uuids s))
        (<["SLUG_URL" := slug_uri]> (<["PORT" := "8080"]> (environments s address)))
        (requested_slots self slots) hostname in
    if Z.of_nat (length instances) + requested_slots self slots
         >? slots_per_node (config self)
    then run = (Raise NodeOutOfCapacityException, s1)
    else if negb (existsb (String.eqb node) (node_connections self))
    then run = (Raise KeyError, s1)
    else
      match create_resp w (calls s1) node args with
      | Raise e =>
          fst run = Raise e /\
          calls (snd run) = calls s1 ++ [(node, CreateContainer args)]
      | Ok id =>
          let h2 := calls s1 ++ [(node, CreateContainer args)] in
          let h3 := h2 ++ [(node, Start id (Some [(8080, None)]))] in
          match command_resp w h2 node (Start id (Some [(8080, None)])) with
          | Some e => fst run = Raise e /\ calls (snd run) = h3
          | None =>
              fst run = match inspect_resp w h3 node id with
                        | Ok container => __get_instance node container
                        | Raise e => Raise e
                        end /\
              calls (snd run) = calls s1 ++ launch node args id
          end
      end.
Proof.
  intros address run.
  assert (Hrun : run = start_instance w self app slug_uri node port env slots hostname s)
    by reflexivity.
  clearbody run. unfold start_instance in Hrun. fold address in Hrun.
  unfold bind at 1, setitem at 1 in Hrun. unfold bind at 1, setitem at 1 in Hrun.
  cbn [environments set_environment] in Hrun. rewrite Nat.eqb_refl in Hrun.
  change (set_environment address
            (<["SLUG_URL" := slug_uri]> (<["PORT" := "8080"]> (environments s address)))
            (set_environment address (<["PORT" := "8080"]> (environments s address)) s))
    with (reserved_written address slug_uri s) in Hrun.
  destruct (get_instances_returns w self (Some node)
              (reserved_written address slug_uri s)) as (instances & s1 & Hinv).
  destruct (get_instances_adds w self (Some node)
              (reserved_written address slug_uri s)) as (inv & Hcalls & Hinvc).
  destruct (quiet_get_instances (Some node) (reserved_written address slug_uri s))
    as [Henv Huuid].
  rewrite Hinv in Hcalls, Henv, Huuid. cbn [snd] in Hcalls, Henv, Huuid.
  exists instances, s1, inv. split; [exact Hinv|]. split; [exact Hcalls|].
  split; [exact Hinvc|]. cbv zeta.
  unfold bind at 1 in Hrun. rewrite Hinv in Hrun.
  fold (requested_slots self slots) in Hrun.
  destruct (_ >? _); [exact Hrun|].
  unfold bind at 1, node_connection in Hrun.
  destruct (existsb (String.eqb node) (node_connections self)); [|exact Hrun].
  cbn [negb]. unfold ret at 1 in Hrun.
  unfold bind at 1, fresh_uuid at 1 in Hrun. unfold bind at 1, docker at 1 in Hrun.
  cbn [environments set_uuids calls] in Hrun.
  rewrite Henv, Huuid in Hrun.
  cbn [reserved_written environments set_environment uuids] in Hrun.
  rewrite Nat.eqb_refl in Hrun.
  fold (create_args self app (uuid4 w (uuids s))
          (<["SLUG_URL" := slug_uri]> (<["PORT" := "8080"]> (environments s address)))
          (requested_slots self slots) hostname) in Hrun.
  destruct (create_resp w (calls s1) node _) as [id|e].
  - unfold bind at 1, command at 1, docker at 1 in Hrun.
    cbn [calls set_calls set_uuids] in Hrun.
    destruct (command_resp w _ node (Start id (Some [(8080, None)]))) as [e|].
    + rewrite Hrun. cbn [fst snd calls set_calls set_uuids].
      rewrite <- app_assoc. split; reflexivity.
    + unfold bind, docker, lift in Hrun. cbn [calls set_calls set_uuids] in Hrun.
      destruct (inspect_resp w _ node id) as [c|e]; rewrite Hrun;
        cbn [fst snd calls set_calls set_uuids launch];
        rewrite <- !app_assoc; split; reflexivity.
  - rewrite Hrun. split; reflexivity.
Qed.

(** X13.  A [start_instance] that succeeds has made, after the calls of
    the inventory on the node, exactly three calls on the client of the
    node: the creation, with the slots as cpu shares, the memory of
    that many slots in bytes, the port 8080, the name of the
    application followed by an underscore and a fresh uuid, and the
    dictionary of the caller with PORT and SLUG_URL written over it;
    the start with the port 8080 unbound; and the inspection whose
    answer it returns. *)
Theorem start_instance_launches app slug_uri node port env slots hostname s i s' :
  start_instance w self app slug_uri node port env slots hostname s = (Ok i, s') ->
  let address := default default_environment env in
  let args :=
    create_args self app (uuid4 w (uuids s))
      (<["SLUG_URL" := slug_uri]> (<["PORT" := "8080"]> (environments s address)))
      (requested_slots self slots) hostname in
  exists inv id container,
    calls s' = calls s ++ inv ++ launch node args id /\
    forallb (inventory_call_under self (Some node)) inv = true /\
    create_resp w (calls s ++ inv) node args = Ok id /\
    inspect_resp w (calls s ++ inv ++ removelast (launch node args id)) node id
      = Ok container /\
    __get_instance node container = Ok i.
Proof.
  intros Hrun address args.
  destruct (start_instance_shape app slug_uri node port env slots hostname s)
    as (instances & s1 & inv & _ & Hcalls & Hinv & H).
  cbv zeta in H. fold address in H. fold args in H. rewrite Hrun in H.
  destruct (_ >? _); [discriminate|].
  destruct (negb _); [discriminate|].
  destruct (create_resp w (calls s1) node args) as [id|e] eqn:Hcreate;
    [|destruct H; discriminate].
  destruct (command_resp w _ node _); [destruct H; discriminate|].
  destruct H as [Hres Hlog]. cbn [fst snd] in Hres, Hlog.
  destruct (inspect_resp w _ node id) as [c|] eqn:Hinspect; [|discriminate].
  exists inv, id, c. rewrite Hcalls in *.
  split; [rewrite Hlog, <- app_assoc; reflexivity|]. split; [exact Hinv|].
  split; [exact Hcreate|]. split; [|symmetry; exact Hres].
  cbn [launch removelast]. rewrite <- Hinspect. f_equal.
  rewrite <- !app_assoc. reflexivity.
Qed.

(** X14.  Whatever its outcome, [start_instance] asks the daemons for
    the calls of an inventory on the node and then for a beginning of
    the launch: creation, start, inspection, in that order and each at
    most once, all on the client of the node. *)
Theorem start_instance_calls app slug_uri node port env slots hostname s :
  let address := default default_environment env in
  let run := start_instance w self app slug_uri node port env slots hostname s in
  let args :=
    create_args self app (uuid4 w (uuids s))
      (<["SLUG_URL" := slug_uri]> (<["PORT" := "8080"]> (environments s address)))
      (requested_slots self slots) hostname in
  exists inv tail id,
    calls (snd run) = calls s ++ inv ++ tail /\
    forallb (inventory_call_under self (Some node)) inv = true /\
    tail `prefix_of` launch node args id.
Proof.
  intros address run args.
  destruct (start_instance_shape app slug_uri node port env slots hostname s)
    as (instances & s1 & inv & _ & Hcalls & Hinv & H).
  cbv zeta in H. fold address in H. fold args in H. fold run in H.
  exists inv. rewrite Hcalls in H.
  destruct (_ >? _).
  { exists [], "". rewrite H, app_nil_r. cbn [snd].
    split; [congruence|]. split; [exact Hinv|]. apply prefix_nil. }
  destruct (negb _).
  { exists [], "". rewrite H, app_nil_r. cbn [snd].
    split; [congruence|]. split; [exact Hinv|]. apply prefix_nil. }
  destruct (create_resp w (calls s ++ inv) node args) as [id|e].
  - destruct (command_resp w _ node _).
    + exists [(node, CreateContainer args); (node, Start id (Some [(8080, None)]))], id.
      destruct H as [_ ->]. rewrite <- !app_assoc.
      split; [reflexivity|]. split; [exact Hinv|].
      exists [(node, InspectContainer id)]. reflexivity.
    + exists (launch node args id), id. destruct H as [_ ->]. rewrite <- !app_assoc.
      split; [reflexivity|]. split; [exact Hinv|]. reflexivity.
  - exists [(node, CreateContainer args)], "". destruct H as [_ ->]. rewrite <- !app_assoc.
    split; [reflexivity|]. split; [exact Hinv|].
    eexists. reflexivity.
Qed.

End Launch.

(** ** Splitting at the first separator *)

Lemma hd_split_split1 sep s :
  hd "" (Py.split sep s) =
    match Py.split1 sep s with
    | Some (a, _) => a
    | None => s
    end.
Proof.
  induction s as [|c s IH]; cbn [Py.split Py.split1]; [reflexivity|].
  destruct (Ascii.eqb c sep); [reflexivity|].
  destruct (Py.split sep s) as [|p ps] eqn:E; [destruct (split_nonempty _ _ E)|].
  cbn [hd] in *. destruct (Py.split1 sep s) as [[a v]|]; cbn [hd]; congruence.
Qed.

Lemma split1_app sep a b :
  contains sep a = false -> Py.split1 sep (a +:+ String sep b) = Some (a, b).
Proof.
  induction a as [|c a IH]; intros Ha.
  - change ("" +:+ String sep b) with (String sep b).
    cbn [Py.split1]. rewrite Ascii.eqb_refl. reflexivity.
  - cbn [contains] in Ha. apply orb_false_elim in Ha. destruct Ha as [Hc Ha].
    rewrite append_cons. cbn [Py.split1]. rewrite Hc, (IH Ha). reflexivity.
Qed.

Lemma split1_none_iff sep s : Py.split1 sep s = None <-> contains sep s = false.
Proof.
  induction s as [|c s IH]; cbn [Py.split1 contains]; [tauto|].
  destruct (Ascii.eqb c sep); cbn [orb]; [split; discriminate|].
  destruct (Py.split1 sep s) as [[k v]|]; [|tauto].
  split; [discriminate|]. intros H. apply IH in H. discriminate.
Qed.

(** ** The instance read off an inspection *)

Lemma split1_env_item k v :
  contains "=" k = false -> Py.split1 "=" (env_item (k, v)) = Some (k, v).
Proof.
  intros Hk. unfold env_item. cbn [fst snd].
  change (k +:+ "=" +:+ v) with (k +:+ String "=" v). apply split1_app. exact Hk.
Qed.




Lemma reserved_eq k : reserved k = existsb (String.eqb k) reserved_keys.
Proof. reflexivity. Qed.

Lemma read_env_reserved items : forall env slug env' slug' k,
  read_env items env slug = Ok (env', slug') ->
  reserved k = true -> env !! k = None -> env' !! k = None.
Proof.
  induction items as [|item items IH]; intros env slug env' slug' k; cbn [read_env].
  - intros [= <- _] _ H. exact H.
  - destruct (Py.split1 "=" item) as [[key v]|]; [|discriminate].
    intros Hrun Hk Hnone. eapply IH; [exact Hrun|exact Hk|].
    destruct (existsb (String.eqb key) reserved_keys) eqn:Hkey; [exact Hnone|].
    rewrite lookup_insert_ne; [exact Hnone|].
    intros ->. rewrite reserved_eq in Hk. congruence.
Qed.

(** X15.  The environment of an instance never shows HOME, PATH,
    SLUG_URL or PORT, whatever the container has in its own. *)
Theorem get_instance_hides_reserved node container i k :
  __get_instance node container = Ok i ->
  reserved k = true ->
  inst_environment i !! k = None.
Proof.
  unfold __get_instance.
  destruct (read_env (i_Env container) ∅ None) as [[env slug]|] eqn:E; [|discriminate].
  destruct (host_port container); [|discriminate].
  intros [= <-] Hk. cbn [inst_environment].
  eapply read_env_reserved; [exact E|exact Hk|apply lookup_empty].
Qed.

Lemma values_of_cons k kv kvs :
  values_of k (kv :: kvs) =
    if String.eqb (fst kv) k then snd kv :: values_of k kvs else values_of k kvs.
Proof. unfold values_of. cbn [List.filter]. destruct (String.eqb _ _); reflexivity. Qed.

Lemma read_env_items kvs : forall env slug,
  Forall (fun kv => contains "=" (fst kv) = false) kvs ->
  exists env' slug',
    read_env (map env_item kvs) env slug = Ok (env', slug') /\
    (forall k, env' !! k =
       if reserved k then env !! k
       else match last (values_of k kvs) with
            | Some v => Some v
            | None => env !! k
            end) /\
    slug' = match last (values_of "SLUG_URL" kvs) with
            | Some v => Some v
            | None => slug
            end.
Proof.
  induction kvs as [|[key v] kvs IH]; intros env slug Hall; cbn [map read_env].
  - exists env, slug. split; [reflexivity|]. split; [|reflexivity].
    intros k. destruct (reserved k); reflexivity.
  - inversion Hall as [|? ? Hkey Hrest]; subst. cbn [fst] in Hkey.
    rewrite (split1_env_item _ _ Hkey).
    match goal with |- context [read_env _ ?e ?sl] =>
      destruct (IH e sl Hrest) as (env' & slug' & -> & Henv & Hslug)
    end.
    exists env', slug'. split; [reflexivity|]. split.
    + intros k. rewrite Henv, values_of_cons. cbn [fst snd].
      destruct (reserved k) eqn:Hk.
      * destruct (existsb (String.eqb key) reserved_keys) eqn:Hr; [reflexivity|].
        apply lookup_insert_ne. intros ->. rewrite reserved_eq in Hk. congruence.
      * destruct (String.eqb key k) eqn:Hkk.
        -- apply String.eqb_eq in Hkk. subst k. rewrite reserved_eq in Hk.
           rewrite Hk, last_cons, lookup_insert_eq.
           destruct (last (values_of key kvs)); reflexivity.
        -- apply String.eqb_neq in Hkk.
           destruct (existsb (String.eqb key) reserved_keys);
             [reflexivity|rewrite lookup_insert_ne by exact Hkk; reflexivity].
    + rewrite Hslug, values_of_cons. cbn [fst snd].
      destruct (String.eqb key "SLUG_URL"); [|reflexivity].
      rewrite last_cons. destruct (last (values_of "SLUG_URL" kvs)); reflexivity.
Qed.

(** X16.  An environment given to a container as entries [k=v], with
    no equals sign in a key, comes back in the instance: each key that
    is not reserved with the value of its last entry, and the value of
    the last SLUG_URL entry as the slug. *)
Theorem environment_round_trip node container kvs i :
  i_Env container = map env_item kvs ->
  Forall (fun kv => contains "=" (fst kv) = false) kvs ->
  __get_instance node container = Ok i ->
  (forall k, inst_environment i !! k =
     if reserved k then None else last (values_of k kvs)) /\
  inst_slug_uri i = last (values_of "SLUG_URL" kvs).
Proof.
  intros Hitems Hkeys. unfold __get_instance. rewrite Hitems.
  destruct (read_env_items kvs ∅ None Hkeys) as (env & slug & -> & Henv & Hslug).
  destruct (host_port container); [|discriminate].
  intros [= <-]. cbn [inst_environment inst_slug_uri]. split.
  - intros k. rewrite Henv, lookup_empty.
    destruct (reserved k); [reflexivity|].
    destruct (last (values_of k kvs)); reflexivity.
  - rewrite Hslug. destruct (last (values_of "SLUG_URL" kvs)); reflexivity.
Qed.

(** ** Reading the logs *)

Section Logs.

Variable w : World.
Variable self : Connection.

(** X18.  [get_logs] for an id that no instance of the inventory has
    raises [NoSuchInstanceException]; the daemons were asked for the
    calls of the inventory and for no log. *)
Theorem get_logs_unknown_instance instance_id follow s instances s1 :
  get_instances w self None s = (Ok instances, s1) ->
  Forall (fun i => inst_id i <> instance_id) instances ->
  get_logs w self instance_id follow s = (Raise NoSuchInstanceException, s1) /\
  adds (inventory_call_under self None) s s1.
Proof.
  intros Hinv Hnone. split.
  - unfold get_logs. erewrite bind_ok by exact Hinv.
    assert (Hf : List.filter (fun i => String.eqb (inst_id i) instance_id) instances = []).
    { clear Hinv. induction Hnone as [|i l Hi _ IH]; [reflexivity|].
      cbn [List.filter]. apply String.eqb_neq in Hi. rewrite Hi. exact IH. }
    rewrite Hf. reflexivity.
  - pose proof (get_instances_adds w self None s) as H. rewrite Hinv in H. exact H.
Qed.

(** X19.  Following the logs of an instance whose stream is one frame
    with a payload: whatever the chunks in which the frame arrives,
    [get_logs] asks the node of the instance for its log stream, once,
    and yields one record, the payload. *)
Theorem get_logs_follows_one_frame instance_id s instances s1 instance_details rest
    chunks payload :
  get_instances w self None s = (Ok instances, s1) ->
  List.filter (fun i => String.eqb (inst_id i) instance_id) instances
    = instance_details :: rest ->
  logs_stream_resp w (calls s1) (inst_node instance_details) instance_id = Ok chunks ->
  join chunks = Scenario.frame payload ->
  1 <= Py.len payload < 4294967296 ->
  get_logs w self instance_id true s =
    (Ok [ {| msg := payload |} ],
     set_calls (fun l => l ++ [(inst_node instance_details, Logs instance_id true)]) s1).
Proof.
  intros Hinv Hfound Hstream Hjoin Hlen.
  unfold get_logs. erewrite bind_ok by exact Hinv. rewrite Hfound.
  assert (Hc : configured self instance_details).
  { pose proof (get_instances_configured _ _ _ _ _ _ Hinv) as Hall.
    rewrite List.Forall_forall in Hall. apply Hall.
    eapply (proj1 (filter_In _ instance_details instances)).
    rewrite Hfound. left. reflexivity. }
  unfold node_connection. unfold configured in Hc. rewrite Hc.
  unfold bind, ret, docker. rewrite Hstream.
  rewrite (stream_helper_one_frame payload chunks Hlen Hjoin). reflexivity.
Qed.

End Logs.

(** ** The log-stream helper on any input *)

Lemma unpack_length_nonneg header : 0 <= unpack_length header.
Proof.
  unfold unpack_length.
  destruct (Py.slice_from 4 header) as [|b4 [|b5 [|b6 [|b7 r]]]]; lia.
Qed.

Lemma length_slice_to k a :
  String.length (Py.slice_to k a) = Nat.min k (String.length a).
Proof.
  revert a. induction k as [|k IH]; intros a; [destruct a; reflexivity|].
  destruct a as [|c a]; simpl; [reflexivity|]. rewrite IH. reflexivity.
Qed.

Lemma stream_helper_loop_bounds chunks : forall data_buffer expected,
  match expected with Some n => 0 <= n | None => True end ->
  let out := stream_helper_loop chunks data_buffer expected in
  (length out <= length chunks)%nat /\
  framed_size out <= Py.len data_buffer + Py.len (join chunks) /\
  Forall (fun p => p <> "") out.
Proof.
  induction chunks as [|chunk rest IH]; intros buffer expected Hexp; cbv zeta.
  - cbn [stream_helper_loop framed_size length join fold_right].
    pose proof (len_nonneg buffer). change (Py.len "") with 0.
    split; [lia|]. split; [lia|constructor].
  - cbn [stream_helper_loop]. cbv zeta.
    change (join (chunk :: rest)) with (chunk +:+ join rest).
    pose proof (len_append buffer chunk) as Hlen.
    pose proof (len_append chunk (join rest)) as Hjoin.
    set (buffer' := buffer +:+ chunk) in *.
    set (total := Py.len (chunk +:+ join rest)) in *.
    set (expected' := if not_length expected && (Py.len buffer' >? 8)
                      then Some (unpack_length (Py.slice_to 8 buffer'))
                      else expected).
    assert (Hexp' : match expected' with Some n => 0 <= n | None => True end).
    { unfold expected'. destruct (_ && _); [apply unpack_length_nonneg|exact Hexp]. }
    clearbody expected'.
    assert (Hkeep : forall e, match e with Some n => 0 <= n | None => True end ->
              (length (stream_helper_loop rest buffer' e) <= length (chunk :: rest))%nat /\
              framed_size (stream_helper_loop rest buffer' e)
                <= Py.len buffer + total /\
              Forall (fun p => p <> "") (stream_helper_loop rest buffer' e)).
    { intros e He. destruct (IH buffer' e He) as (H1 & H2 & H3).
      cbn [length]. split; [lia|]. split; [lia|exact H3]. }
    destruct expected' as [n|]; [|apply Hkeep; exact I].
    destruct (negb (n =? 0) && (Py.len (Py.slice_from 8 buffer') >=? n)) eqn:Hyield;
      [|apply Hkeep; exact Hexp'].
    apply andb_prop in Hyield. destruct Hyield as [Hn Hfull].
    apply negb_true_iff, Z.eqb_neq in Hn. rewrite Z.geb_leb in Hfull.
    apply Z.leb_le in Hfull.
    assert (Hbody : Py.len (Py.slice_from 8 buffer') = Py.len buffer' - 8).
    { unfold Py.len in *. rewrite length_slice_from in *. lia. }
    assert (Hpayload : Py.len (Py.slice_to (Z.to_nat n) (Py.slice_from 8 buffer')) = n).
    { unfold Py.len in *. rewrite length_slice_to. rewrite length_slice_from in *. lia. }
    assert (Hleft : Py.len (Py.slice_from (8 + Z.to_nat n) buffer')
                    = Py.len buffer' - 8 - n).
    { unfold Py.len in *. rewrite length_slice_from in *. lia. }
    destruct (IH (Py.slice_from (8 + Z.to_nat n) buffer') None I) as (H1 & H2 & H3).
    cbn [length framed_size]. rewrite Hpayload.
    split; [lia|]. split; [lia|].
    constructor; [|exact H3].
    intros Hempty. rewrite Hempty in Hpayload. change (Py.len "") with 0 in Hpayload. lia.
Qed.

(** X20.  The helper yields at most one payload for each chunk it
    reads, never an empty one, and the payloads with their headers of
    eight bytes never exceed the bytes read. *)
Theorem stream_helper_bounds chunks :
  let out := __hacked_multiplexed_socket_stream_helper chunks in
  (length out <= length chunks)%nat /\
  framed_size out <= Py.len (join chunks) /\
  Forall (fun p => p <> "") out.
Proof.
  cbv zeta. unfold __hacked_multiplexed_socket_stream_helper.
  destruct (stream_helper_loop_bounds chunks "" None I) as (H1 & H2 & H3).
  change (Py.len "") with 0 in H2. split; [exact H1|]. split; [lia|exact H3].
Qed.

(** X21.  A frame that the end of the input cuts short yields nothing,
    whatever the chunks in which its beginning arrives. *)
Theorem stream_helper_incomplete_frame payload chunks tail :
  1 <= Py.len payload < 4294967296 ->
  tail <> "" ->
  join chunks +:+ tail = Scenario.frame payload ->
  __hacked_multiplexed_socket_stream_helper chunks = [].
Proof. apply stream_helper_cut_frame. Qed.

(** ** The exit time of a container *)




(** ** The collection of exited containers *)

Section Collector.

Variable w : World.
Variable self : Connection.


End Collector.

(** ** captain/hmrc_model.py *)

(** X24.  The two models of an instance agree on the application: the
    name of the container without its first character, up to the
    first underscore.  The earlier one has no version exactly when
    there is no underscore. *)
Theorem hmrc_app_agrees name :
  fst (Hmrc.name_parts name) = app_of_name name /\
  (snd (Hmrc.name_parts name) = None <-> contains "_" (Py.tail name) = false).
Proof.
  unfold Hmrc.name_parts, app_of_name. rewrite hd_split_split1.
  rewrite <- split1_none_iff.
  destruct (Py.split1 "_" (Py.tail name)) as [[a v]|]; cbn [fst snd].
  - split; [reflexivity|]. split; discriminate.
  - split; [reflexivity|]. split; reflexivity.
Qed.

(** X25.  A container named [/app_version], with no underscore in the
    application, on a node that resolves and with a bound port, makes
    the instance of that application and version; the version keeps
    its own underscores. *)
Theorem hmrc_instance_of_name gethostbyname container_id details node a v address p :
  Hmrc.d_Name details = "/" +:+ a +:+ "_" +:+ v ->
  contains "_" a = false ->
  gethostbyname node = Some address ->
  Hmrc.bound_port details = Ok p ->
  Hmrc.init gethostbyname container_id details node =
    inl {| Hmrc.id := container_id;
           Hmrc.app := a;
           Hmrc.version := Some v;
           Hmrc.node := node;
           Hmrc.running := Hmrc.d_Running details;
           Hmrc.ip := address;
           Hmrc.port := p |}.
Proof.
  intros Hname Ha Hnode Hport. unfold Hmrc.init, Hmrc.name_parts.
  rewrite Hname. change (Py.tail ("/" +:+ a +:+ "_" +:+ v)) with (a +:+ String "_" v).
  rewrite (split1_app _ _ _ Ha), Hnode, Hport. reflexivity.
Qed.

(** ** The key of the cache *)



(** ** The further properties at work *)

(** X1 on the fleet of the tests: the second lookup of the details of
    an instance of node-1 makes no call. *)
Lemma details_are_reused_witness :
  let w := Scenario.two_node_fleet Scenario.nothing_fails in
  let first :=
    _get_lru_instance_details w Scenario.two_nodes "node-1" "eba8bea2600029" "Up"
      initial_state in
  let second :=
    _get_lru_instance_details w Scenario.two_nodes "node-1" "eba8bea2600029" "Up"
      (snd first) in
  fst second = Ok Cases.paye_216 /\ calls (snd second) = calls (snd first).
Proof.
  intros w first second.
  apply (details_are_reused w Scenario.two_nodes "node-1" "eba8bea2600029" "Up"
           initial_state Cases.paye_216 (snd first)).
  vm_compute. reflexivity.
Defined.

(** X2 on the fleet of the tests, from the empty cache. *)
Lemma cache_stays_in_order_witness :
  lru_ok (snd (get_instances (Scenario.two_node_fleet Scenario.nothing_fails)
                 Scenario.two_nodes None initial_state)).
Proof.
  apply (cache_stays_in_order (Scenario.two_node_fleet Scenario.nothing_fails)
           Scenario.two_nodes initial_state).
  split; [unfold lru_cache_size; cbn [lru initial_state length]; lia|constructor].
Defined.

(** X3 on node-1 of the fleet of the tests. *)
Lemma second_inventory_inspects_nothing_witness :
  let w := Scenario.two_node_fleet Scenario.nothing_fails in
  let first := get_node_instances w Scenario.two_nodes "node-1" initial_state in
  adds no_inspect (snd first)
    (snd (get_node_instances w Scenario.two_nodes "node-1" (snd first))).
Proof.
  intros w first.
  apply (second_inventory_inspects_nothing w Scenario.two_nodes "node-1" initial_state
           [Scenario.up "656ca7c307d178" "Up 40 minutes";
            Scenario.up "eba8bea2600029" "Up 56 minutes";
            Scenario.exited "381587e2978216" "Exited (0) 2 days ago"]
           (match fst first with Ok l => l | Raise _ => [] end) (snd first)).
  - unfold lru_cache_size. cbn [lru initial_state length]. lia.
  - vm_compute. reflexivity.
  - vm_compute. reflexivity.
  - vm_compute. reflexivity.
Defined.


(** X6 on the fleet of the tests, filtered on node-2. *)
Lemma node_filter_confines_witness :
  let w := Scenario.two_node_fleet Scenario.nothing_fails in
  let run := get_instances w Scenario.two_nodes (Some "node-2") initial_state in
  Forall (fun i => inst_node i = "node-2")
    (match fst run with Ok l => l | Raise _ => [] end) /\
  adds (inventory_call_on "node-2") initial_state (snd run).
Proof.
  intros w run.
  apply (node_filter_confines w Scenario.two_nodes "node-2" initial_state).
  - discriminate.
  - vm_compute. reflexivity.
Defined.

(** X7: the ping of node-2 times out. *)
Lemma get_node_unreachable_witness :
  let w := Scenario.two_node_fleet Cases.ping_times_out in
  get_node w Scenario.two_nodes "node-2" initial_state =
    (Ok (unreachable "node-2" Timeout),
     add_log (ErrorCommunication "node-2" Timeout) (pinged "node-2" initial_state)).
Proof.
  intros w.
  apply (get_node_unreachable w Scenario.two_nodes "node-2" initial_state Timeout);
    vm_compute; reflexivity.
Defined.

(** X8 on node-1 of the fleet of the tests. *)
Lemma get_node_accounts_witness :
  let w := Scenario.two_node_fleet Scenario.nothing_fails in
  exists instances s',
    get_instances w Scenario.two_nodes (Some "node-1") (pinged "node-1" initial_state)
      = (Ok instances, s') /\
    get_node w Scenario.two_nodes "node-1" initial_state
      = (Ok (healthy Scenario.two_nodes "node-1" (sum_slots instances)), s') /\
    nd_used (healthy Scenario.two_nodes "node-1" (sum_slots instances))
      + nd_free (healthy Scenario.two_nodes "node-1" (sum_slots instances))
      = 10.
Proof.
  intros w.
  apply (get_node_accounts w Scenario.two_nodes "node-1" initial_state);
    vm_compute; reflexivity.
Defined.

(** X10: node-3 answers the ping and no listing. *)
Lemma get_node_healthy_without_listing_witness :
  fst (get_node (Scenario.two_node_fleet Scenario.nothing_fails) Cases.three_nodes
         "node-3" initial_state)
    = Ok (healthy Cases.three_nodes "node-3" 0).
Proof.
  apply (get_node_healthy_without_listing
           (Scenario.two_node_fleet Scenario.nothing_fails) Cases.three_nodes
           "node-3" initial_state).
  - discriminate.
  - vm_compute. reflexivity.
  - vm_compute. reflexivity.
  - intros h. exists ConnectionError. reflexivity.
Defined.

(** X12: the ping of node-2 times out, and both nodes are reported. *)
Lemma get_nodes_reports_every_node_witness :
  let w := Scenario.two_node_fleet Cases.ping_times_out in
  exists nodes,
    fst (get_nodes w Scenario.two_nodes initial_state) = Ok nodes /\
    map nd_id nodes = ["node-1"; "node-2"].
Proof.
  intros w.
  apply (get_nodes_reports_every_node w Scenario.two_nodes initial_state).
  intros h n e. cbn [command_resp w Scenario.two_node_fleet Scenario.fleet
                     Cases.ping_times_out].
  destruct (String.eqb n "node-2"); [|discriminate].
  intros [= <-]. reflexivity.
Defined.

(** X13: the start of the tests, two slots of 128 MB. *)
Lemma start_instance_launches_witness :
  let w := Scenario.one_instance 2 in
  let run := start_instance w Scenario.two_nodes "paye" "https://host/paye_216.tgz"
               "node-1" None None (Some 2) None initial_state in
  let args :=
    create_args Scenario.two_nodes "paye" "SOME-UUID"
      (<["SLUG_URL" := "https://host/paye_216.tgz"]> (<["PORT" := "8080"]> ∅))
      2 None in
  ca_mem_limit args = 268435456 /\
  exists inv id container,
    calls (snd run) = calls initial_state ++ inv ++ launch "node-1" args id /\
    forallb (inventory_call_under Scenario.two_nodes (Some "node-1")) inv = true /\
    create_resp w (calls initial_state ++ inv) "node-1" args = Ok id /\
    inspect_resp w (calls initial_state ++ inv ++ removelast (launch "node-1" args id))
      "node-1" id = Ok container /\
    __get_instance "node-1" container = fst run.
Proof.
  intros w run args. split; [reflexivity|].
  remember run as started eqn:Erun.
  destruct started as [[i|e] s1]; [|vm_compute in Erun; discriminate].
  exact (start_instance_launches w Scenario.two_nodes "paye" "https://host/paye_216.tgz"
           "node-1" None None (Some 2) None initial_state i s1 (eq_sym Erun)).
Defined.

(** X15: the PORT of the container is not in the environment of the
    instance. *)
Lemma get_instance_hides_reserved_witness :
  let i := match __get_instance "node-1" Cases.paye_216 with
           | Ok i => i
           | Raise _ => Scenario.one_of_node_2
           end in
  inst_environment i !! "PORT" = None.
Proof.
  intros i.
  apply (get_instance_hides_reserved "node-1" Cases.paye_216 i "PORT").
  - vm_compute. reflexivity.
  - reflexivity.
Defined.

(** X16 on the environment of the containers of the scenarios. *)
Lemma environment_round_trip_witness :
  let i := match __get_instance "node-1" Cases.paye_216 with
           | Ok i => i
           | Raise _ => Scenario.one_of_node_2
           end in
  (forall k, inst_environment i !! k =
     if reserved k then None else last (values_of k Cases.paye_216_env)) /\
  inst_slug_uri i = last (values_of "SLUG_URL" Cases.paye_216_env).
Proof.
  intros i.
  apply (environment_round_trip "node-1" Cases.paye_216 Cases.paye_216_env i).
  - reflexivity.
  - repeat constructor.
  - vm_compute. reflexivity.
Defined.

(** X18: the id of the tests that no instance has. *)
Lemma get_logs_unknown_instance_witness :
  let w := Scenario.two_node_fleet Scenario.nothing_fails in
  let inventory := get_instances w Scenario.two_nodes None initial_state in
  get_logs w Scenario.two_nodes "non-existant" false initial_state
    = (Raise NoSuchInstanceException, snd inventory) /\
  adds (inventory_call_under Scenario.two_nodes None) initial_state (snd inventory).
Proof.
  intros w inventory.
  apply (get_logs_unknown_instance w Scenario.two_nodes "non-existant" false
           initial_state (match fst inventory with Ok l => l | Raise _ => [] end)).
  - vm_compute. reflexivity.
  - vm_compute. repeat (constructor; [discriminate|]). constructor.
Defined.

(** X19: the stream of the instance of node-2 is the frame of one line. *)
Lemma get_logs_follows_one_frame_witness :
  let w := Cases.one_frame_fleet "this is line 1" in
  let inventory := get_instances w Scenario.two_nodes None initial_state in
  get_logs w Scenario.two_nodes "80be2a9e62ba00" true initial_state =
    (Ok [ {| msg := "this is line 1" |} ],
     set_calls (fun l => l ++ [("node-2", Logs "80be2a9e62ba00" true)]) (snd inventory)).
Proof.
  intros w inventory.
  apply (get_logs_follows_one_frame w Scenario.two_nodes "80be2a9e62ba00" initial_state
           (match fst inventory with Ok l => l | Raise _ => [] end) (snd inventory)
           Scenario.one_of_node_2 []
           (iter_content 10 (Scenario.frame "this is line 1")) "this is line 1").
  - vm_compute. reflexivity.
  - vm_compute. reflexivity.
  - vm_compute. reflexivity.
  - vm_compute. reflexivity.
  - unfold Py.len. simpl. lia.
Defined.

(** X21: the frame of one line, without its last byte. *)
Lemma stream_helper_incomplete_frame_witness :
  __hacked_multiplexed_socket_stream_helper
    (iter_content 10 (Py.slice_to 21 (Scenario.frame "this is line 1"))) = [].
Proof.
  apply (stream_helper_incomplete_frame "this is line 1"
           (iter_content 10 (Py.slice_to 21 (Scenario.frame "this is line 1"))) "1").
  - unfold Py.len. simpl. lia.
  - discriminate.
  - vm_compute. reflexivity.
Defined.



(** X25: the version keeps its underscore. *)
Lemma hmrc_instance_of_name_witness :
  Hmrc.init (fun _ => Some "10.0.0.1") "eba8bea2600029" Cases.paye_details "node-1" =
    inl {| Hmrc.id := "eba8bea2600029";
           Hmrc.app := "paye";
           Hmrc.version := Some "216_b";
           Hmrc.node := "node-1";
           Hmrc.running := true;
           Hmrc.ip := "10.0.0.1";
           Hmrc.port := 9317 |}.
Proof.
  apply (hmrc_instance_of_name (fun _ => Some "10.0.0.1") "eba8bea2600029"
           Cases.paye_details "node-1" "paye" "216_b" "10.0.0.1" 9317);
    vm_compute; reflexivity.
Defined.


(** ** Sanity checks of the primitives *)

Example split_blob : Py.split LF ("a" +:+ nl +:+ "b" +:+ nl) = ["a"; "b"; ""].
Proof. reflexivity. Qed.
Example split_ws_ex : Py.split_ws "Exited (0) 2 days ago" = ["Exited"; "(0)"; "2"; "days"; "ago"].
Proof. reflexivity. Qed.
Example int_ex : Py.int " 9317" = Some 9317 /\ Py.int "93a" = None /\ Py.int "" = None.
Proof. repeat split; reflexivity. Qed.
Example strptime_ex :
  Datetime.strptime "0001-01-01T00:00:00" = Some 0 /\
  Datetime.strptime "0001-01-02T00:00:01" = Some 86401000000 /\
  Datetime.strptime "2014-08-22T08:49:57" = Some 63544294197000000 /\
  Datetime.strptime "2014-8-22t8:49:7" = Some 63544294147000000 /\
  Datetime.strptime "2014-08-22T08:49:57Z" = None /\
  Datetime.strptime "2014-02-29T08:49:57" = None /\
  Datetime.strptime "2014-13-01T08:49:57" = None /\
  Datetime.strptime "2014-08-22T08:49:60" = None /\
  Datetime.strptime "2014-08- 2T08:49:57" = Some 63542566197000000 /\
  Datetime.strptime "0000-01-01T00:00:00" = None.
Proof. repeat split; vm_compute; reflexivity. Qed.
